(** * Object monitors of the ART runtime (runtime/monitor.cc)

    A shallow embedding of the thin/fat lock protocol of [monitor.cc]:
    the lock word of an object, the inflated [Monitor] with its owner,
    recursion count and wait set, and the entry points [MonitorEnter],
    [MonitorExit], [Wait], [InflateAndNotify], [GetLockOwnerThreadId]
    and [MonitorInfo].

    The embedding is sequential: one call runs from its entry to its return,
    or to the point where the calling thread blocks on a condition variable.
    The internal mutexes ([monitor_lock_], [wait_mutex_],
    [monitor_list_lock_]) are taken and released inside one call and have no
    effect that a sequential run can observe; they are not represented.
    A CHECK that fails ends the run; the DCHECKs of debug builds are left
    out.  [Thread::Current()] is the thread that runs the call, the [self]
    of the entry points. *)

From Stdlib Require Import ZArith List Bool Lia.
From stdpp Require Import base option list gmap.

Local Open Scope Z_scope.

(** ** Pointers

    A [Thread*], [Monitor*], [mirror::Object*] or [ArtMethod*] is an address;
    a pointer that may be NULL is an [option]. *)

Abbreviation ThreadPtr := positive (only parsing).
Abbreviation MonitorPtr := positive (only parsing).
Abbreviation ObjPtr := positive (only parsing).
Abbreviation MethodPtr := positive (only parsing).

(** ** Lock word *)

Inductive LockState := kUnlocked | kThinLocked | kFatLocked.

(** Modelled from the spec: lock_word.h and lock_word-inl.h are not part of
    the sources at hand.  The lock word is the tagged union of the data
    model: unlocked, thin-locked with an owner thread id and a recursion
    count, or fat-locked with a pointer to the monitor. *)
Inductive LockWord :=
| Unlocked
| ThinLocked (owner : Z) (count : Z)
| FatLocked (mon : MonitorPtr).

#[global] Instance LockWord_eq_dec : EqDecision LockWord.
Proof. solve_decision. Defined.

#[global] Instance LockState_eq_dec : EqDecision LockState.
Proof. solve_decision. Defined.

(** [LockWord()] *)
Definition LockWord_default : LockWord := Unlocked.

(** [LockWord::FromThinLockId(thread_id, count)] *)
Definition FromThinLockId (thread_id count : Z) : LockWord :=
  ThinLocked thread_id count.

(** [LockWord(Monitor* mon)] *)
Definition LockWord_fat (mon : MonitorPtr) : LockWord := FatLocked mon.

Definition GetState (lw : LockWord) : LockState :=
  match lw with
  | Unlocked => kUnlocked
  | ThinLocked _ _ => kThinLocked
  | FatLocked _ => kFatLocked
  end.

Definition ThinLockOwner (lw : LockWord) : Z :=
  match lw with ThinLocked o _ => o | _ => 0 end.

Definition ThinLockCount (lw : LockWord) : Z :=
  match lw with ThinLocked _ c => c | _ => 0 end.

Definition FatLockMonitor (lw : LockWord) : option MonitorPtr :=
  match lw with FatLocked m => Some m | _ => None end.

(** Modelled from the spec: thread_list.h is not part of the sources at hand;
    the thread id zero is reserved as "no thread". *)
Definition kInvalidThreadId : Z := 0.

(** ** Threads, monitors, runtime *)

Inductive ThreadState :=
| kRunnable | kBlocked | kWaiting | kTimedWaiting | kSleeping.

#[global] Instance ThreadState_eq_dec : EqDecision ThreadState.
Proof. solve_decision. Defined.

(** The cases of [FailedUnlock] and the three fixed messages of
    [ThrowIllegalMonitorStateExceptionF]. *)
Inductive IllegalMonitorStateReason :=
| UnlockOfUnowned                                   (* "unlock of unowned monitor ..." *)
| UnlockNowUnowned (found : ThreadPtr)              (* "... (where now the monitor appears unowned) ..." *)
| UnlockBelievedUnowned (current : ThreadPtr)       (* "... (originally believed to be unowned) ..." *)
| UnlockOwnerChanged (found current : ThreadPtr)    (* "... originally owned by ... (now owned by ...) ..." *)
| UnlockOwnedBy (current : ThreadPtr)               (* "unlock of monitor owned by ..." *)
| NotLockedBeforeWait
| NotLockedBeforeNotify
| NotLockedBeforeNotifyAll.

Inductive Throwable :=
| IllegalMonitorStateException (why : IllegalMonitorStateReason)
| IllegalArgumentException (ms ns : Z)
| InterruptedException.

(** The fields of [Thread] that monitor.cc reads and writes. *)
Record Thread := mkThread {
  thread_id_ : Z;                          (* GetThreadId() *)
  state_ : ThreadState;                    (* GetState() *)
  suspended_ : bool;                       (* IsSuspended() *)
  wait_next_ : option ThreadPtr;
  wait_monitor_ : option MonitorPtr;
  interrupted_ : bool;
  exception_ : option Throwable;           (* pending exception *)
  current_method_ : option MethodPtr;      (* GetCurrentMethod(&dex_pc) *)
  current_dex_pc_ : Z
}.

Record Monitor := mkMonitor {
  owner_ : option ThreadPtr;
  lock_count_ : Z;
  obj_ : ObjPtr;
  wait_set_ : option ThreadPtr;
  locking_method_ : option MethodPtr;
  locking_dex_pc_ : Z
}.

(** What a sequential run can observe of the condition variables, of the
    spin sleep and of the contention log. *)
Inductive Event :=
| ContendersSignal (m : MonitorPtr)                 (* monitor_contenders_.Signal *)
| ContendersWait (m : MonitorPtr) (t : ThreadPtr)   (* monitor_contenders_.Wait *)
| WaitCondSignal (t : ThreadPtr)                    (* t->wait_cond_->Signal *)
| WaitCondWait (t : ThreadPtr)                      (* t->wait_cond_->Wait *)
| WaitCondTimedWait (t : ThreadPtr) (ms ns : Z)     (* t->wait_cond_->TimedWait *)
| NanoSleep (ns : Z)
| LogContentionEvent (t : ThreadPtr) (wait_ms sample_percent : Z)
                     (owners_method : option MethodPtr) (owners_dex_pc : Z).

Record Runtime := mkRuntime {
  threads : gmap positive Thread;
  monitors : gmap positive Monitor;
  lock_words : gmap positive LockWord;     (* mirror::Object::monitor_ *)
  thread_list : list ThreadPtr;            (* Runtime::GetThreadList() *)
  monitor_list : list MonitorPtr;          (* MonitorList::list_ *)
  allow_new_monitors_ : bool;
  lock_profiling_threshold_ : Z;
  max_spins_before_thin_lock_inflation : Z;
  milli_time : Z;                          (* what MilliTime() returns now *)
  trace : list Event
}.

(** ** Calls

    A call returns, or blocks the calling thread on a condition variable
    (the [Frame] holds the locals it needs when it is woken), or dies on a
    failed CHECK or a dangling pointer, or runs out of loop fuel. *)

Inductive Frame :=
| LockFrame (m : MonitorPtr) (wait_start_ms : Z)
            (owners_method : option MethodPtr) (owners_dex_pc : Z)
            (old_state : ThreadState)
| WaitFrame (m : MonitorPtr) (prev_lock_count : Z)
            (saved_method : option MethodPtr) (saved_dex_pc : Z)
            (interruptShouldThrow : bool)
| AddFrame (m : MonitorPtr).

Inductive Outcome (A : Type) :=
| Done (a : A) (rt : Runtime)
| Parked (f : Frame) (rt : Runtime)
| Fatal
| OutOfFuel.
Arguments Done {A} a rt.
Arguments Parked {A} f rt.
Arguments Fatal {A}.
Arguments OutOfFuel {A}.

Definition Call (A : Type) : Type := Runtime -> Outcome A.

Definition ret {A} (a : A) : Call A := fun rt => Done a rt.

Definition bind {A B} (c : Call A) (k : A -> Call B) : Call B :=
  fun rt =>
    match c rt with
    | Done a rt' => k a rt'
    | Parked f rt' => Parked f rt'
    | Fatal => Fatal
    | OutOfFuel => OutOfFuel
    end.

Notation "x <- c ;; k" := (bind c (fun x => k))
  (at level 100, c at next level, right associativity).
Notation "c ;;; k" := (bind c (fun _ => k))
  (at level 100, right associativity).

Definition fatal {A} : Call A := fun _ => Fatal.
Definition park {A} (f : Frame) : Call A := fun rt => Parked f rt.
Definition get : Call Runtime := fun rt => Done rt rt.
Definition put (rt : Runtime) : Call unit := fun _ => Done tt rt.

(** CHECK(b) *)
Definition CHECK (b : bool) : Call unit := if b then ret tt else fatal.

(** Dereference of a pointer that must be valid. *)
Definition deref {A} (o : option A) : Call A :=
  match o with Some a => ret a | None => fatal end.

Definition reads {A} (f : Runtime -> A) : Call A := fun rt => Done (f rt) rt.
Definition modify (f : Runtime -> Runtime) : Call unit := fun rt => Done tt (f rt).
Definition out_of_fuel {A} : Call A := fun _ => OutOfFuel.

(** ** Field updates *)

Definition set_state (v : ThreadState) (t : Thread) : Thread :=
  mkThread (thread_id_ t) v (suspended_ t) (wait_next_ t) (wait_monitor_ t)
           (interrupted_ t) (exception_ t) (current_method_ t) (current_dex_pc_ t).
Definition set_suspended (v : bool) (t : Thread) : Thread :=
  mkThread (thread_id_ t) (state_ t) v (wait_next_ t) (wait_monitor_ t)
           (interrupted_ t) (exception_ t) (current_method_ t) (current_dex_pc_ t).
Definition set_wait_next (v : option ThreadPtr) (t : Thread) : Thread :=
  mkThread (thread_id_ t) (state_ t) (suspended_ t) v (wait_monitor_ t)
           (interrupted_ t) (exception_ t) (current_method_ t) (current_dex_pc_ t).
Definition set_wait_monitor (v : option MonitorPtr) (t : Thread) : Thread :=
  mkThread (thread_id_ t) (state_ t) (suspended_ t) (wait_next_ t) v
           (interrupted_ t) (exception_ t) (current_method_ t) (current_dex_pc_ t).
Definition set_interrupted (v : bool) (t : Thread) : Thread :=
  mkThread (thread_id_ t) (state_ t) (suspended_ t) (wait_next_ t) (wait_monitor_ t)
           v (exception_ t) (current_method_ t) (current_dex_pc_ t).
Definition set_exception (v : option Throwable) (t : Thread) : Thread :=
  mkThread (thread_id_ t) (state_ t) (suspended_ t) (wait_next_ t) (wait_monitor_ t)
           (interrupted_ t) v (current_method_ t) (current_dex_pc_ t).

Definition set_owner (v : option ThreadPtr) (m : Monitor) : Monitor :=
  mkMonitor v (lock_count_ m) (obj_ m) (wait_set_ m) (locking_method_ m) (locking_dex_pc_ m).
Definition set_lock_count (v : Z) (m : Monitor) : Monitor :=
  mkMonitor (owner_ m) v (obj_ m) (wait_set_ m) (locking_method_ m) (locking_dex_pc_ m).
Definition set_wait_set (v : option ThreadPtr) (m : Monitor) : Monitor :=
  mkMonitor (owner_ m) (lock_count_ m) (obj_ m) v (locking_method_ m) (locking_dex_pc_ m).
Definition set_locking (meth : option MethodPtr) (pc : Z) (m : Monitor) : Monitor :=
  mkMonitor (owner_ m) (lock_count_ m) (obj_ m) (wait_set_ m) meth pc.

Definition set_threads (v : gmap positive Thread) (rt : Runtime) : Runtime :=
  mkRuntime v (monitors rt) (lock_words rt) (thread_list rt) (monitor_list rt)
            (allow_new_monitors_ rt) (lock_profiling_threshold_ rt)
            (max_spins_before_thin_lock_inflation rt) (milli_time rt) (trace rt).
Definition set_monitors (v : gmap positive Monitor) (rt : Runtime) : Runtime :=
  mkRuntime (threads rt) v (lock_words rt) (thread_list rt) (monitor_list rt)
            (allow_new_monitors_ rt) (lock_profiling_threshold_ rt)
            (max_spins_before_thin_lock_inflation rt) (milli_time rt) (trace rt).
Definition set_lock_words (v : gmap positive LockWord) (rt : Runtime) : Runtime :=
  mkRuntime (threads rt) (monitors rt) v (thread_list rt) (monitor_list rt)
            (allow_new_monitors_ rt) (lock_profiling_threshold_ rt)
            (max_spins_before_thin_lock_inflation rt) (milli_time rt) (trace rt).
Definition set_monitor_list (v : list MonitorPtr) (rt : Runtime) : Runtime :=
  mkRuntime (threads rt) (monitors rt) (lock_words rt) (thread_list rt) v
            (allow_new_monitors_ rt) (lock_profiling_threshold_ rt)
            (max_spins_before_thin_lock_inflation rt) (milli_time rt) (trace rt).
Definition set_trace (v : list Event) (rt : Runtime) : Runtime :=
  mkRuntime (threads rt) (monitors rt) (lock_words rt) (thread_list rt) (monitor_list rt)
            (allow_new_monitors_ rt) (lock_profiling_threshold_ rt)
            (max_spins_before_thin_lock_inflation rt) (milli_time rt) v.

(** ** Access to threads, monitors and objects *)

Definition Thread_at (t : ThreadPtr) : Call Thread :=
  fun rt => deref (threads rt !! t) rt.

Definition Monitor_at (m : MonitorPtr) : Call Monitor :=
  fun rt => deref (monitors rt !! m) rt.

Definition upd_thread (t : ThreadPtr) (f : Thread -> Thread) : Call unit :=
  th <- Thread_at t;;
  modify (fun rt => set_threads (<[t := f th]> (threads rt)) rt).

Definition upd_monitor (m : MonitorPtr) (f : Monitor -> Monitor) : Call unit :=
  mon <- Monitor_at m;;
  modify (fun rt => set_monitors (<[m := f mon]> (monitors rt)) rt).

Definition emit (e : Event) : Call unit :=
  modify (fun rt => set_trace (trace rt ++ [e]) rt).

(** [obj->GetLockWord()] *)
Definition GetLockWord (obj : ObjPtr) : Call LockWord :=
  fun rt => deref (lock_words rt !! obj) rt.

(** [obj->SetLockWord(lw)] *)
Definition SetLockWord (obj : ObjPtr) (lw : LockWord) : Call unit :=
  GetLockWord obj;;;
  modify (fun rt => set_lock_words (<[obj := lw]> (lock_words rt)) rt).

(** [obj->CasLockWord(old_val, new_val)], run without interference. *)
Definition CasLockWord (obj : ObjPtr) (old_val new_val : LockWord) : Call bool :=
  cur <- GetLockWord obj;;
  if bool_decide (cur = old_val) then SetLockWord obj new_val;;; ret true
  else ret false.

Definition GetThreadId (t : ThreadPtr) : Call Z :=
  th <- Thread_at t;; ret (thread_id_ th).

(** [thread->GetCurrentMethod(&dex_pc)] *)
Definition GetCurrentMethod (t : ThreadPtr) : Call (option MethodPtr * Z) :=
  th <- Thread_at t;; ret (current_method_ th, current_dex_pc_ th).

(** [self->ThrowNewException...]: the exception becomes the pending exception
    of the current thread. *)
Definition Throw (self : ThreadPtr) (e : Throwable) : Call unit :=
  upd_thread self (set_exception (Some e)).

(** [ThrowIllegalMonitorStateExceptionF]; [Thread::Current()] is the thread
    that runs the call. *)
Definition ThrowIllegalMonitorStateExceptionF
    (self : ThreadPtr) (why : IllegalMonitorStateReason) : Call unit :=
  Throw self (IllegalMonitorStateException why).

(** [ScopedThreadStateChange tsc(self, new_state)] around a block. *)
Definition ScopedThreadStateChange {A} (self : ThreadPtr) (new_state : ThreadState)
    (body : Call A) : Call A :=
  th <- Thread_at self;;
  upd_thread self (set_state new_state);;;
  a <- body;;
  upd_thread self (set_state (state_ th));;;
  ret a.

(** Modelled from the spec: thread_list.cc is not part of the sources at hand.
    [find_by_id(id)] looks the thread with this id up in the registry. *)
Definition FindThreadByThreadId (id : Z) : Call (option ThreadPtr) :=
  reads (fun rt =>
    List.find (fun t => match threads rt !! t with
                        | Some th => thread_id_ th =? id
                        | None => false
                        end) (thread_list rt)).

(** Modelled from the spec: thread_list.cc is not part of the sources at hand.
    [suspend_by_id(id)] returns the suspended thread, or none. *)
Definition SuspendThreadByThreadId (id : Z) : Call (option ThreadPtr) :=
  found <- FindThreadByThreadId id;;
  match found with
  | Some t => upd_thread t (set_suspended true);;; ret (Some t)
  | None => ret None
  end.

(** Modelled from the spec: thread_list.cc is not part of the sources at hand.
    [resume(thread)] ends the suspension. *)
Definition Resume (t : ThreadPtr) : Call unit :=
  upd_thread t (set_suspended false).

(** Modelled from the spec: thread.cc is not part of the sources at hand.
    [thread->Notify()] signals the thread's personal condition variable. *)
Definition Thread_Notify (t : ThreadPtr) : Call unit :=
  emit (WaitCondSignal t).

(** ** Monitor: construction and installation *)

(** [new Monitor(owner, obj)]: the monitor gets an address that no live
    monitor has. *)
Definition Monitor_new (self owner : ThreadPtr) (obj : ObjPtr) : Call MonitorPtr :=
  o <- Thread_at owner;;
  CHECK (bool_decide (owner = self) || suspended_ o);;;
  rt <- get;;
  let m : positive := fresh (dom (monitors rt) : gset positive) in
  put (set_monitors (<[m := mkMonitor (Some owner) 0 obj None None 0]> (monitors rt)) rt);;;
  ret m.

(** [Monitor::~Monitor] through [delete] or [UniquePtr]. *)
Definition Monitor_delete (m : MonitorPtr) : Call unit :=
  mon <- Monitor_at m;;
  lw <- GetLockWord (obj_ mon);;
  CHECK (bool_decide (GetState lw = kFatLocked));;;
  modify (fun rt => set_monitors (delete m (monitors rt)) rt).

Definition Monitor_Install (self : ThreadPtr) (m : MonitorPtr) : Call bool :=
  mon <- Monitor_at m;;
  owner <- deref (owner_ mon);;
  o <- Thread_at owner;;
  CHECK (bool_decide (owner = self) || suspended_ o);;;
  (* Propagate the lock state. *)
  thin <- GetLockWord (obj_ mon);;
  if bool_decide (GetState thin <> kThinLocked) then
    (* The owner_ is suspended but another thread beat us to install a monitor. *)
    CHECK (bool_decide (GetState thin = kFatLocked));;;
    ret false
  else
    CHECK (bool_decide (thread_id_ o = ThinLockOwner thin));;;
    upd_monitor m (set_lock_count (ThinLockCount thin));;;
    let fat := LockWord_fat m in
    (* Publish the updated lock word. *)
    success <- CasLockWord (obj_ mon) thin fat;;
    threshold <- reads lock_profiling_threshold_;;
    (if success && bool_decide (threshold <> 0) then
       mp <- GetCurrentMethod owner;;
       upd_monitor m (set_locking (fst mp) (snd mp))
     else ret tt);;;
    ret success.

(** [MonitorList::Add] *)
Definition MonitorList_Add (m : MonitorPtr) : Call unit :=
  allow <- reads allow_new_monitors_;;
  if allow then modify (fun rt => set_monitor_list (m :: monitor_list rt) rt)
  else park (AddFrame m).

Definition Inflate (self owner : ThreadPtr) (obj : ObjPtr) : Call unit :=
  (* Allocate and acquire a new monitor. *)
  m <- Monitor_new self owner obj;;
  ok <- Monitor_Install self m;;
  (if ok then MonitorList_Add m else ret tt);;;
  lw <- GetLockWord obj;;
  CHECK (bool_decide (GetState lw = kFatLocked));;;
  (* The UniquePtr deletes a monitor that was not released to the list. *)
  if ok then ret tt else Monitor_delete m.

(** ** Monitor: the wait set, a chain through [wait_next_] *)

(** The [while (t->wait_next_ != NULL)] of [AppendToWaitSet]. *)
Fixpoint AppendToWaitSet_last (fuel : nat) (t : ThreadPtr) : Call ThreadPtr :=
  match fuel with
  | O => out_of_fuel
  | S fuel' =>
      th <- Thread_at t;;
      match wait_next_ th with
      | Some next => AppendToWaitSet_last fuel' next
      | None => ret t
      end
  end.

Definition AppendToWaitSet (fuel : nat) (m : MonitorPtr) (thread : ThreadPtr) : Call unit :=
  mon <- Monitor_at m;;
  match wait_set_ mon with
  | None => upd_monitor m (set_wait_set (Some thread))
  | Some head =>
      (* push_back. *)
      t <- AppendToWaitSet_last fuel head;;
      upd_thread t (set_wait_next (Some thread))
  end.

(** The [while (t->wait_next_ != NULL)] of [RemoveFromWaitSet]. *)
Fixpoint RemoveFromWaitSet_loop (fuel : nat) (t thread : ThreadPtr) : Call unit :=
  match fuel with
  | O => out_of_fuel
  | S fuel' =>
      th <- Thread_at t;;
      match wait_next_ th with
      | None => ret tt
      | Some next =>
          if bool_decide (next = thread) then
            thr <- Thread_at thread;;
            upd_thread t (set_wait_next (wait_next_ thr));;;
            upd_thread thread (set_wait_next None)
          else RemoveFromWaitSet_loop fuel' next thread
      end
  end.

Definition RemoveFromWaitSet (fuel : nat) (m : MonitorPtr) (thread : ThreadPtr) : Call unit :=
  mon <- Monitor_at m;;
  match wait_set_ mon with
  | None => ret tt
  | Some head =>
      if bool_decide (head = thread) then
        thr <- Thread_at thread;;
        upd_monitor m (set_wait_set (wait_next_ thr));;;
        upd_thread thread (set_wait_next None)
      else RemoveFromWaitSet_loop fuel head thread
  end.

(** ** Monitor: lock and unlock *)

(** [Monitor::Lock], up to its return or to [monitor_contenders_.Wait]. *)
Fixpoint Monitor_Lock (fuel : nat) (self : ThreadPtr) (m : MonitorPtr) : Call unit :=
  match fuel with
  | O => out_of_fuel
  | S fuel' =>
      mon <- Monitor_at m;;
      match owner_ mon with
      | None =>  (* Unowned. *)
          upd_monitor m (set_owner (Some self));;;
          CHECK (bool_decide (lock_count_ mon = 0));;;
          threshold <- reads lock_profiling_threshold_;;
          if bool_decide (threshold <> 0) then
            mp <- GetCurrentMethod self;;
            upd_monitor m (set_locking (fst mp) (snd mp))
          else ret tt
      | Some owner =>
          if bool_decide (owner = self) then  (* Recursive. *)
            upd_monitor m (set_lock_count (lock_count_ mon + 1))
          else
            (* Contended. *)
            threshold <- reads lock_profiling_threshold_;;
            now <- reads milli_time;;
            let log_contention := bool_decide (threshold <> 0) in
            let wait_start_ms := if log_contention then 0 else now in
            let owners_method := locking_method_ mon in
            let owners_dex_pc := locking_dex_pc_ mon in
            th <- Thread_at self;;
            ScopedThreadStateChange self kBlocked
              (mon2 <- Monitor_at m;;
               match owner_ mon2 with
               | Some _ =>  (* Still contended so wait. *)
                   emit (ContendersWait m self);;;
                   park (LockFrame m wait_start_ms owners_method owners_dex_pc (state_ th))
               | None => ret tt
               end);;;
            Monitor_Lock fuel' self m
      end
  end.

(** The condition under which the contention just waited for is logged, from
    the block after [monitor_contenders_.Wait]: [now] is what [MilliTime()]
    returns there and [rnd] what [rand()] returns. *)
Definition contention_wait_ms (now wait_start_ms : Z) : Z :=
  (now - wait_start_ms) mod 2^64.

Definition contention_sample_percent (wait_ms threshold : Z) : Z :=
  if wait_ms >=? threshold then 100
  else (((100 * wait_ms) mod 2^64) / threshold) mod 2^32.

Definition contention_sampled (sample_percent rnd : Z) : bool :=
  negb (sample_percent =? 0) && ((Z.rem rnd 100) mod 2^32 <? sample_percent).

(** [Monitor::Lock] from the point where the thread parked in it is woken. *)
Definition Monitor_Lock_woken (fuel : nat) (self : ThreadPtr) (f : Frame)
    (rnd : Z) : Call unit :=
  match f with
  | LockFrame m wait_start_ms owners_method owners_dex_pc old_state =>
      threshold <- reads lock_profiling_threshold_;;
      now <- reads milli_time;;
      (if bool_decide (threshold <> 0) then
         let wait_ms := contention_wait_ms now wait_start_ms in
         let sample_percent := contention_sample_percent wait_ms threshold in
         if contention_sampled sample_percent rnd then
           emit (LogContentionEvent self wait_ms sample_percent owners_method owners_dex_pc)
         else ret tt
       else ret tt);;;
      upd_thread self (set_state old_state);;;
      Monitor_Lock fuel self m
  | _ => fatal
  end.

Definition FailedUnlock (self : ThreadPtr) (o : ObjPtr) (expected_owner : ThreadPtr)
    (found_owner : option ThreadPtr) (monitor : option MonitorPtr) : Call unit :=
  (* Re-read owner now that we hold lock. *)
  current_owner <- match monitor with
                   | Some m => mon <- Monitor_at m;; ret (owner_ mon)
                   | None => ret None
                   end;;
  match current_owner, found_owner with
  | None, None => ThrowIllegalMonitorStateExceptionF self UnlockOfUnowned
  | None, Some found => ThrowIllegalMonitorStateExceptionF self (UnlockNowUnowned found)
  | Some current, None =>
      ThrowIllegalMonitorStateExceptionF self (UnlockBelievedUnowned current)
  | Some current, Some found =>
      if bool_decide (found <> current) then
        ThrowIllegalMonitorStateExceptionF self (UnlockOwnerChanged found current)
      else ThrowIllegalMonitorStateExceptionF self (UnlockOwnedBy current)
  end.

Definition Monitor_Unlock (self : ThreadPtr) (m : MonitorPtr) : Call bool :=
  mon <- Monitor_at m;;
  let owner := owner_ mon in
  if bool_decide (owner = Some self) then
    (* We own the monitor, so nobody else can be in here. *)
    (if bool_decide (lock_count_ mon = 0) then
       upd_monitor m (fun mo => set_locking None 0 (set_owner None mo));;;
       (* Wake a contender. *)
       emit (ContendersSignal m)
     else upd_monitor m (set_lock_count (lock_count_ mon - 1)));;;
    ret true
  else
    (* We don't own this, so we're not allowed to unlock it. *)
    FailedUnlock self (obj_ mon) self owner (Some m);;;
    ret false.

(** ** Monitor: wait, notify, notifyAll *)

(** [Monitor::Wait] from [TransitionFromSuspendedToRunnable] to its end. *)
Definition Monitor_Wait_finish (fuel : nat) (self : ThreadPtr) (m : MonitorPtr)
    (prev_lock_count : Z) (saved_method : option MethodPtr) (saved_dex_pc : Z)
    (interruptShouldThrow was_interrupted : bool) : Call unit :=
  (* Set self->status back to kRunnable. *)
  upd_thread self (set_state kRunnable);;;
  upd_thread self (set_wait_monitor None);;;
  (* Re-acquire the monitor and lock. *)
  Monitor_Lock fuel self m;;;
  upd_monitor m (fun mo =>
    set_locking saved_method saved_dex_pc
      (set_lock_count prev_lock_count (set_owner (Some self) mo)));;;
  RemoveFromWaitSet fuel m self;;;
  if was_interrupted then
    upd_thread self (set_interrupted false);;;
    if interruptShouldThrow then Throw self InterruptedException else ret tt
  else ret tt.

(** [Monitor::Wait(self, ms, ns, interruptShouldThrow, why)], up to its
    return or to the wait on [self->wait_cond_]. *)
Definition Monitor_Wait (fuel : nat) (self : ThreadPtr) (m : MonitorPtr)
    (ms ns : Z) (interruptShouldThrow : bool) (why : ThreadState) : Call unit :=
  mon <- Monitor_at m;;
  (* Make sure that we hold the lock. *)
  if bool_decide (owner_ mon <> Some self) then
    ThrowIllegalMonitorStateExceptionF self NotLockedBeforeWait
  else
    (* We need to turn a zero-length timed wait into a regular wait. *)
    let why := if bool_decide (why = kTimedWaiting) && ((ms =? 0) && (ns =? 0))
               then kWaiting else why in
    (* Enforce the timeout range. *)
    if (ms <? 0) || (ns <? 0) || (ns >? 999999) then
      Throw self (IllegalArgumentException ms ns)
    else
      AppendToWaitSet fuel m self;;;
      mon <- Monitor_at m;;
      let prev_lock_count := lock_count_ mon in
      let saved_method := locking_method_ mon in
      let saved_dex_pc := locking_dex_pc_ mon in
      upd_monitor m (fun mo => set_locking None 0 (set_owner None (set_lock_count 0 mo)));;;
      (* TransitionFromRunnableToSuspended(why) *)
      upd_thread self (set_state why);;;
      upd_thread self (set_wait_monitor (Some m));;;
      (* Release the monitor lock. *)
      emit (ContendersSignal m);;;
      th <- Thread_at self;;
      if interrupted_ th then
        (* The thread was interrupted before we called wait(). *)
        Monitor_Wait_finish fuel self m prev_lock_count saved_method saved_dex_pc
                            interruptShouldThrow true
      else
        (* Wait for a notification or a timeout to occur. *)
        (if bool_decide (why = kWaiting) then emit (WaitCondWait self)
         else emit (WaitCondTimedWait self ms ns));;;
        park (WaitFrame m prev_lock_count saved_method saved_dex_pc interruptShouldThrow).

(** [Monitor::Wait] from the point where the thread parked on its
    [wait_cond_] is woken. *)
Definition Monitor_Wait_woken (fuel : nat) (self : ThreadPtr) (f : Frame) : Call unit :=
  match f with
  | WaitFrame m prev_lock_count saved_method saved_dex_pc interruptShouldThrow =>
      th <- Thread_at self;;
      let was_interrupted := interrupted_ th in
      upd_thread self (set_interrupted false);;;
      Monitor_Wait_finish fuel self m prev_lock_count saved_method saved_dex_pc
                          interruptShouldThrow was_interrupted
  | _ => fatal
  end.

(** The [while (wait_set_ != NULL)] of [Monitor::Notify]. *)
Fixpoint Monitor_Notify_loop (fuel : nat) (self : ThreadPtr) (m : MonitorPtr) : Call unit :=
  match fuel with
  | O => out_of_fuel
  | S fuel' =>
      mon <- Monitor_at m;;
      match wait_set_ mon with
      | None => ret tt
      | Some thread =>
          th <- Thread_at thread;;
          upd_monitor m (set_wait_set (wait_next_ th));;;
          upd_thread thread (set_wait_next None);;;
          (* Check to see if the thread is still waiting. *)
          match wait_monitor_ th with
          | Some _ => emit (WaitCondSignal thread)
          | None => Monitor_Notify_loop fuel' self m
          end
      end
  end.

Definition Monitor_Notify (fuel : nat) (self : ThreadPtr) (m : MonitorPtr) : Call unit :=
  mon <- Monitor_at m;;
  (* Make sure that we hold the lock. *)
  if bool_decide (owner_ mon <> Some self) then
    ThrowIllegalMonitorStateExceptionF self NotLockedBeforeNotify
  else Monitor_Notify_loop fuel self m.

(** The [while (wait_set_ != NULL)] of [Monitor::NotifyAll]. *)
Fixpoint Monitor_NotifyAll_loop (fuel : nat) (self : ThreadPtr) (m : MonitorPtr) : Call unit :=
  match fuel with
  | O => out_of_fuel
  | S fuel' =>
      mon <- Monitor_at m;;
      match wait_set_ mon with
      | None => ret tt
      | Some thread =>
          th <- Thread_at thread;;
          upd_monitor m (set_wait_set (wait_next_ th));;;
          upd_thread thread (set_wait_next None);;;
          Thread_Notify thread;;;
          Monitor_NotifyAll_loop fuel' self m
      end
  end.

Definition Monitor_NotifyAll (fuel : nat) (self : ThreadPtr) (m : MonitorPtr) : Call unit :=
  mon <- Monitor_at m;;
  (* Make sure that we hold the lock. *)
  if bool_decide (owner_ mon <> Some self) then
    ThrowIllegalMonitorStateExceptionF self NotLockedBeforeNotifyAll
  else Monitor_NotifyAll_loop fuel self m.

(** ** The entry points on objects *)

Section Entry.

(** [LockWord::kThinLockMaxCount], the largest recursion count a thin lock
    word holds: a constant of lock_word.h, which is not part of the sources
    at hand. *)
Variable kThinLockMaxCount : Z.

(** The [while (true)] of [MonitorEnter]; the recursion count is a
    [uint32_t]. *)
Fixpoint MonitorEnter_loop (fuel : nat) (self : ThreadPtr) (obj : ObjPtr)
    (thread_id : Z) (contention_count : Z) : Call unit :=
  match fuel with
  | O => out_of_fuel
  | S fuel' =>
      lock_word <- GetLockWord obj;;
      match GetState lock_word with
      | kUnlocked =>
          let thin_locked := FromThinLockId thread_id 0 in
          ok <- CasLockWord obj lock_word thin_locked;;
          if ok then ret tt  (* Success! *)
          else MonitorEnter_loop fuel' self obj thread_id contention_count
      | kThinLocked =>
          let owner_thread_id := ThinLockOwner lock_word in
          if owner_thread_id =? thread_id then
            (* We own the lock, increase the recursion count. *)
            let new_count := (ThinLockCount lock_word + 1) mod 2^32 in
            if new_count <=? kThinLockMaxCount then
              SetLockWord obj (FromThinLockId thread_id new_count)
            else
              (* We'd overflow the recursion count, so inflate the monitor. *)
              Inflate self self obj;;;
              MonitorEnter_loop fuel' self obj thread_id contention_count
          else
            (* Contention. *)
            let contention_count := contention_count + 1 in
            max_spins <- reads max_spins_before_thin_lock_inflation;;
            if contention_count <=? max_spins then
              emit (NanoSleep 1000);;;
              MonitorEnter_loop fuel' self obj thread_id contention_count
            else
              (* Suspend the owner, inflate. *)
              ScopedThreadStateChange self kBlocked
                (cur <- GetLockWord obj;;
                 if bool_decide (lock_word = cur) then
                   owner <- SuspendThreadByThreadId (ThinLockOwner lock_word);;
                   match owner with
                   | Some owner =>
                       lock_word <- GetLockWord obj;;
                       (if bool_decide (GetState lock_word = kThinLocked)
                           && (ThinLockOwner lock_word =? owner_thread_id)
                        then Inflate self owner obj
                        else ret tt);;;
                       Resume owner
                   | None => ret tt
                   end
                 else ret tt);;;
              MonitorEnter_loop fuel' self obj thread_id 0
      | kFatLocked =>
          mon <- deref (FatLockMonitor lock_word);;
          Monitor_Lock fuel self mon
      end
  end.

Definition MonitorEnter (fuel : nat) (self : ThreadPtr) (obj : ObjPtr) : Call unit :=
  thread_id <- GetThreadId self;;
  MonitorEnter_loop fuel self obj thread_id 0.

End Entry.

(** [Monitor::MonitorExit].  The decrement is guarded by the test that the
    count is not zero, so it cannot wrap. *)
Definition MonitorExit (self : ThreadPtr) (obj : ObjPtr) : Call bool :=
  lock_word <- GetLockWord obj;;
  match GetState lock_word with
  | kUnlocked =>
      FailedUnlock self obj self None None;;;
      ret false
  | kThinLocked =>
      thread_id <- GetThreadId self;;
      let owner_thread_id := ThinLockOwner lock_word in
      if negb (owner_thread_id =? thread_id) then
        owner <- FindThreadByThreadId (ThinLockOwner lock_word);;
        FailedUnlock self obj self owner None;;;
        ret false
      else
        (* We own the lock, decrease the recursion count. *)
        (if negb (ThinLockCount lock_word =? 0) then
           let new_count := ThinLockCount lock_word - 1 in
           SetLockWord obj (FromThinLockId thread_id new_count)
         else SetLockWord obj LockWord_default);;;
        ret true
  | kFatLocked =>
      mon <- deref (FatLockMonitor lock_word);;
      Monitor_Unlock self mon
  end.

(** [Monitor::Wait(self, obj, ms, ns, interruptShouldThrow, why)] *)
Definition Wait (fuel : nat) (self : ThreadPtr) (obj : ObjPtr) (ms ns : Z)
    (interruptShouldThrow : bool) (why : ThreadState) : Call unit :=
  lock_word <- GetLockWord obj;;
  match GetState lock_word with
  | kUnlocked => ThrowIllegalMonitorStateExceptionF self NotLockedBeforeWait
  | kThinLocked =>
      thread_id <- GetThreadId self;;
      let owner_thread_id := ThinLockOwner lock_word in
      if negb (owner_thread_id =? thread_id) then
        ThrowIllegalMonitorStateExceptionF self NotLockedBeforeWait
      else
        (* We own the lock, inflate to enqueue ourself on the Monitor. *)
        Inflate self self obj;;;
        lock_word <- GetLockWord obj;;
        mon <- deref (FatLockMonitor lock_word);;
        Monitor_Wait fuel self mon ms ns interruptShouldThrow why
  | kFatLocked =>
      mon <- deref (FatLockMonitor lock_word);;
      Monitor_Wait fuel self mon ms ns interruptShouldThrow why
  end.

Definition InflateAndNotify (fuel : nat) (self : ThreadPtr) (obj : ObjPtr)
    (notify_all : bool) : Call unit :=
  lock_word <- GetLockWord obj;;
  match GetState lock_word with
  | kUnlocked => ThrowIllegalMonitorStateExceptionF self NotLockedBeforeNotify
  | kThinLocked =>
      thread_id <- GetThreadId self;;
      let owner_thread_id := ThinLockOwner lock_word in
      if negb (owner_thread_id =? thread_id) then
        ThrowIllegalMonitorStateExceptionF self NotLockedBeforeNotify
      else
        (* We own the lock but there's no Monitor and therefore no waiters. *)
        ret tt
  | kFatLocked =>
      mon <- deref (FatLockMonitor lock_word);;
      if notify_all then Monitor_NotifyAll fuel self mon
      else Monitor_Notify fuel self mon
  end.

(** ** Diagnostics *)

(** [Monitor::GetOwnerThreadId()] *)
Definition Monitor_GetOwnerThreadId (m : MonitorPtr) : Call Z :=
  mon <- Monitor_at m;;
  match owner_ mon with
  | Some owner => GetThreadId owner
  | None => ret kInvalidThreadId
  end.

(** [Monitor::GetLockOwnerThreadId(obj)] *)
Definition GetLockOwnerThreadId (obj : ObjPtr) : Call Z :=
  lock_word <- GetLockWord obj;;
  match GetState lock_word with
  | kUnlocked => ret kInvalidThreadId
  | kThinLocked => ret (ThinLockOwner lock_word)
  | kFatLocked =>
      mon <- deref (FatLockMonitor lock_word);;
      Monitor_GetOwnerThreadId mon
  end.

Module MonitorInfo.
Record t := mk {
  owner_ : option ThreadPtr;
  entry_count_ : Z;
  waiters_ : list ThreadPtr
}.
End MonitorInfo.

(** The [for (waiter = mon->wait_set_; waiter != NULL; ...)] of
    [MonitorInfo::MonitorInfo]. *)
Fixpoint MonitorInfo_waiters (fuel : nat) (waiter : option ThreadPtr)
    : Call (list ThreadPtr) :=
  match waiter with
  | None => ret []
  | Some w =>
      match fuel with
      | O => out_of_fuel
      | S fuel' =>
          th <- Thread_at w;;
          rest <- MonitorInfo_waiters fuel' (wait_next_ th);;
          ret (w :: rest)
      end
  end.

(** [MonitorInfo::MonitorInfo(obj)]; the thin count is a [uint32_t]. *)
Definition MonitorInfo_new (fuel : nat) (obj : ObjPtr) : Call MonitorInfo.t :=
  lock_word <- GetLockWord obj;;
  match GetState lock_word with
  | kUnlocked => ret (MonitorInfo.mk None 0 [])
  | kThinLocked =>
      owner <- FindThreadByThreadId (ThinLockOwner lock_word);;
      (* Thin locks have no waiters. *)
      ret (MonitorInfo.mk owner ((1 + ThinLockCount lock_word) mod 2^32) [])
  | kFatLocked =>
      m <- deref (FatLockMonitor lock_word);;
      mon <- Monitor_at m;;
      waiters <- MonitorInfo_waiters fuel (wait_set_ mon);;
      ret (MonitorInfo.mk (owner_ mon) (1 + lock_count_ mon) waiters)
  end.

(** ** Vocabulary of the statements *)

(** The state after [self] got the pending exception [e]. *)
Definition with_exception (rt : Runtime) (self : ThreadPtr) (th : Thread)
    (e : Throwable) : Runtime :=
  set_threads (<[self := set_exception (Some e) th]> (threads rt)) rt.

(** The state after the lock word of [obj] became [lw]. *)
Definition with_lock_word (rt : Runtime) (obj : ObjPtr) (lw : LockWord) : Runtime :=
  set_lock_words (<[obj := lw]> (lock_words rt)) rt.

(** The state in which [MilliTime()] returns [now]. *)
Definition at_milli_time (now : Z) (rt : Runtime) : Runtime :=
  mkRuntime (threads rt) (monitors rt) (lock_words rt) (thread_list rt) (monitor_list rt)
            (allow_new_monitors_ rt) (lock_profiling_threshold_ rt)
            (max_spins_before_thin_lock_inflation rt) now (trace rt).

(** [self] holds the lock of [obj]: as the thin owner, or as the owner of
    the monitor the lock word points at. *)
Definition owns_lock (rt : Runtime) (self : ThreadPtr) (obj : ObjPtr) : bool :=
  match lock_words rt !! obj with
  | Some (ThinLocked o _) =>
      match threads rt !! self with
      | Some th => o =? thread_id_ th
      | None => false
      end
  | Some (FatLocked m) =>
      match monitors rt !! m with
      | Some mon => bool_decide (owner_ mon = Some self)
      | None => false
      end
  | _ => false
  end.

(** The chain that starts at [head] and follows [wait_next_] visits exactly
    the threads of [l], in this order, and ends in NULL. *)
Fixpoint is_wait_set (ts : gmap positive Thread) (head : option ThreadPtr)
    (l : list ThreadPtr) : bool :=
  match l with
  | [] => bool_decide (head = None)
  | t :: l' =>
      bool_decide (head = Some t) &&
      match ts !! t with
      | Some th => is_wait_set ts (wait_next_ th) l'
      | None => false
      end
  end.

(** Every thread of the wait set [l] of monitor [m] is parked in [m]
    ([wait_monitor_] points at [m]) or has left the wait already
    ([wait_monitor_] is NULL again): [Monitor::Wait] sets the field after it
    appended the thread and clears it before it removes the thread. *)
Definition waiters_of (ts : gmap positive Thread) (m : MonitorPtr)
    (l : list ThreadPtr) : bool :=
  forallb (fun t => match ts !! t with
                    | Some th => bool_decide (wait_monitor_ th = None)
                                 || bool_decide (wait_monitor_ th = Some m)
                    | None => false
                    end) l.

(** The candidate [t] is still waiting in [m]. *)
Definition still_waiting (ts : gmap positive Thread) (m : MonitorPtr)
    (t : ThreadPtr) : bool :=
  match ts !! t with
  | Some th => bool_decide (wait_monitor_ th = Some m)
  | None => false
  end.

(** What notify does to the wait set [l], in the words of the
    specification: the candidates are taken from the head; one that no
    longer waits in [m] is removed and skipped, the first that still does is
    removed and signalled, and the rest stays. *)
Record NotifyResult := mkNotifyResult {
  removed : list ThreadPtr;
  signalled : option ThreadPtr;
  remaining : list ThreadPtr
}.

Fixpoint notify_spec (ts : gmap positive Thread) (m : MonitorPtr)
    (l : list ThreadPtr) : NotifyResult :=
  match l with
  | [] => mkNotifyResult [] None []
  | t :: l' =>
      if still_waiting ts m t then mkNotifyResult [t] (Some t) l'
      else let r := notify_spec ts m l' in
           mkNotifyResult (t :: removed r) (signalled r) (remaining r)
  end.

(** The threads of [ts] with the [wait_next_] link of each removed thread
    cleared. *)
Definition unlinked (rem : list ThreadPtr) (ts : gmap positive Thread)
    : gmap positive Thread :=
  foldl (fun acc t => alter (set_wait_next None) t acc) ts rem.

(** The state notify leaves, by the specification. *)
Definition notified (rt : Runtime) (m : MonitorPtr) (mon : Monitor)
    (l : list ThreadPtr) : Runtime :=
  let r := notify_spec (threads rt) m l in
  mkRuntime (unlinked (removed r) (threads rt))
            (<[m := set_wait_set (head (remaining r)) mon]> (monitors rt))
            (lock_words rt) (thread_list rt) (monitor_list rt)
            (allow_new_monitors_ rt) (lock_profiling_threshold_ rt)
            (max_spins_before_thin_lock_inflation rt) (milli_time rt)
            (trace rt ++ match signalled r with
                         | Some t => [WaitCondSignal t]
                         | None => []
                         end).

(** [enter], [k] times in a row. *)
Fixpoint MonitorEnter_times (kThinLockMaxCount : Z) (k fuel : nat)
    (self : ThreadPtr) (obj : ObjPtr) : Call unit :=
  match k with
  | O => ret tt
  | S k' =>
      MonitorEnter kThinLockMaxCount fuel self obj;;;
      MonitorEnter_times kThinLockMaxCount k' fuel self obj
  end.

(** ** Small states to run the calls on *)

Definition a_thread (id : Z) : Thread :=
  mkThread id kRunnable false None None false None None 0.

(** Threads 1 and 2 with the ids 7 and 9, one object 1 with lock word [lw],
    and the monitors [mons]. *)
Definition a_runtime (lw : LockWord) (mons : gmap positive Monitor) : Runtime :=
  mkRuntime {[ 1%positive := a_thread 7; 2%positive := a_thread 9 ]}
            mons {[ 1%positive := lw ]} [1%positive; 2%positive] []
            true 0 50 0 [].

(** A monitor of object 1 at address 5. *)
Definition a_monitor (owner : option ThreadPtr) (count : Z)
    (head : option ThreadPtr) : gmap positive Monitor :=
  {[ 5%positive := mkMonitor owner count 1%positive head None 0 ]}.

(** Object 1 with a released monitor, object 2 unlocked. *)
Definition two_objects : Runtime :=
  set_lock_words
    (<[2%positive := Unlocked]> (lock_words (a_runtime (FatLocked 5) (a_monitor None 0 None))))
    (a_runtime (FatLocked 5) (a_monitor None 0 None)).

(** Thread 1 owns the monitor of object 1; the wait set is 2, 3, 4, where
    thread 2 has left its wait and threads 3 and 4 are parked. *)
Definition waiting_runtime : Runtime :=
  mkRuntime {[ 1%positive := a_thread 7;
               2%positive := mkThread 9 kRunnable false (Some 3%positive) None
                                      false None None 0;
               3%positive := mkThread 11 kWaiting false (Some 4%positive) (Some 5%positive)
                                      false None None 0;
               4%positive := mkThread 13 kWaiting false None (Some 5%positive)
                                      false None None 0 ]}
            (a_monitor (Some 1%positive) 0 (Some 2%positive))
            {[ 1%positive := FatLocked 5 ]}
            [1%positive; 2%positive; 3%positive; 4%positive] [5%positive]
            true 0 50 0 [].

(** Thread 2 owns the monitor of object 1, lock profiling is on with a
    threshold of 1000 ms, and the time is 5000 ms. *)
Definition contended_runtime : Runtime :=
  mkRuntime {[ 1%positive := a_thread 7; 2%positive := a_thread 9 ]}
            (a_monitor (Some 2%positive) 0 None)
            {[ 1%positive := FatLocked 5 ]}
            [1%positive; 2%positive] [5%positive]
            true 1000 50 5000 [].

(** The state a call leaves, when it returns or parks. *)
Definition result_state {A} (o : Outcome A) : option Runtime :=
  match o with
  | Done _ rt | Parked _ rt => Some rt
  | Fatal | OutOfFuel => None
  end.

(** The state [AppendToWaitSet] leaves: the new thread is the head of an
    empty wait set, or the successor of the last thread of the chain. *)
Definition appended (rt : Runtime) (m : MonitorPtr) (mon : Monitor)
    (l : list ThreadPtr) (thread : ThreadPtr) : Runtime :=
  match l with
  | [] => set_monitors (<[m := set_wait_set (Some thread) mon]> (monitors rt)) rt
  | t0 :: l' =>
      set_threads (alter (set_wait_next (Some thread)) (List.last l' t0) (threads rt)) rt
  end.

(** The frame of a call that parks. *)
Definition parked_frame {A} (o : Outcome A) : option Frame :=
  match o with
  | Parked f _ => Some f
  | _ => None
  end.

(** The value a call returns. *)
Definition result_value {A} (o : Outcome A) : option A :=
  match o with
  | Done a _ => Some a
  | _ => None
  end.

(** ** The monitor list and the validity of lock words *)

Definition set_allow_new_monitors (v : bool) (rt : Runtime) : Runtime :=
  mkRuntime (threads rt) (monitors rt) (lock_words rt) (thread_list rt) (monitor_list rt)
            v (lock_profiling_threshold_ rt)
            (max_spins_before_thin_lock_inflation rt) (milli_time rt) (trace rt).

Definition set_obj (v : ObjPtr) (m : Monitor) : Monitor :=
  mkMonitor (owner_ m) (lock_count_ m) v (wait_set_ m) (locking_method_ m) (locking_dex_pc_ m).

(** [MonitorList::DisallowNewMonitors] *)
Definition DisallowNewMonitors : Call unit :=
  modify (set_allow_new_monitors false).

(** [MonitorList::AllowNewMonitors].  The broadcast on
    [monitor_add_condition_] wakes the threads parked in [MonitorList::Add];
    a woken thread tests the flag again, which is to run [MonitorList_Add]
    again. *)
Definition AllowNewMonitors : Call unit :=
  modify (set_allow_new_monitors true).

(** [Monitor::SetObject] *)
Definition Monitor_SetObject (m : MonitorPtr) (object : ObjPtr) : Call unit :=
  upd_monitor m (set_obj object).

(** The loop of [MonitorList::SweepMonitorList] over [list_]: it returns the
    monitors that stay in the list.  [visitor] is the root visitor with its
    argument; it returns NULL for an object that is not marked, and the
    (maybe moved) object otherwise. *)
Fixpoint SweepMonitorList_loop (visitor : ObjPtr -> option ObjPtr)
    (l : list MonitorPtr) : Call (list MonitorPtr) :=
  match l with
  | [] => ret []
  | m :: rest =>
      mon <- Monitor_at m;;
      match visitor (obj_ mon) with
      | None =>
          (* freeing monitor m belonging to unmarked object *)
          Monitor_delete m;;;
          SweepMonitorList_loop visitor rest
      | Some new_obj =>
          Monitor_SetObject m new_obj;;;
          kept <- SweepMonitorList_loop visitor rest;;
          ret (m :: kept)
      end
  end.

Definition SweepMonitorList (visitor : ObjPtr -> option ObjPtr) : Call unit :=
  l <- reads monitor_list;;
  kept <- SweepMonitorList_loop visitor l;;
  modify (set_monitor_list kept).

(** [Monitor::IsValidLockWord] *)
Definition IsValidLockWord (lock_word : LockWord) : Call bool :=
  match GetState lock_word with
  | kUnlocked => ret true  (* Nothing to check. *)
  | kThinLocked =>
      (* Basic sanity check of owner. *)
      ret (negb (ThinLockOwner lock_word =? kInvalidThreadId))
  | kFatLocked =>
      (* Check the monitor appears in the monitor list. *)
      mon <- deref (FatLockMonitor lock_word);;
      list <- reads monitor_list;;
      ret (existsb (Pos.eqb mon) list)
  end.

(** ** More vocabulary *)

(** A call leaves every lock word as it is, whether it returns or parks. *)
Definition keeps_lock_words {A} (c : Call A) : Prop :=
  forall rt,
    match c rt with
    | Done _ rt' | Parked _ rt' => lock_words rt' = lock_words rt
    | Fatal | OutOfFuel => True
    end.

(** [exit], [k] times in a row; the result tells whether all succeeded. *)
Fixpoint MonitorExit_times (k : nat) (self : ThreadPtr) (obj : ObjPtr) : Call bool :=
  match k with
  | O => ret true
  | S k' =>
      ok <- MonitorExit self obj;;
      rest <- MonitorExit_times k' self obj;;
      ret (ok && rest)
  end.

(** The state after the monitor at [m] became [mon]. *)
Definition with_monitor (rt : Runtime) (m : MonitorPtr) (mon : Monitor) : Runtime :=
  set_monitors (<[m := mon]> (monitors rt)) rt.

(** The state after the lock of [obj] was inflated into a new monitor at
    [m], entered and left again by its last owner: the monitor is registered
    and free, and one contender was signalled. *)
Definition inflated_and_released (rt : Runtime) (obj : ObjPtr) (m : MonitorPtr) : Runtime :=
  mkRuntime (threads rt)
            (<[m := mkMonitor None 0 obj None None 0]> (monitors rt))
            (<[obj := FatLocked m]> (lock_words rt))
            (thread_list rt) (m :: monitor_list rt)
            (allow_new_monitors_ rt) (lock_profiling_threshold_ rt)
            (max_spins_before_thin_lock_inflation rt) (milli_time rt)
            (trace rt ++ [ContendersSignal m]).

(** The state [Monitor::NotifyAll] leaves on the wait set [l] of the monitor
    [mon] at [m]: every waiter is unlinked and signalled, in the order of
    the wait set, and the wait set is empty. *)
Definition notified_all (rt : Runtime) (m : MonitorPtr) (mon : Monitor)
    (l : list ThreadPtr) : Runtime :=
  mkRuntime (unlinked l (threads rt))
            (<[m := set_wait_set None mon]> (monitors rt))
            (lock_words rt) (thread_list rt) (monitor_list rt)
            (allow_new_monitors_ rt) (lock_profiling_threshold_ rt)
            (max_spins_before_thin_lock_inflation rt) (milli_time rt)
            (trace rt ++ map WaitCondSignal l).

(** A wait that parks, then a second thread that takes the monitor, notifies
    and leaves it, then the waiter woken: the calls of one wait and notify
    cycle, in this order. *)
Definition wait_notify_cycle (fuel : nat) (waiter notifier : ThreadPtr) (m : MonitorPtr)
    (ms ns : Z) (interruptShouldThrow : bool) (why : ThreadState) : Call unit :=
  fun rt =>
    match Monitor_Wait fuel waiter m ms ns interruptShouldThrow why rt with
    | Parked f rt1 =>
        (Monitor_Lock fuel notifier m;;;
         Monitor_Notify fuel notifier m;;;
         Monitor_Unlock notifier m;;;
         Monitor_Wait_woken fuel waiter f) rt1
    | other => other
    end.

(** The state after the thin lock of [obj] was inflated into the monitor
    [mon] at the new address [m]. *)
Definition inflated (rt : Runtime) (obj : ObjPtr) (m : MonitorPtr) (mon : Monitor)
    : Runtime :=
  mkRuntime (threads rt)
            (<[m := mon]> (monitors rt))
            (<[obj := FatLocked m]> (lock_words rt))
            (thread_list rt) (m :: monitor_list rt)
            (allow_new_monitors_ rt) (lock_profiling_threshold_ rt)
            (max_spins_before_thin_lock_inflation rt) (milli_time rt) (trace rt).

(** What a sweep with [visitor] makes of one monitor of the list: the
    monitor of a marked object follows its object, the monitor of an
    unmarked object is freed. *)
Definition sweep_monitor (visitor : ObjPtr -> option ObjPtr) (mon : Monitor)
    : option Monitor :=
  match visitor (obj_ mon) with
  | Some new_obj => Some (set_obj new_obj mon)
  | None => None
  end.

(** The object of the monitor at [m] is marked. *)
Definition survives (visitor : ObjPtr -> option ObjPtr)
    (mons : gmap positive Monitor) (m : MonitorPtr) : bool :=
  match mons !! m with
  | Some mon => bool_decide (is_Some (visitor (obj_ mon)))
  | None => false
  end.

(** Objects 1 and 2 with the free monitors 5 and 6, both registered. *)
Definition two_monitors : Runtime :=
  mkRuntime {[ 1%positive := a_thread 7 ]}
            {[ 5%positive := mkMonitor None 0 1%positive None None 0;
               6%positive := mkMonitor None 0 2%positive None None 0 ]}
            {[ 1%positive := FatLocked 5; 2%positive := FatLocked 6 ]}
            [1%positive] [6%positive; 5%positive]
            true 0 50 0 [].

(** A visitor for which object 1 is marked, and moved to 3, and no other
    object is marked. *)
Definition only_object_1 (obj : ObjPtr) : option ObjPtr :=
  if (obj =? 1)%positive then Some 3%positive else None.

(** A call leaves the id of every thread as it is, whether it returns or
    parks. *)
Definition keeps_thread_ids {A} (c : Call A) : Prop :=
  forall rt,
    match c rt with
    | Done _ rt' | Parked _ rt' =>
        forall t, thread_id_ <$> threads rt' !! t = thread_id_ <$> threads rt !! t
    | Fatal | OutOfFuel => True
    end.

(** * Proofs *)

(** ** Running a call by hand *)

Ltac unfold_call :=
  unfold FailedUnlock, ThrowIllegalMonitorStateExceptionF, Throw,
    ScopedThreadStateChange, FindThreadByThreadId, SuspendThreadByThreadId, Resume,
    Thread_Notify, MonitorList_Add,
    upd_thread, upd_monitor, Thread_at, Monitor_at,
    GetLockWord, SetLockWord, CasLockWord, GetThreadId, GetCurrentMethod,
    emit, modify, reads, get, put, CHECK, deref, bind, ret, fatal, park, out_of_fuel in *.

Ltac run := repeat (unfold_call; simpl).

(** ** Release *)

(** C1: [exit] on an unlocked object and on a thin lock of another thread
    returns false with IllegalMonitorStateException pending and nothing else
    changed; on the caller's thin lock with count n > 0 it stores the count
    n - 1, with count 0 it stores the unlocked word, and returns true. *)
Theorem MonitorExit_thin (rt : Runtime) (self : ThreadPtr) (obj : ObjPtr)
    (th : Thread) (lw : LockWord) :
  threads rt !! self = Some th ->
  lock_words rt !! obj = Some lw ->
  (lw = Unlocked ->
     MonitorExit self obj rt =
       Done false (with_exception rt self th (IllegalMonitorStateException UnlockOfUnowned)))
  /\ (forall o n, lw = ThinLocked o n -> o <> thread_id_ th ->
        exists why, MonitorExit self obj rt =
          Done false (with_exception rt self th (IllegalMonitorStateException why)))
  /\ (forall n, lw = ThinLocked (thread_id_ th) n -> n > 0 ->
        MonitorExit self obj rt =
          Done true (with_lock_word rt obj (ThinLocked (thread_id_ th) (n - 1))))
  /\ (lw = ThinLocked (thread_id_ th) 0 ->
        MonitorExit self obj rt = Done true (with_lock_word rt obj Unlocked)).
Proof.
  intros Hth Hlw. split; [|split; [|split]].
  - intros ->. unfold MonitorExit. run. rewrite Hlw. run. rewrite Hth. reflexivity.
  - intros o n -> Hne. unfold MonitorExit. run. rewrite Hlw. run. rewrite Hth. run.
    destruct (Z.eqb_spec o (thread_id_ th)) as [|_]; [contradiction|]. simpl.
    match goal with |- context [List.find ?f ?l] => destruct (List.find f l) end;
      rewrite Hth; simpl; eauto.
  - intros n -> Hn. unfold MonitorExit. run. rewrite Hlw. run. rewrite Hth. run.
    rewrite Z.eqb_refl. simpl.
    destruct (Z.eqb_spec n 0) as [|_]; [lia|]. simpl.
    rewrite Hlw. reflexivity.
  - intros ->. unfold MonitorExit. run. rewrite Hlw. run. rewrite Hth. run.
    rewrite Z.eqb_refl. simpl. rewrite Hlw. reflexivity.
Qed.

Lemma MonitorExit_thin_witness :
  MonitorExit 1 1 (a_runtime Unlocked ∅) =
    Done false (with_exception (a_runtime Unlocked ∅) 1 (a_thread 7)
                  (IllegalMonitorStateException UnlockOfUnowned))
  /\ (exists why, MonitorExit 1 1 (a_runtime (ThinLocked 9 4) ∅) =
        Done false (with_exception (a_runtime (ThinLocked 9 4) ∅) 1 (a_thread 7)
                      (IllegalMonitorStateException why)))
  /\ MonitorExit 1 1 (a_runtime (ThinLocked 7 4) ∅) =
       Done true (with_lock_word (a_runtime (ThinLocked 7 4) ∅) 1 (ThinLocked 7 3))
  /\ MonitorExit 1 1 (a_runtime (ThinLocked 7 0) ∅) =
       Done true (with_lock_word (a_runtime (ThinLocked 7 0) ∅) 1 Unlocked).
Proof.
  split; [|split; [|split]].
  - apply (MonitorExit_thin (a_runtime Unlocked ∅) 1 1 (a_thread 7) Unlocked);
      reflexivity.
  - apply (proj1 (proj2 (MonitorExit_thin (a_runtime (ThinLocked 9 4) ∅) 1 1
                           (a_thread 7) (ThinLocked 9 4) eq_refl eq_refl)) 9 4);
      [reflexivity | simpl; lia].
  - apply (proj1 (proj2 (proj2 (MonitorExit_thin (a_runtime (ThinLocked 7 4) ∅) 1 1
                           (a_thread 7) (ThinLocked 7 4) eq_refl eq_refl))) 4);
      [reflexivity | lia].
  - apply (proj2 (proj2 (proj2 (MonitorExit_thin (a_runtime (ThinLocked 7 0) ∅) 1 1
                           (a_thread 7) (ThinLocked 7 0) eq_refl eq_refl))));
      reflexivity.
Defined.

(** ** Notify on a thin lock, owner queries *)

(** C9: on a thin lock owned by the caller, notify and notifyAll return with
    the whole state as it was: no exception, no monitor allocated or
    installed, the lock word unchanged. *)
Theorem InflateAndNotify_thin_owner (rt : Runtime) (fuel : nat) (self : ThreadPtr)
    (obj : ObjPtr) (th : Thread) (n : Z) (notify_all : bool) :
  threads rt !! self = Some th ->
  lock_words rt !! obj = Some (ThinLocked (thread_id_ th) n) ->
  InflateAndNotify fuel self obj notify_all rt = Done tt rt.
Proof.
  intros Hth Hlw. unfold InflateAndNotify. run. rewrite Hlw. run. rewrite Hth. run.
  rewrite Z.eqb_refl. reflexivity.
Qed.

Lemma InflateAndNotify_thin_owner_witness :
  InflateAndNotify 0 1 1 false (a_runtime (ThinLocked 7 2) ∅)
    = Done tt (a_runtime (ThinLocked 7 2) ∅)
  /\ InflateAndNotify 0 1 1 true (a_runtime (ThinLocked 7 2) ∅)
    = Done tt (a_runtime (ThinLocked 7 2) ∅).
Proof.
  split.
  - apply (InflateAndNotify_thin_owner (a_runtime (ThinLocked 7 2) ∅) 0 1 1
             (a_thread 7) 2 false); reflexivity.
  - apply (InflateAndNotify_thin_owner (a_runtime (ThinLocked 7 2) ∅) 0 1 1
             (a_thread 7) 2 true); reflexivity.
Defined.

(** C10: for an object whose lock word points at a monitor without owner,
    the owner query returns the invalid thread id, as it does for an
    unlocked object. *)
Theorem GetLockOwnerThreadId_unowned (rt : Runtime) (obj obj' : ObjPtr)
    (m : MonitorPtr) (mon : Monitor) :
  lock_words rt !! obj = Some (FatLocked m) ->
  monitors rt !! m = Some mon ->
  owner_ mon = None ->
  lock_words rt !! obj' = Some Unlocked ->
  GetLockOwnerThreadId obj rt = Done kInvalidThreadId rt
  /\ GetLockOwnerThreadId obj' rt = GetLockOwnerThreadId obj rt.
Proof.
  intros Hlw Hm Ho Hlw'. unfold GetLockOwnerThreadId, Monitor_GetOwnerThreadId.
  run. rewrite Hlw, Hlw'. run. rewrite Hm. run. rewrite Ho. auto.
Qed.

Lemma GetLockOwnerThreadId_unowned_witness :
  GetLockOwnerThreadId 1 two_objects = Done kInvalidThreadId two_objects
  /\ GetLockOwnerThreadId 2 two_objects = GetLockOwnerThreadId 1 two_objects.
Proof.
  apply (GetLockOwnerThreadId_unowned two_objects 1 2 5
           (mkMonitor None 0 1%positive None None 0)); reflexivity.
Defined.

(** ** Calls by a thread that does not hold the lock *)

(** C4: when the caller does not hold the lock of the object, exit, wait,
    notify and notifyAll return with IllegalMonitorStateException pending
    for the caller; exit returns false; the lock word of every object and
    every field of every monitor are as before. *)
Theorem not_owner_rejected (rt : Runtime) (fuel : nat) (self : ThreadPtr)
    (obj : ObjPtr) (th : Thread) (lw : LockWord) (ms ns : Z)
    (interruptShouldThrow : bool) (reason : ThreadState) :
  threads rt !! self = Some th ->
  lock_words rt !! obj = Some lw ->
  (forall m, lw = FatLocked m -> is_Some (monitors rt !! m)) ->
  owns_lock rt self obj = false ->
  (exists why, MonitorExit self obj rt =
     Done false (with_exception rt self th (IllegalMonitorStateException why)))
  /\ (exists why, Wait fuel self obj ms ns interruptShouldThrow reason rt =
        Done tt (with_exception rt self th (IllegalMonitorStateException why)))
  /\ (exists why, InflateAndNotify fuel self obj false rt =
        Done tt (with_exception rt self th (IllegalMonitorStateException why)))
  /\ (exists why, InflateAndNotify fuel self obj true rt =
        Done tt (with_exception rt self th (IllegalMonitorStateException why)))
  /\ (forall e, lock_words (with_exception rt self th e) = lock_words rt
                /\ monitors (with_exception rt self th e) = monitors rt).
Proof.
  intros Hth Hlw Hfat Hown. unfold owns_lock in Hown. rewrite Hlw, ?Hth in Hown.
  destruct lw as [|o n|m].
  - (* Unlocked *)
    unfold MonitorExit, Wait, InflateAndNotify. run. rewrite Hlw. run. rewrite Hth.
    repeat (split; eauto).
  - (* ThinLocked by another thread *)
    unfold MonitorExit, Wait, InflateAndNotify. run. rewrite Hlw. run. rewrite Hth. run.
    rewrite Hown. simpl.
    split; [|rewrite Hth; simpl; repeat (split; eauto)].
    match goal with |- context [List.find ?f ?l] => destruct (List.find f l) end;
      rewrite Hth; simpl; eauto.
  - (* FatLocked, the monitor owned by another thread or by none *)
    destruct (Hfat m eq_refl) as [mon Hm]. rewrite Hm in Hown.
    apply bool_decide_eq_false in Hown.
    unfold MonitorExit, Wait, InflateAndNotify, Monitor_Unlock, Monitor_Wait,
      Monitor_Notify, Monitor_NotifyAll.
    run. rewrite Hlw. run. rewrite Hm. run.
    assert (Hne : bool_decide (owner_ mon <> Some self) = true)
      by (apply bool_decide_eq_true_2; exact Hown).
    assert (Heq : bool_decide (owner_ mon = Some self) = false)
      by (apply bool_decide_eq_false_2; exact Hown).
    rewrite !Heq, !Hne. simpl.
    rewrite Hm. simpl.
    split; [|rewrite Hth; simpl; repeat (split; eauto)].
    destruct (owner_ mon) as [cur|]; simpl.
    + destruct (bool_decide (cur <> cur)); rewrite Hth; simpl; eauto.
    + rewrite Hth. simpl. eauto.
Qed.

Lemma not_owner_rejected_witness :
  let rt := a_runtime (FatLocked 5) (a_monitor (Some 2%positive) 3 None) in
  (exists why, MonitorExit 1 1 rt =
     Done false (with_exception rt 1 (a_thread 7) (IllegalMonitorStateException why)))
  /\ (exists why, Wait 0 1 1 10 0 true kTimedWaiting rt =
        Done tt (with_exception rt 1 (a_thread 7) (IllegalMonitorStateException why)))
  /\ (exists why, InflateAndNotify 0 1 1 false rt =
        Done tt (with_exception rt 1 (a_thread 7) (IllegalMonitorStateException why)))
  /\ (exists why, InflateAndNotify 0 1 1 true rt =
        Done tt (with_exception rt 1 (a_thread 7) (IllegalMonitorStateException why)))
  /\ (forall e, lock_words (with_exception rt 1 (a_thread 7) e) = lock_words rt
                /\ monitors (with_exception rt 1 (a_thread 7) e) = monitors rt).
Proof.
  intros rt.
  apply (not_owner_rejected rt 0 1 1 (a_thread 7) (FatLocked 5) 10 0 true kTimedWaiting).
  - reflexivity.
  - reflexivity.
  - intros m Hm. injection Hm as <-. exists (mkMonitor (Some 2%positive) 3 1%positive None None 0).
    reflexivity.
  - reflexivity.
Defined.

(** ** The wait set as a chain *)

Lemma is_wait_set_cons ts h t l :
  is_wait_set ts h (t :: l) = true <->
  h = Some t /\ exists th, ts !! t = Some th /\ is_wait_set ts (wait_next_ th) l = true.
Proof.
  simpl. rewrite andb_true_iff, bool_decide_eq_true. split.
  - intros [-> H]. split; [reflexivity|].
    destruct (ts !! t) as [th|]; [eauto | discriminate].
  - intros [-> (th & -> & H)]. auto.
Qed.

Lemma is_wait_set_nil ts h : is_wait_set ts h [] = true <-> h = None.
Proof. simpl. apply bool_decide_eq_true. Qed.

Lemma is_wait_set_head ts h l : is_wait_set ts h l = true -> h = head l.
Proof.
  destruct l as [|t l].
  - apply is_wait_set_nil.
  - intros H. apply is_wait_set_cons in H. tauto.
Qed.

Lemma is_wait_set_unique ts h l1 l2 :
  is_wait_set ts h l1 = true -> is_wait_set ts h l2 = true -> l1 = l2.
Proof.
  revert h l2. induction l1 as [|t l1 IH]; intros h [|t2 l2] H1 H2; try reflexivity.
  - apply is_wait_set_nil in H1. apply is_wait_set_cons in H2 as [-> _]. discriminate.
  - apply is_wait_set_nil in H2. apply is_wait_set_cons in H1 as [-> _]. discriminate.
  - apply is_wait_set_cons in H1 as [-> (th1 & Ht1 & H1)].
    apply is_wait_set_cons in H2 as [[= <-] (th2 & Ht2 & H2)].
    rewrite Ht1 in Ht2. injection Ht2 as <-.
    f_equal. eapply IH; eassumption.
Qed.

Lemma is_wait_set_suffix ts h a b :
  is_wait_set ts h (a ++ b) = true -> is_wait_set ts (head b) b = true.
Proof.
  revert h. induction a as [|t a IH]; intros h H; simpl in H.
  - rewrite <- (is_wait_set_head _ _ _ H). exact H.
  - apply andb_true_iff in H as [_ H].
    destruct (ts !! t) as [th|]; [|discriminate]. eapply IH, H.
Qed.

Lemma is_wait_set_NoDup ts h l : is_wait_set ts h l = true -> NoDup l.
Proof.
  revert h. induction l as [|t l IH]; intros h H; [constructor|].
  pose proof H as Hall.
  apply is_wait_set_cons in H as [-> (th & Ht & H)].
  constructor; [|eapply IH, H].
  intros Hin. apply list_elem_of_split in Hin as (a & b & ->).
  pose proof (is_wait_set_suffix ts (Some t) (t :: a) (t :: b) Hall) as Hsuf.
  simpl head in Hsuf.
  pose proof (is_wait_set_unique _ _ _ _ Hall Hsuf) as Heq.
  apply (f_equal length) in Heq. simpl in Heq. rewrite length_app in Heq.
  simpl in Heq. lia.
Qed.

(** A change of threads outside the chain leaves the chain as it is. *)
Lemma is_wait_set_frame ts ts' h l :
  (forall t, t ∈ l -> ts' !! t = ts !! t) ->
  is_wait_set ts' h l = is_wait_set ts h l.
Proof.
  revert h. induction l as [|t l IH]; intros h Hsame; [reflexivity|].
  simpl. rewrite (Hsame t) by (left). f_equal.
  destruct (ts !! t) as [th|]; [|reflexivity].
  apply IH. intros t' Hin. apply Hsame. right. exact Hin.
Qed.

Lemma waiters_of_frame ts ts' m l :
  (forall t, t ∈ l -> ts' !! t = ts !! t) ->
  waiters_of ts' m l = waiters_of ts m l.
Proof.
  induction l as [|t l IH]; intros Hsame; [reflexivity|].
  unfold waiters_of in *. simpl. rewrite (Hsame t) by (left). f_equal.
  apply IH. intros t' Hin. apply Hsame. right. exact Hin.
Qed.

Lemma notify_spec_frame ts ts' m l :
  (forall t, t ∈ l -> ts' !! t = ts !! t) ->
  notify_spec ts' m l = notify_spec ts m l.
Proof.
  induction l as [|t l IH]; intros Hsame; [reflexivity|].
  simpl. unfold still_waiting. rewrite (Hsame t) by (left).
  rewrite IH; [reflexivity|]. intros t' Hin. apply Hsame. right. exact Hin.
Qed.

(** The candidates notify removes and those it leaves are the wait set, in
    its order. *)
Lemma notify_spec_partition ts m l :
  removed (notify_spec ts m l) ++ remaining (notify_spec ts m l) = l.
Proof.
  induction l as [|t l IH]; [reflexivity|].
  simpl. destruct (still_waiting ts m t); simpl; [reflexivity|].
  f_equal. exact IH.
Qed.

Lemma alter_as_insert (ts : gmap positive Thread) t th f :
  ts !! t = Some th -> alter f t ts = <[t := f th]> ts.
Proof.
  intros Ht. apply map_eq. intros k.
  destruct (decide (t = k)) as [<-|Hne].
  - rewrite lookup_alter_eq, lookup_insert_eq, Ht. reflexivity.
  - rewrite lookup_alter_ne, lookup_insert_ne by done. reflexivity.
Qed.

Lemma unlinked_lookup_other rem (ts : gmap positive Thread) t :
  t ∉ rem -> unlinked rem ts !! t = ts !! t.
Proof.
  revert ts. induction rem as [|r rem IH]; intros ts Hnotin; [reflexivity|].
  unfold unlinked in *. simpl. rewrite IH.
  - apply lookup_alter_ne. intros ->. apply Hnotin. left.
  - intros Hin. apply Hnotin. right. exact Hin.
Qed.

(** ** Notify *)

Lemma runtime_eta (rt : Runtime) :
  mkRuntime (threads rt) (monitors rt) (lock_words rt) (thread_list rt)
            (monitor_list rt) (allow_new_monitors_ rt) (lock_profiling_threshold_ rt)
            (max_spins_before_thin_lock_inflation rt) (milli_time rt) (trace rt) = rt.
Proof. destruct rt. reflexivity. Qed.

Lemma set_wait_set_same (mon : Monitor) : set_wait_set (wait_set_ mon) mon = mon.
Proof. destruct mon. reflexivity. Qed.

Lemma Monitor_Notify_loop_refines (self : ThreadPtr) (m : MonitorPtr) (l : list ThreadPtr) :
  forall (rt : Runtime) (mon : Monitor) (fuel : nat),
    monitors rt !! m = Some mon ->
    is_wait_set (threads rt) (wait_set_ mon) l = true ->
    waiters_of (threads rt) m l = true ->
    (length l < fuel)%nat ->
    Monitor_Notify_loop fuel self m rt = Done tt (notified rt m mon l).
Proof.
  induction l as [|t l IH]; intros rt mon fuel Hm Hchain Hinv Hfuel.
  - apply is_wait_set_nil in Hchain.
    destruct fuel as [|fuel]; [simpl in Hfuel; lia|].
    simpl. run. rewrite Hm. run. rewrite Hchain. f_equal.
    unfold notified. simpl. rewrite app_nil_r, <- Hchain, set_wait_set_same.
    rewrite insert_id by exact Hm. symmetry. apply runtime_eta.
  - pose proof (is_wait_set_NoDup _ _ _ Hchain) as Hnodup.
    apply NoDup_cons in Hnodup as [Hfresh _].
    apply is_wait_set_cons in Hchain as [Hhead (th & Ht & Hchain)].
    destruct fuel as [|fuel]; [simpl in Hfuel; lia|]. simpl in Hfuel.
    assert (Hsame : forall t', t' ∈ l ->
              <[t := set_wait_next None th]> (threads rt) !! t' = threads rt !! t').
    { intros t' Hin. apply lookup_insert_ne. intros ->. contradiction. }
    pose proof Hinv as Hinv0.
    unfold waiters_of in Hinv. simpl in Hinv. rewrite Ht in Hinv.
    apply andb_true_iff in Hinv as [Hwm Hinv].
    simpl. run. rewrite Hm. run. rewrite Hhead. rewrite Ht. run. rewrite Hm. run.
    rewrite Ht. run.
    unfold notified. simpl. unfold still_waiting. rewrite Ht.
    destruct (wait_monitor_ th) as [wm|] eqn:Hw.
    + (* still waiting: signalled *)
      assert (wm = m) as ->.
      { apply orb_true_iff in Hwm as [Hwm|Hwm]; apply bool_decide_eq_true in Hwm;
          congruence. }
      rewrite bool_decide_eq_true_2 by reflexivity. simpl.
      rewrite (alter_as_insert _ _ _ _ Ht).
      rewrite <- (is_wait_set_head _ _ _ Hchain). reflexivity.
    + (* raced out: skipped *)
      rewrite bool_decide_eq_false_2 by discriminate. simpl.
      set (rt1 := set_threads (<[t := set_wait_next None th]> (threads rt))
                    (set_monitors (<[m := set_wait_set (wait_next_ th) mon]> (monitors rt)) rt)).
      rewrite (IH rt1 (set_wait_set (wait_next_ th) mon) fuel).
      * unfold notified, rt1. simpl.
        rewrite (notify_spec_frame _ _ _ _ Hsame).
        rewrite (alter_as_insert _ _ _ _ Ht), insert_insert_eq. reflexivity.
      * unfold rt1. simpl. apply lookup_insert_eq.
      * unfold rt1. simpl. rewrite (is_wait_set_frame _ _ _ _ Hsame). exact Hchain.
      * unfold rt1. simpl. rewrite (waiters_of_frame _ _ _ _ Hsame). exact Hinv.
      * lia.
Qed.

(** C5: run by the owner on a monitor whose wait set is the chain [l],
    notify takes the candidates from the head of [l] in their order and
    unlinks each; it signals the condition variable of the first one that
    still waits in this monitor and stops there, skips those that do not,
    and signals nobody when none is left.  Nothing else changes, the
    candidates not reached stay chained in their order, and no exception
    is raised. *)
Theorem Monitor_Notify_fifo (rt : Runtime) (fuel : nat) (self : ThreadPtr)
    (m : MonitorPtr) (mon : Monitor) (l : list ThreadPtr) :
  monitors rt !! m = Some mon ->
  owner_ mon = Some self ->
  is_wait_set (threads rt) (wait_set_ mon) l = true ->
  waiters_of (threads rt) m l = true ->
  (length l < fuel)%nat ->
  let r := notify_spec (threads rt) m l in
  Monitor_Notify fuel self m rt = Done tt (notified rt m mon l)
  /\ removed r ++ remaining r = l
  /\ is_wait_set (threads (notified rt m mon l)) (head (remaining r)) (remaining r) = true
  /\ (forall t, exception_ <$> threads (notified rt m mon l) !! t
                = exception_ <$> threads rt !! t).
Proof.
  intros Hm Ho Hchain Hinv Hfuel r.
  split; [|split; [|split]].
  - unfold Monitor_Notify. run. rewrite Hm. run.
    rewrite bool_decide_eq_false_2 by (intros H; apply H; exact Ho).
    apply Monitor_Notify_loop_refines; assumption.
  - apply notify_spec_partition.
  - unfold notified. simpl. fold r.
    pose proof (notify_spec_partition (threads rt) m l) as Hpart. fold r in Hpart.
    pose proof (is_wait_set_NoDup _ _ _ Hchain) as Hnodup.
    rewrite <- Hpart in Hnodup, Hchain.
    apply NoDup_app in Hnodup as (_ & Hdisj & _).
    rewrite (is_wait_set_frame (threads rt)).
    + eapply is_wait_set_suffix, Hchain.
    + intros t Hin. apply unlinked_lookup_other. intros Hrem.
      exact (Hdisj t Hrem Hin).
  - intros t. unfold notified. simpl. fold r. generalize (removed r). intros rem.
    revert t. generalize (threads rt) as ts. induction rem as [|x rem IH]; intros ts t.
    + reflexivity.
    + unfold unlinked in *. simpl. rewrite IH.
      destruct (decide (x = t)) as [->|Hne].
      * rewrite lookup_alter_eq. destruct (ts !! t); reflexivity.
      * rewrite lookup_alter_ne by done. reflexivity.
Qed.

Lemma Monitor_Notify_fifo_witness :
  let r := notify_spec (threads waiting_runtime) 5 [2; 3; 4]%positive in
  let rt' := notified waiting_runtime 5 (mkMonitor (Some 1%positive) 0 1%positive
                                           (Some 2%positive) None 0) [2; 3; 4]%positive in
  Monitor_Notify 4 1 5 waiting_runtime = Done tt rt'
  /\ removed r ++ remaining r = [2; 3; 4]%positive
  /\ is_wait_set (threads rt') (head (remaining r)) (remaining r) = true
  /\ (forall t, exception_ <$> threads rt' !! t
                = exception_ <$> threads waiting_runtime !! t).
Proof.
  apply (Monitor_Notify_fifo waiting_runtime 4 1 5
           (mkMonitor (Some 1%positive) 0 1%positive (Some 2%positive) None 0)
           [2; 3; 4]%positive); try reflexivity.
  simpl. lia.
Defined.

(** On this wait set notify skips thread 2, signals thread 3 and leaves
    thread 4 waiting. *)
Example Monitor_Notify_example :
  notify_spec (threads waiting_runtime) 5 [2; 3; 4]%positive
    = mkNotifyResult [2; 3]%positive (Some 3%positive) [4%positive]
  /\ trace <$> result_state (Monitor_Notify 4 1 5 waiting_runtime)
     = Some [WaitCondSignal 3]
  /\ (wait_set_ <$> (monitors <$> result_state (Monitor_Notify 4 1 5 waiting_runtime))
                     ≫= (.!! 5%positive))
     = Some (Some 4%positive).
Proof. repeat split. Qed.

(** The test in the code is [wait_monitor_ != NULL]: it tells a parked
    candidate from one that left only for candidates as [waiters_of]
    describes them.  A candidate whose [wait_monitor_] pointed at another
    monitor (here thread 2, at monitor 6) would be signalled. *)
Example Monitor_Notify_tests_for_null :
  let rt := set_threads
              (<[2%positive := mkThread 9 kWaiting false (Some 3%positive) (Some 6%positive)
                                        false None None 0]> (threads waiting_runtime))
              waiting_runtime in
  waiters_of (threads rt) 5 [2; 3; 4]%positive = false
  /\ trace <$> result_state (Monitor_Notify 4 1 5 rt) = Some [WaitCondSignal 2].
Proof. vm_compute. split; reflexivity. Qed.

(** ** Appending to the wait set *)

Lemma last_cons_default (x d : ThreadPtr) (l : list ThreadPtr) :
  List.last (x :: l) d = List.last l x.
Proof.
  revert x d. induction l as [|y l IH]; intros x d; [reflexivity|].
  change (List.last (x :: y :: l) d) with (List.last (y :: l) d).
  rewrite (IH y d), (IH y x). reflexivity.
Qed.

Lemma last_cons_elem (x : ThreadPtr) (l : list ThreadPtr) : List.last l x ∈ x :: l.
Proof.
  revert x. induction l as [|y l IH]; intros x; [left|].
  right. rewrite last_cons_default. apply IH.
Qed.

Lemma AppendToWaitSet_last_finds (ts_rt : Runtime) (l : list ThreadPtr) :
  forall (t : ThreadPtr) (fuel : nat),
    is_wait_set (threads ts_rt) (Some t) (t :: l) = true ->
    (length l < fuel)%nat ->
    AppendToWaitSet_last fuel t ts_rt = Done (List.last l t) ts_rt.
Proof.
  induction l as [|t' l IH]; intros t fuel Hchain Hfuel;
    (destruct fuel as [|fuel]; [simpl in Hfuel; lia|]);
    apply is_wait_set_cons in Hchain as [_ (th & Ht & Hchain)].
  - apply is_wait_set_nil in Hchain. simpl. run. rewrite Ht. run. rewrite Hchain.
    reflexivity.
  - pose proof Hchain as Hrest.
    apply is_wait_set_cons in Hchain as [Hnext _].
    rewrite last_cons_default.
    simpl AppendToWaitSet_last. run. rewrite Ht. run. rewrite Hnext.
    rewrite Hnext in Hrest.
    rewrite (IH t' fuel Hrest) by (simpl in Hfuel; lia).
    reflexivity.
Qed.

Lemma is_wait_set_snoc ts h l t thr :
  is_wait_set ts h l = true ->
  t ∉ l ->
  ts !! t = Some thr ->
  wait_next_ thr = None ->
  is_wait_set
    (match l with
     | [] => ts
     | t0 :: l' => alter (set_wait_next (Some t)) (List.last l' t0) ts
     end)
    (match l with [] => Some t | _ => h end) (l ++ [t]) = true.
Proof.
  intros Hchain Hnotin Ht Hnext.
  destruct l as [|t0 l].
  { simpl. rewrite Ht, Hnext. rewrite !bool_decide_eq_true_2 by reflexivity.
    reflexivity. }
  revert h t0 Hchain Hnotin. induction l as [|t1 l IH]; intros h t0 Hchain Hnotin.
  - apply is_wait_set_cons in Hchain as [-> (th0 & Ht0 & Hchain)].
    apply is_wait_set_nil in Hchain.
    assert (t0 <> t) by (intros ->; apply Hnotin; left).
    simpl. rewrite lookup_alter_eq, Ht0. simpl.
    rewrite lookup_alter_ne by done. rewrite Ht, Hnext.
    rewrite !bool_decide_eq_true_2 by reflexivity. reflexivity.
  - pose proof (is_wait_set_NoDup _ _ _ Hchain) as Hnodup.
    apply is_wait_set_cons in Hchain as [-> (th0 & Ht0 & Hchain)].
    rewrite last_cons_default.
    assert (t0 <> List.last l t1).
    { apply NoDup_cons in Hnodup as [Hn _]. intros ->. apply Hn, last_cons_elem. }
    change ((t0 :: t1 :: l) ++ [t]) with (t0 :: ((t1 :: l) ++ [t])).
    apply is_wait_set_cons. split; [reflexivity|].
    exists th0. split; [rewrite lookup_alter_ne by done; exact Ht0|].
    apply (IH _ t1 Hchain).
    intros Hin. apply Hnotin. right. exact Hin.
Qed.

(** [AppendToWaitSet] is a push_back: the threads of the wait set keep
    their order, and the new thread comes last. *)
Lemma AppendToWaitSet_push_back (rt : Runtime) (fuel : nat) (m : MonitorPtr)
    (mon : Monitor) (l : list ThreadPtr) (thread : ThreadPtr) (thr : Thread) :
  monitors rt !! m = Some mon ->
  is_wait_set (threads rt) (wait_set_ mon) l = true ->
  thread ∉ l ->
  threads rt !! thread = Some thr ->
  wait_next_ thr = None ->
  (length l <= fuel)%nat ->
  AppendToWaitSet fuel m thread rt = Done tt (appended rt m mon l thread)
  /\ exists mon', monitors (appended rt m mon l thread) !! m = Some mon'
       /\ is_wait_set (threads (appended rt m mon l thread)) (wait_set_ mon')
            (l ++ [thread]) = true
       /\ owner_ mon' = owner_ mon /\ lock_count_ mon' = lock_count_ mon
       /\ locking_method_ mon' = locking_method_ mon
       /\ locking_dex_pc_ mon' = locking_dex_pc_ mon.
Proof.
  intros Hm Hchain Hnotin Ht Hnext Hfuel.
  pose proof (is_wait_set_snoc _ _ _ _ _ Hchain Hnotin Ht Hnext) as Hsnoc.
  destruct l as [|t0 l].
  - apply is_wait_set_nil in Hchain. split.
    + unfold AppendToWaitSet. run. rewrite Hm. run. rewrite Hchain. run. rewrite Hm.
      reflexivity.
    + exists (set_wait_set (Some thread) mon). simpl.
      rewrite lookup_insert_eq. auto 10.
  - pose proof Hchain as Hc. apply is_wait_set_cons in Hc as [Hhead _].
    pose proof (last_cons_elem t0 l) as Hin.
    assert (exists thl, threads rt !! List.last l t0 = Some thl) as [thl Hl].
    { clear -Hchain Hin. revert Hchain Hin. generalize (wait_set_ mon) as h.
      generalize (List.last l t0) as x. generalize (t0 :: l) as k.
      induction k as [|y k IHk]; intros x h Hchain Hin; [inversion Hin|].
      apply is_wait_set_cons in Hchain as [-> (thy & Hy & Hchain)].
      apply elem_of_cons in Hin as [->|Hin]; [eauto|]. eapply IHk; eassumption. }
    split.
    + unfold AppendToWaitSet. run. rewrite Hm. run. rewrite Hhead.
      rewrite Hhead in Hchain.
      rewrite (AppendToWaitSet_last_finds rt l t0 fuel Hchain) by (simpl in Hfuel; lia).
      rewrite Hl. unfold appended. simpl.
      rewrite (alter_as_insert _ _ _ _ Hl). reflexivity.
    + exists mon. simpl. rewrite Hm. rewrite Hhead in Hsnoc. rewrite Hhead. auto 10.
Qed.

Lemma appended_frame (rt : Runtime) (m : MonitorPtr) (mon : Monitor)
    (l : list ThreadPtr) (self : ThreadPtr) :
  self ∉ l ->
  threads (appended rt m mon l self) !! self = threads rt !! self
  /\ trace (appended rt m mon l self) = trace rt.
Proof.
  intros Hnotin. destruct l as [|t0 l]; simpl; [auto|].
  split; [|reflexivity].
  apply lookup_alter_ne. intros Heq. apply Hnotin. rewrite <- Heq.
  apply last_cons_elem.
Qed.

(** The timed wait with ms = 0 and ns = 0 parks the thread on its condition
    variable without a timeout, in state kWaiting. *)
Lemma Wait_zero_timeout_parks_untimed (rt : Runtime) (fuel : nat) (self : ThreadPtr)
    (obj : ObjPtr) (th : Thread) (m : MonitorPtr) (mon : Monitor)
    (l : list ThreadPtr) (interruptShouldThrow : bool) :
  threads rt !! self = Some th ->
  lock_words rt !! obj = Some (FatLocked m) ->
  monitors rt !! m = Some mon ->
  owner_ mon = Some self ->
  is_wait_set (threads rt) (wait_set_ mon) l = true ->
  self ∉ l ->
  wait_next_ th = None ->
  interrupted_ th = false ->
  (length l <= fuel)%nat ->
  exists rt',
    Wait fuel self obj 0 0 interruptShouldThrow kTimedWaiting rt =
      Parked (WaitFrame m (lock_count_ mon) (locking_method_ mon) (locking_dex_pc_ mon)
                        interruptShouldThrow) rt'
    /\ trace rt' = trace rt ++ [ContendersSignal m; WaitCondWait self]
    /\ state_ <$> threads rt' !! self = Some kWaiting
    /\ wait_monitor_ <$> threads rt' !! self = Some (Some m)
    /\ owner_ <$> monitors rt' !! m = Some None
    /\ lock_count_ <$> monitors rt' !! m = Some 0.
Proof.
  intros Hth Hlw Hm Ho Hchain Hnotin Hnext Hint Hfuel.
  destruct (AppendToWaitSet_push_back rt fuel m mon l self th Hm Hchain Hnotin Hth Hnext Hfuel)
    as [Happ (mon' & Hm' & _ & _ & Hc & Hmeth & Hpc)].
  destruct (appended_frame rt m mon l self Hnotin) as [Hself Htrace].
  rewrite Hth in Hself.
  unfold Wait, Monitor_Wait. run. rewrite Hlw. run. rewrite Hm. run.
  rewrite bool_decide_eq_false_2 by (intros H; apply H; exact Ho).
  rewrite Happ.
  remember (appended rt m mon l self) as rt1 eqn:Hrt1. clear Hrt1 Happ.
  run. rewrite Hm'. run. rewrite Hm'. run. rewrite Hself. run.
  rewrite !lookup_insert_eq. run. rewrite !lookup_insert_eq. run.
  rewrite Hint. run.
  eexists. split; [rewrite Hc, Hmeth, Hpc; reflexivity|].
  simpl. rewrite !lookup_insert_eq, Htrace, <- app_assoc. simpl. auto 10.
Qed.

(** ** Wait: the timeout arguments *)

(** C3: for the owner of the monitor of the object, a wait with ms < 0,
    ns < 0 or ns > 999999 returns with IllegalArgumentException pending,
    with every monitor (owner, recursion count, head of the wait set), every
    lock word and every link of the wait sets as before, and the caller
    still the owner; and a timed wait with ms = 0 and ns = 0 does what the
    untimed wait does: the thread parks on its condition variable in state
    kWaiting, without a timeout. *)
Theorem Wait_timeout_arguments (rt : Runtime) (fuel : nat) (self : ThreadPtr)
    (obj : ObjPtr) (th : Thread) (m : MonitorPtr) (mon : Monitor) (ms ns : Z)
    (interruptShouldThrow : bool) (reason : ThreadState) :
  threads rt !! self = Some th ->
  lock_words rt !! obj = Some (FatLocked m) ->
  monitors rt !! m = Some mon ->
  owner_ mon = Some self ->
  (ms < 0 \/ ns < 0 \/ ns > 999999 ->
     let rt' := with_exception rt self th (IllegalArgumentException ms ns) in
     Wait fuel self obj ms ns interruptShouldThrow reason rt = Done tt rt'
     /\ monitors rt' = monitors rt
     /\ lock_words rt' = lock_words rt
     /\ (forall t, wait_next_ <$> threads rt' !! t = wait_next_ <$> threads rt !! t)
     /\ owns_lock rt' self obj = true)
  /\ Wait fuel self obj 0 0 interruptShouldThrow kTimedWaiting rt =
     Wait fuel self obj 0 0 interruptShouldThrow kWaiting rt
  /\ (forall l,
        is_wait_set (threads rt) (wait_set_ mon) l = true ->
        self ∉ l ->
        wait_next_ th = None ->
        interrupted_ th = false ->
        (length l <= fuel)%nat ->
        exists rt',
          Wait fuel self obj 0 0 interruptShouldThrow kTimedWaiting rt =
            Parked (WaitFrame m (lock_count_ mon) (locking_method_ mon)
                              (locking_dex_pc_ mon) interruptShouldThrow) rt'
          /\ trace rt' = trace rt ++ [ContendersSignal m; WaitCondWait self]
          /\ state_ <$> threads rt' !! self = Some kWaiting).
Proof.
  intros Hth Hlw Hm Ho.
  assert (Hne : bool_decide (owner_ mon <> Some self) = false)
    by (apply bool_decide_eq_false_2; intros H; apply H; exact Ho).
  split; [|split].
  - intros Hrange rt'. split; [|split; [|split; [|split]]].
    + unfold Wait, Monitor_Wait. run. rewrite Hlw. run. rewrite Hm. run.
      rewrite Hne.
      assert (Hb : (ms <? 0) || (ns <? 0) || (ns >? 999999) = true).
      { destruct (Z.ltb_spec ms 0), (Z.ltb_spec ns 0), (Z.gtb_spec ns 999999);
          try reflexivity; lia. }
      rewrite Hb. rewrite Hth. reflexivity.
    + reflexivity.
    + reflexivity.
    + intros t. unfold rt'. simpl. destruct (decide (self = t)) as [<-|Hd].
      * rewrite lookup_insert_eq, Hth. reflexivity.
      * rewrite lookup_insert_ne by done. reflexivity.
    + unfold owns_lock, rt'. simpl. rewrite Hlw, Hm.
      apply bool_decide_eq_true_2. exact Ho.
  - unfold Wait, Monitor_Wait. run. rewrite Hlw. run. rewrite Hm. run.
    rewrite Hne. reflexivity.
  - intros l Hchain Hnotin Hnext Hint Hfuel.
    destruct (Wait_zero_timeout_parks_untimed rt fuel self obj th m mon l
                interruptShouldThrow Hth Hlw Hm Ho Hchain Hnotin Hnext Hint Hfuel)
      as (rt' & Hrun & Htrace & Hstate & _).
    eauto.
Qed.

Lemma Wait_timeout_arguments_witness :
  let rt := a_runtime (FatLocked 5) (a_monitor (Some 1%positive) 3 None) in
  Wait 1 1 1 0 1000000 true kWaiting rt =
    Done tt (with_exception rt 1 (a_thread 7) (IllegalArgumentException 0 1000000))
  /\ Wait 1 1 1 0 0 true kTimedWaiting rt = Wait 1 1 1 0 0 true kWaiting rt
  /\ exists rt', Wait 1 1 1 0 0 true kTimedWaiting rt = Parked (WaitFrame 5 3 None 0 true) rt'
                 /\ trace rt' = [ContendersSignal 5; WaitCondWait 1]
                 /\ state_ <$> threads rt' !! 1%positive = Some kWaiting.
Proof.
  intros rt.
  destruct (Wait_timeout_arguments rt 1 1 1 (a_thread 7) 5
              (mkMonitor (Some 1%positive) 3 1%positive None None 0) 0 1000000
              true kWaiting eq_refl eq_refl eq_refl eq_refl) as [Hbad _].
  destruct (Wait_timeout_arguments rt 1 1 1 (a_thread 7) 5
              (mkMonitor (Some 1%positive) 3 1%positive None None 0) 0 0
              true kWaiting eq_refl eq_refl eq_refl eq_refl) as (_ & Hzero & Hpark).
  split; [apply Hbad; lia | split; [exact Hzero|]].
  apply (Hpark []); try reflexivity.
  - apply not_elem_of_nil.
  - simpl. lia.
Defined.

(** ** Acquire *)

Section ThinLockCount.

Variable kThinLockMaxCount : Z.

(** The recursion count is a field of the 32-bit lock word, next to the
    owner id: its largest value is below the largest [uint32_t]. *)
Hypothesis kThinLockMaxCount_range : 0 <= kThinLockMaxCount < 2^32 - 1.

Lemma MonitorEnter_unlocked (rt : Runtime) (fuel : nat) (self : ThreadPtr)
    (obj : ObjPtr) (th : Thread) :
  threads rt !! self = Some th ->
  lock_words rt !! obj = Some Unlocked ->
  MonitorEnter kThinLockMaxCount (S fuel) self obj rt =
    Done tt (with_lock_word rt obj (ThinLocked (thread_id_ th) 0)).
Proof.
  intros Hth Hlw. unfold MonitorEnter. run. rewrite Hth. run. rewrite Hlw. run.
  rewrite Hlw. run. rewrite Hlw. reflexivity.
Qed.

Lemma MonitorEnter_thin_increment (rt : Runtime) (fuel : nat) (self : ThreadPtr)
    (obj : ObjPtr) (th : Thread) (n : Z) :
  threads rt !! self = Some th ->
  lock_words rt !! obj = Some (ThinLocked (thread_id_ th) n) ->
  0 <= n < kThinLockMaxCount ->
  MonitorEnter kThinLockMaxCount (S fuel) self obj rt =
    Done tt (with_lock_word rt obj (ThinLocked (thread_id_ th) (n + 1))).
Proof.
  intros Hth Hlw Hn. unfold MonitorEnter. run. rewrite Hth. run. rewrite Hlw. run.
  rewrite Z.eqb_refl. rewrite (Z.mod_small (n + 1)) by lia.
  destruct (Z.leb_spec (n + 1) kThinLockMaxCount) as [_|]; [|lia].
  rewrite Hlw. reflexivity.
Qed.

Lemma MonitorEnter_overflow (rt : Runtime) (fuel : nat) (self : ThreadPtr)
    (obj : ObjPtr) (th : Thread) :
  threads rt !! self = Some th ->
  lock_words rt !! obj = Some (ThinLocked (thread_id_ th) kThinLockMaxCount) ->
  allow_new_monitors_ rt = true ->
  exists rt' mon,
    MonitorEnter kThinLockMaxCount (S (S fuel)) self obj rt = Done tt rt'
    /\ lock_words rt' !! obj = Some (FatLocked (fresh (dom (monitors rt) : gset positive)))
    /\ monitors rt !! (fresh (dom (monitors rt) : gset positive)) = None
    /\ monitors rt' !! (fresh (dom (monitors rt) : gset positive)) = Some mon
    /\ owner_ mon = Some self
    /\ lock_count_ mon = kThinLockMaxCount + 1
    /\ obj_ mon = obj
    /\ wait_set_ mon = None
    /\ monitor_list rt' = fresh (dom (monitors rt) : gset positive) :: monitor_list rt
    /\ exception_ <$> threads rt' !! self = exception_ <$> threads rt !! self.
Proof.
  intros Hth Hlw Hallow.
  assert (Hfresh : monitors rt !! (fresh (dom (monitors rt) : gset positive)) = None).
  { apply not_elem_of_dom. apply is_fresh. }
  set (m := fresh (dom (monitors rt) : gset positive)) in *.
  unfold MonitorEnter. run. rewrite Hth. run. rewrite Hlw. run.
  rewrite Z.eqb_refl. rewrite (Z.mod_small (kThinLockMaxCount + 1)) by lia.
  destruct (Z.leb_spec (kThinLockMaxCount + 1) kThinLockMaxCount) as [|_]; [lia|].
  unfold Inflate, Monitor_new, Monitor_Install. run. fold m.
  destruct (bool_decide (lock_profiling_threshold_ rt <> 0)) eqn:Hprof;
    repeat first [ rewrite Hth | rewrite Hlw | rewrite Hallow | rewrite Hprof
                 | rewrite lookup_insert_eq
                 | rewrite bool_decide_eq_true_2 by reflexivity
                 | progress simpl ].
  all: eexists _, _; split; [reflexivity|]; simpl; fold m;
    rewrite ?lookup_insert_eq, ?Hth; auto 12.
Qed.

(** C2: a thread that holds the thin lock with count n enters again.  With
    n below the maximum the lock word becomes ThinLocked with count n + 1.
    With n at the maximum the lock is inflated: enter returns, the lock word
    points at a newly allocated and registered monitor, and this monitor has
    the caller as owner and the recursion count kThinLockMaxCount + 1. *)
Theorem MonitorEnter_recursion (rt : Runtime) (fuel : nat) (self : ThreadPtr)
    (obj : ObjPtr) (th : Thread) (n : Z) :
  threads rt !! self = Some th ->
  lock_words rt !! obj = Some (ThinLocked (thread_id_ th) n) ->
  (0 <= n < kThinLockMaxCount ->
     MonitorEnter kThinLockMaxCount (S fuel) self obj rt =
       Done tt (with_lock_word rt obj (ThinLocked (thread_id_ th) (n + 1))))
  /\ (n = kThinLockMaxCount ->
      allow_new_monitors_ rt = true ->
      exists rt' mon,
        MonitorEnter kThinLockMaxCount (S (S fuel)) self obj rt = Done tt rt'
        /\ lock_words rt' !! obj = Some (FatLocked (fresh (dom (monitors rt) : gset positive)))
        /\ monitors rt !! (fresh (dom (monitors rt) : gset positive)) = None
        /\ monitors rt' !! (fresh (dom (monitors rt) : gset positive)) = Some mon
        /\ owner_ mon = Some self
        /\ lock_count_ mon = kThinLockMaxCount + 1
        /\ obj_ mon = obj
        /\ wait_set_ mon = None
        /\ monitor_list rt' = fresh (dom (monitors rt) : gset positive) :: monitor_list rt
        /\ exception_ <$> threads rt' !! self = exception_ <$> threads rt !! self).
Proof.
  intros Hth Hlw. split.
  - intros Hn. eapply MonitorEnter_thin_increment; eassumption.
  - intros -> Hallow. eapply MonitorEnter_overflow; eassumption.
Qed.

Lemma with_lock_word_twice (rt : Runtime) (obj : ObjPtr) (a b : LockWord) :
  with_lock_word (with_lock_word rt obj a) obj b = with_lock_word rt obj b.
Proof.
  unfold with_lock_word, set_lock_words. simpl. rewrite insert_insert_eq. reflexivity.
Qed.

Lemma MonitorEnter_times_recursive (self : ThreadPtr) (obj : ObjPtr) (th : Thread)
    (fuel : nat) (j : nat) :
  forall (rt : Runtime) (n : Z),
    threads rt !! self = Some th ->
    lock_words rt !! obj = Some (ThinLocked (thread_id_ th) n) ->
    0 <= n ->
    n + Z.of_nat j <= kThinLockMaxCount ->
    MonitorEnter_times kThinLockMaxCount j (S fuel) self obj rt =
      Done tt (with_lock_word rt obj (ThinLocked (thread_id_ th) (n + Z.of_nat j))).
Proof.
  induction j as [|j IH]; intros rt n Hth Hlw Hn Hmax.
  - simpl. rewrite Z.add_0_r. unfold ret, with_lock_word.
    rewrite insert_id by exact Hlw. f_equal. destruct rt. reflexivity.
  - cbn [MonitorEnter_times]. unfold bind.
    rewrite (MonitorEnter_thin_increment rt fuel self obj th n Hth Hlw) by lia.
    rewrite (IH _ (n + 1)).
    + rewrite with_lock_word_twice. do 3 f_equal. lia.
    + exact Hth.
    + simpl. apply lookup_insert_eq.
    + lia.
    + lia.
Qed.

(** C8: on a fresh object, k >= 1 enters by one thread with k - 1 not above
    the maximal thin count, and then the snapshot: the owner is the thread,
    the entry count is k, and there are no waiters. *)
Theorem MonitorInfo_after_enters (rt : Runtime) (fuel fuel' : nat) (self : ThreadPtr)
    (obj : ObjPtr) (th : Thread) (k : nat) :
  threads rt !! self = Some th ->
  lock_words rt !! obj = Some Unlocked ->
  FindThreadByThreadId (thread_id_ th) rt = Done (Some self) rt ->
  (1 <= k)%nat ->
  Z.of_nat k - 1 <= kThinLockMaxCount ->
  (MonitorEnter_times kThinLockMaxCount k (S fuel) self obj;;;
   MonitorInfo_new fuel' obj) rt =
    Done (MonitorInfo.mk (Some self) (Z.of_nat k) [])
         (with_lock_word rt obj (ThinLocked (thread_id_ th) (Z.of_nat k - 1))).
Proof.
  intros Hth Hlw Hfind Hk Hmax.
  destruct k as [|j]; [lia|].
  cbn [MonitorEnter_times]. unfold bind at 1. unfold bind at 1.
  rewrite (MonitorEnter_unlocked rt fuel self obj th Hth Hlw).
  rewrite (MonitorEnter_times_recursive self obj th fuel j _ 0).
  - rewrite with_lock_word_twice.
    replace (0 + Z.of_nat j) with (Z.of_nat (S j) - 1) by lia.
    unfold MonitorInfo_new. run. rewrite lookup_insert_eq. run.
    unfold FindThreadByThreadId, reads in Hfind. injection Hfind as ->.
    rewrite Z.mod_small by lia.
    do 3 f_equal. lia.
  - exact Hth.
  - simpl. apply lookup_insert_eq.
  - lia.
  - lia.
Qed.

End ThinLockCount.

Lemma MonitorEnter_recursion_witness :
  MonitorEnter 3 1 1 1 (a_runtime (ThinLocked 7 2) ∅) =
    Done tt (with_lock_word (a_runtime (ThinLocked 7 2) ∅) 1 (ThinLocked 7 3))
  /\ exists rt' mon,
       MonitorEnter 3 2 1 1 (a_runtime (ThinLocked 7 3) ∅) = Done tt rt'
       /\ lock_words rt' !! 1%positive = Some (FatLocked 1)
       /\ monitors rt' !! 1%positive = Some mon
       /\ owner_ mon = Some 1%positive
       /\ lock_count_ mon = 4.
Proof.
  assert (Hrange : 0 <= 3 < 2 ^ 32 - 1) by lia.
  split.
  - apply (proj1 (MonitorEnter_recursion 3 Hrange (a_runtime (ThinLocked 7 2) ∅) 0 1 1
                    (a_thread 7) 2 eq_refl eq_refl)). lia.
  - destruct (proj2 (MonitorEnter_recursion 3 Hrange (a_runtime (ThinLocked 7 3) ∅) 0 1 1
                       (a_thread 7) 3 eq_refl eq_refl) eq_refl eq_refl)
      as (rt' & mon & Hrun & Hlw & _ & Hmon & Ho & Hc & _).
    exists rt', mon. auto.
Defined.

Lemma MonitorInfo_after_enters_witness :
  (MonitorEnter_times 3 3 1 1 1;;; MonitorInfo_new 0 1) (a_runtime Unlocked ∅) =
    Done (MonitorInfo.mk (Some 1%positive) 3 [])
         (with_lock_word (a_runtime Unlocked ∅) 1 (ThinLocked 7 2)).
Proof.
  assert (Hrange : 0 <= 3 < 2 ^ 32 - 1) by lia.
  apply (MonitorInfo_after_enters 3 Hrange (a_runtime Unlocked ∅) 0 0 1 1 (a_thread 7) 3);
    try reflexivity; lia.
Defined.

(** ** Snapshot of a released monitor *)

(** C6, where the code departs from it: the lock word of object 1 points at
    a monitor that no thread owns, and the snapshot reports no owner with
    the entry count 1, while an unlocked object is reported with the entry
    count 0. *)
Theorem MonitorInfo_released_monitor :
  MonitorInfo_new 1 1 (a_runtime (FatLocked 5) (a_monitor None 0 None)) =
    Done (MonitorInfo.mk None 1 []) (a_runtime (FatLocked 5) (a_monitor None 0 None))
  /\ MonitorInfo_new 1 1 (a_runtime Unlocked ∅) =
    Done (MonitorInfo.mk None 0 []) (a_runtime Unlocked ∅).
Proof. split; reflexivity. Qed.

(** The part of C6 the code does follow: while the lock is held, the entry
    count is the recursion count plus one. *)
Lemma MonitorInfo_held (rt : Runtime) (fuel : nat) (obj : ObjPtr) :
  (forall o n, lock_words rt !! obj = Some (ThinLocked o n) -> 0 <= n < 2^32 - 1 ->
     exists owner, MonitorInfo_new fuel obj rt = Done (MonitorInfo.mk owner (n + 1) []) rt)
  /\ (forall m mon t, lock_words rt !! obj = Some (FatLocked m) ->
        monitors rt !! m = Some mon -> owner_ mon = Some t ->
        wait_set_ mon = None ->
        MonitorInfo_new fuel obj rt =
          Done (MonitorInfo.mk (Some t) (lock_count_ mon + 1) []) rt).
Proof.
  split.
  - intros o n Hlw Hn. unfold MonitorInfo_new. run. rewrite Hlw. run.
    rewrite Z.mod_small by lia. rewrite (Z.add_comm 1 n). eauto.
  - intros m mon t Hlw Hm Ho Hws. unfold MonitorInfo_new. run. rewrite Hlw. run.
    rewrite Hm. run. rewrite Hws, Ho. destruct fuel; simpl; rewrite (Z.add_comm 1); reflexivity.
Qed.

(** ** Contention sampling *)

(** C7, where the code departs from it: with a profiling threshold of 1000
    ms, thread 1 blocks at time 5000 on the monitor that thread 2 owns, and
    the start time it keeps is 0, not 5000.  Woken at time 5010, after 10 ms,
    it computes the wait time 5010 and the sample percentage 100, and logs
    the event whatever rand() returns, where a wait of 10 ms is to be sampled
    at 1 percent. *)
Theorem Monitor_Lock_contention_start_time :
  parked_frame (Monitor_Lock 1 1 5 contended_runtime)
    = Some (LockFrame 5 0 None 0 kRunnable)
  /\ milli_time contended_runtime = 5000
  /\ lock_profiling_threshold_ contended_runtime = 1000
  /\ contention_wait_ms 5010 0 = 5010
  /\ contention_sample_percent 5010 1000 = 100
  /\ contention_sample_percent 10 1000 = 1
  /\ contention_sampled 100 99 = true
  /\ contention_sampled 1 99 = false
  /\ (result_state (Monitor_Lock 1 1 5 contended_runtime) ≫= fun rt1 =>
      trace <$> result_state
                  (Monitor_Lock_woken 1 1 (LockFrame 5 0 None 0 kRunnable) 99
                     (at_milli_time 5010 (set_monitors (a_monitor None 0 None) rt1))))
     = Some [ContendersWait 5 1; LogContentionEvent 1 5010 100 None 0].
Proof. repeat (split; [vm_compute; reflexivity|]). vm_compute. reflexivity. Qed.

(** ** The scenarios of the specification, run *)

(** Recursion without inflation: three enters give ThinLocked with count 2,
    two exits count 0, the third exit the unlocked word, and a fourth exit
    is refused. *)
Example scenario_recursion :
  result_value
    ((MonitorEnter 3 1 1 1;;; MonitorEnter 3 1 1 1;;; MonitorEnter 3 1 1 1;;;
      lw3 <- GetLockWord 1;;
      MonitorExit 1 1;;; MonitorExit 1 1;;;
      lw1 <- GetLockWord 1;;
      MonitorExit 1 1;;;
      lw0 <- GetLockWord 1;;
      again <- MonitorExit 1 1;;
      ret (lw3, lw1, lw0, again)) (a_runtime Unlocked ∅))
  = Some (ThinLocked 7 2, ThinLocked 7 0, Unlocked, false).
Proof. vm_compute. reflexivity. Qed.

(** Inflation by overflow, with the maximal thin count 3: the fifth enter
    inflates, the monitor has the recursion count 4, and five exits leave
    it without owner while the lock word stays fat. *)
Example scenario_overflow :
  result_value
    ((MonitorEnter_times 3 5 2 1 1;;;
      lw <- GetLockWord 1;;
      mon <- Monitor_at 1;;
      MonitorExit 1 1;;; MonitorExit 1 1;;; MonitorExit 1 1;;; MonitorExit 1 1;;;
      last <- MonitorExit 1 1;;
      mon' <- Monitor_at 1;;
      lw' <- GetLockWord 1;;
      ret (lw, owner_ mon, lock_count_ mon, last, owner_ mon', lock_count_ mon', lw'))
       (a_runtime Unlocked ∅))
  = Some (FatLocked 1, Some 1%positive, 4, true, None, 0, FatLocked 1).
Proof. vm_compute. reflexivity. Qed.

(** Contended entry: thread 2 spins 50 times on the thin lock of thread 1,
    then suspends thread 1, inflates the lock on its behalf and parks on
    the monitor, which thread 1 owns with its recursion count. *)
Example scenario_contended :
  let out := MonitorEnter 3 60 2 1 (a_runtime (ThinLocked 7 2) ∅) in
  parked_frame out = Some (LockFrame 1 0 None 0 kRunnable)
  /\ (result_state out ≫= fun rt =>
        (fun mon => (owner_ mon, lock_count_ mon)) <$> monitors rt !! 1%positive)
     = Some (Some 1%positive, 2)
  /\ (length <$> (trace <$> result_state out)) = Some 51%nat
  /\ (result_state out ≫= fun rt => suspended_ <$> threads rt !! 1%positive) = Some false.
Proof. vm_compute. repeat split; reflexivity. Qed.

(** Wait by a thread that is interrupted already: the wait is skipped, the
    thread owns the monitor again with its recursion count, it is out of the
    wait set, its interrupted flag is cleared and InterruptedException is
    pending. *)
Example scenario_interrupted_wait :
  let rt := set_threads (<[1%positive := set_interrupted true (a_thread 7)]>
                           (threads (a_runtime (ThinLocked 7 2) ∅)))
                        (a_runtime (ThinLocked 7 2) ∅) in
  result_value
    ((Wait 2 1 1 100 0 true kTimedWaiting;;;
      mon <- Monitor_at 1;;
      th <- Thread_at 1;;
      ret (owner_ mon, lock_count_ mon, wait_set_ mon,
           interrupted_ th, exception_ th, wait_monitor_ th, state_ th)) rt)
  = Some (Some 1%positive, 2, None, false, Some InterruptedException, None, kRunnable).
Proof. vm_compute. reflexivity. Qed.

(** * Further properties of the code *)

(** Runs a call as far as the known lookups decide it. *)
Ltac crank :=
  repeat first
    [ progress run
    | rewrite lookup_insert_eq
    | rewrite bool_decide_eq_true_2 by reflexivity
    | match goal with
      | H : ?m !! ?k = Some _ |- context [?m !! ?k] => rewrite H
      | H : ?x = Some _ |- context [match ?x with _ => _ end] => rewrite H
      | H : ?x = None |- context [match ?x with _ => _ end] => rewrite H
      end ].

(** ** No monitor operation writes a lock word *)

Lemma keeps_ret {A} (a : A) : keeps_lock_words (ret a).
Proof. intros rt. reflexivity. Qed.

Lemma keeps_bind {A B} (c : Call A) (k : A -> Call B) :
  keeps_lock_words c -> (forall a, keeps_lock_words (k a)) ->
  keeps_lock_words (bind c k).
Proof.
  intros Hc Hk rt. unfold bind. specialize (Hc rt).
  destruct (c rt) as [a rt'| |  |]; try exact I; try exact Hc.
  specialize (Hk a rt'). destruct (k a rt'); try exact I; congruence.
Qed.

Lemma keeps_fatal {A} : keeps_lock_words (@fatal A).
Proof. intros rt. exact I. Qed.

Lemma keeps_out_of_fuel {A} : keeps_lock_words (@out_of_fuel A).
Proof. intros rt. exact I. Qed.

Lemma keeps_park {A} f : keeps_lock_words (@park A f).
Proof. intros rt. reflexivity. Qed.

Lemma keeps_reads {A} (f : Runtime -> A) : keeps_lock_words (reads f).
Proof. intros rt. reflexivity. Qed.

Lemma keeps_deref {A} (o : option A) : keeps_lock_words (deref o).
Proof. intros rt. destruct o; [reflexivity | exact I]. Qed.

Lemma keeps_CHECK b : keeps_lock_words (CHECK b).
Proof. intros rt. destruct b; [reflexivity | exact I]. Qed.

Lemma keeps_Thread_at t : keeps_lock_words (Thread_at t).
Proof. intros rt. unfold Thread_at. destruct (threads rt !! t); [reflexivity | exact I]. Qed.

Lemma keeps_Monitor_at m : keeps_lock_words (Monitor_at m).
Proof. intros rt. unfold Monitor_at. destruct (monitors rt !! m); [reflexivity | exact I]. Qed.

Lemma keeps_emit e : keeps_lock_words (emit e).
Proof. intros rt. reflexivity. Qed.

Lemma keeps_upd_thread t f : keeps_lock_words (upd_thread t f).
Proof.
  intros rt. unfold upd_thread, bind, Thread_at.
  destruct (threads rt !! t); [reflexivity | exact I].
Qed.

Lemma keeps_upd_monitor m f : keeps_lock_words (upd_monitor m f).
Proof.
  intros rt. unfold upd_monitor, bind, Monitor_at.
  destruct (monitors rt !! m); [reflexivity | exact I].
Qed.

Lemma keeps_if {A} (b : bool) (c1 c2 : Call A) :
  keeps_lock_words c1 -> keeps_lock_words c2 ->
  keeps_lock_words (if b then c1 else c2).
Proof. destruct b; auto. Qed.

Create HintDb keeps.
#[local] Hint Resolve keeps_ret keeps_fatal keeps_out_of_fuel keeps_park keeps_reads
  keeps_deref keeps_CHECK keeps_Thread_at keeps_Monitor_at keeps_emit
  keeps_upd_thread keeps_upd_monitor : keeps.

(** Takes a call apart along its binds and branches. *)
Ltac keeps :=
  repeat first
    [ solve [auto with keeps]
    | match goal with |- forall _, _ => intro end
    | apply keeps_bind
    | apply keeps_if
    | match goal with
      | |- keeps_lock_words (match ?x with _ => _ end) => destruct x
      end ].

Lemma keeps_Throw self e : keeps_lock_words (Throw self e).
Proof. unfold Throw. keeps. Qed.

Lemma keeps_FailedUnlock self o expected found monitor :
  keeps_lock_words (FailedUnlock self o expected found monitor).
Proof.
  unfold FailedUnlock, ThrowIllegalMonitorStateExceptionF.
  pose proof keeps_Throw. keeps.
Qed.

Lemma keeps_ScopedThreadStateChange {A} self st (body : Call A) :
  keeps_lock_words body -> keeps_lock_words (ScopedThreadStateChange self st body).
Proof. intros H. unfold ScopedThreadStateChange. keeps. Qed.

Lemma keeps_GetCurrentMethod t : keeps_lock_words (GetCurrentMethod t).
Proof. unfold GetCurrentMethod. keeps. Qed.

#[local] Hint Resolve keeps_Throw keeps_FailedUnlock keeps_ScopedThreadStateChange
  keeps_GetCurrentMethod : keeps.

Lemma keeps_Monitor_Lock fuel self m : keeps_lock_words (Monitor_Lock fuel self m).
Proof.
  induction fuel as [|fuel IH]; simpl; [auto with keeps|]. keeps.
Qed.

Lemma keeps_Monitor_Unlock self m : keeps_lock_words (Monitor_Unlock self m).
Proof. unfold Monitor_Unlock. keeps. Qed.

Lemma keeps_AppendToWaitSet fuel m thread :
  keeps_lock_words (AppendToWaitSet fuel m thread).
Proof.
  assert (forall fuel t, keeps_lock_words (AppendToWaitSet_last fuel t)) as Hlast.
  { clear. induction fuel as [|fuel IH]; intros t; simpl; [auto with keeps|]. keeps. }
  unfold AppendToWaitSet. keeps.
Qed.

Lemma keeps_RemoveFromWaitSet fuel m thread :
  keeps_lock_words (RemoveFromWaitSet fuel m thread).
Proof.
  assert (forall fuel t, keeps_lock_words (RemoveFromWaitSet_loop fuel t thread)) as Hloop.
  { clear. induction fuel as [|fuel IH]; intros t; simpl; [auto with keeps|]. keeps. }
  unfold RemoveFromWaitSet. keeps.
Qed.

#[local] Hint Resolve keeps_Monitor_Lock keeps_Monitor_Unlock keeps_AppendToWaitSet
  keeps_RemoveFromWaitSet : keeps.

Lemma keeps_Monitor_Wait fuel self m ms ns b why :
  keeps_lock_words (Monitor_Wait fuel self m ms ns b why).
Proof. unfold Monitor_Wait, Monitor_Wait_finish, ThrowIllegalMonitorStateExceptionF. keeps. Qed.

Lemma keeps_Monitor_Wait_woken fuel self f :
  keeps_lock_words (Monitor_Wait_woken fuel self f).
Proof. unfold Monitor_Wait_woken, Monitor_Wait_finish. keeps. Qed.

Lemma keeps_Monitor_Lock_woken fuel self f rnd :
  keeps_lock_words (Monitor_Lock_woken fuel self f rnd).
Proof. unfold Monitor_Lock_woken. keeps. Qed.

Lemma keeps_Monitor_Notify fuel self m : keeps_lock_words (Monitor_Notify fuel self m).
Proof.
  assert (forall fuel, keeps_lock_words (Monitor_Notify_loop fuel self m)) as Hloop.
  { clear. induction fuel as [|fuel IH]; simpl; [auto with keeps|]. keeps. }
  unfold Monitor_Notify, ThrowIllegalMonitorStateExceptionF. keeps.
Qed.

Lemma keeps_Monitor_NotifyAll fuel self m : keeps_lock_words (Monitor_NotifyAll fuel self m).
Proof.
  assert (forall fuel, keeps_lock_words (Monitor_NotifyAll_loop fuel self m)) as Hloop.
  { clear. induction fuel as [|fuel IH]; simpl; [auto with keeps|].
    unfold Thread_Notify. keeps. }
  unfold Monitor_NotifyAll, ThrowIllegalMonitorStateExceptionF. keeps.
Qed.

Lemma keeps_at {A} (c : Call A) (rt rt' : Runtime) :
  keeps_lock_words c -> result_state (c rt) = Some rt' -> lock_words rt' = lock_words rt.
Proof.
  intros Hc Hres. specialize (Hc rt).
  destruct (c rt); simpl in Hres; try discriminate; injection Hres as <-; exact Hc.
Qed.

Lemma MonitorEnter_loop_fat (kThinLockMaxCount : Z) (rt : Runtime) (fuel : nat)
    (self : ThreadPtr) (obj : ObjPtr) (m : MonitorPtr) (thread_id count : Z) :
  lock_words rt !! obj = Some (FatLocked m) ->
  MonitorEnter_loop kThinLockMaxCount (S fuel) self obj thread_id count rt =
    Monitor_Lock (S fuel) self m rt.
Proof.
  intros Hlw. cbn [MonitorEnter_loop]. unfold bind at 1. unfold GetLockWord.
  rewrite Hlw. reflexivity.
Qed.

(** X1: once the lock word of an object points at a monitor, enter, exit,
    wait, notify and notifyAll on this object never write a lock word again,
    whether the call returns or parks: a fat lock stays fat, on the same
    monitor. *)
Theorem fat_lock_word_is_terminal (kThinLockMaxCount : Z) (rt rt' : Runtime)
    (fuel : nat) (self : ThreadPtr) (obj : ObjPtr) (m : MonitorPtr) (ms ns : Z)
    (interruptShouldThrow notify_all : bool) (why : ThreadState) :
  lock_words rt !! obj = Some (FatLocked m) ->
  result_state (MonitorEnter kThinLockMaxCount fuel self obj rt) = Some rt'
  \/ result_state (MonitorExit self obj rt) = Some rt'
  \/ result_state (Wait fuel self obj ms ns interruptShouldThrow why rt) = Some rt'
  \/ result_state (InflateAndNotify fuel self obj notify_all rt) = Some rt' ->
  lock_words rt' = lock_words rt
  /\ lock_words rt' !! obj = Some (FatLocked m).
Proof.
  intros Hlw Hres.
  assert (Hsame : lock_words rt' = lock_words rt); [|rewrite Hsame; auto].
  destruct Hres as [H|[H|[H|H]]].
  - unfold MonitorEnter, GetThreadId, bind, Thread_at in H.
    destruct (threads rt !! self) as [th|]; simpl in H; [|discriminate].
    destruct fuel as [|fuel]; [discriminate|].
    unfold ret in H. rewrite (MonitorEnter_loop_fat _ _ _ _ _ m) in H by exact Hlw.
    eapply keeps_at, H. apply keeps_Monitor_Lock.
  - unfold MonitorExit in H. unfold bind at 1 in H. unfold GetLockWord in H.
    rewrite Hlw in H. cbn [deref ret GetState FatLockMonitor] in H.
    unfold bind at 1 in H. cbn [deref ret] in H.
    eapply keeps_at, H. apply keeps_Monitor_Unlock.
  - unfold Wait in H. unfold bind at 1 in H. unfold GetLockWord in H.
    rewrite Hlw in H. cbn [deref ret GetState FatLockMonitor] in H.
    unfold bind at 1 in H. cbn [deref ret] in H.
    eapply keeps_at, H. apply keeps_Monitor_Wait.
  - unfold InflateAndNotify in H. unfold bind at 1 in H. unfold GetLockWord in H.
    rewrite Hlw in H. cbn [deref ret GetState FatLockMonitor] in H.
    unfold bind at 1 in H. cbn [deref ret] in H.
    destruct notify_all; eapply keeps_at, H.
    + apply keeps_Monitor_NotifyAll.
    + apply keeps_Monitor_Notify.
Qed.

Lemma fat_lock_word_is_terminal_witness :
  lock_words (set_trace [ContendersSignal 5]
                (with_monitor (a_runtime (FatLocked 5) (a_monitor (Some 1%positive) 0 None))
                              5 (mkMonitor None 0 1%positive None None 0)))
  = lock_words (a_runtime (FatLocked 5) (a_monitor (Some 1%positive) 0 None))
  /\ lock_words (set_trace [ContendersSignal 5]
                   (with_monitor (a_runtime (FatLocked 5) (a_monitor (Some 1%positive) 0 None))
                                 5 (mkMonitor None 0 1%positive None None 0)))
     !! 1%positive = Some (FatLocked 5).
Proof.
  apply (fat_lock_word_is_terminal 3
           (a_runtime (FatLocked 5) (a_monitor (Some 1%positive) 0 None)) _
           1 1 1 5 0 0 true false kWaiting eq_refl).
  right. left. vm_compute. reflexivity.
Defined.

(** ** Balanced enters and exits *)

Lemma with_lock_word_same (rt : Runtime) (obj : ObjPtr) (lw : LockWord) :
  lock_words rt !! obj = Some lw -> with_lock_word rt obj lw = rt.
Proof.
  intros Hlw. unfold with_lock_word, set_lock_words. rewrite insert_id by exact Hlw.
  destruct rt. reflexivity.
Qed.

Lemma MonitorExit_thin_decrement (rt : Runtime) (self : ThreadPtr) (obj : ObjPtr)
    (th : Thread) (n : Z) :
  threads rt !! self = Some th ->
  lock_words rt !! obj = Some (ThinLocked (thread_id_ th) n) ->
  n <> 0 ->
  MonitorExit self obj rt =
    Done true (with_lock_word rt obj (ThinLocked (thread_id_ th) (n - 1))).
Proof.
  intros Hth Hlw Hn. unfold MonitorExit. run. rewrite Hlw. run. rewrite Hth. run.
  rewrite Z.eqb_refl. simpl.
  destruct (Z.eqb_spec n 0) as [|_]; [contradiction|]. simpl.
  rewrite Hlw. reflexivity.
Qed.

Lemma MonitorExit_thin_release (rt : Runtime) (self : ThreadPtr) (obj : ObjPtr)
    (th : Thread) :
  threads rt !! self = Some th ->
  lock_words rt !! obj = Some (ThinLocked (thread_id_ th) 0) ->
  MonitorExit self obj rt = Done true (with_lock_word rt obj Unlocked).
Proof.
  intros Hth Hlw. unfold MonitorExit. run. rewrite Hlw. run. rewrite Hth. run.
  rewrite Z.eqb_refl. simpl. rewrite Hlw. reflexivity.
Qed.

Lemma MonitorExit_times_thin (self : ThreadPtr) (obj : ObjPtr) (th : Thread) (j : nat) :
  forall rt : Runtime,
    threads rt !! self = Some th ->
    lock_words rt !! obj = Some (ThinLocked (thread_id_ th) (Z.of_nat j)) ->
    MonitorExit_times (S j) self obj rt = Done true (with_lock_word rt obj Unlocked).
Proof.
  induction j as [|j IH]; intros rt Hth Hlw.
  - cbn [MonitorExit_times]. unfold bind at 1.
    rewrite (MonitorExit_thin_release rt self obj th Hth Hlw). reflexivity.
  - change (MonitorExit_times (S (S j)) self obj)
      with (ok <- MonitorExit self obj;;
            rest <- MonitorExit_times (S j) self obj;; ret (ok && rest)).
    unfold bind at 1.
    rewrite (MonitorExit_thin_decrement rt self obj th _ Hth Hlw) by lia.
    cbv beta iota. unfold bind at 1.
    rewrite (IH (with_lock_word rt obj (ThinLocked (thread_id_ th) (Z.of_nat (S j) - 1))) Hth).
    + rewrite with_lock_word_twice. reflexivity.
    + simpl. rewrite lookup_insert_eq. do 2 f_equal. lia.
Qed.

(** X2: on an unlocked object, k >= 1 enters of one thread that stay within
    the thin count, followed by k exits: every exit succeeds and the runtime
    is exactly as before the first enter. *)
Theorem thin_enters_and_exits_balance (kThinLockMaxCount : Z) (rt : Runtime)
    (fuel : nat) (self : ThreadPtr) (obj : ObjPtr) (th : Thread) (k : nat) :
  0 <= kThinLockMaxCount < 2^32 - 1 ->
  threads rt !! self = Some th ->
  lock_words rt !! obj = Some Unlocked ->
  (1 <= k)%nat ->
  Z.of_nat k - 1 <= kThinLockMaxCount ->
  (MonitorEnter_times kThinLockMaxCount k (S fuel) self obj;;;
   MonitorExit_times k self obj) rt = Done true rt.
Proof.
  intros Hrange Hth Hlw Hk Hmax.
  destruct k as [|j]; [lia|].
  cbn [MonitorEnter_times]. unfold bind at 1. unfold bind at 1.
  rewrite (MonitorEnter_unlocked kThinLockMaxCount rt fuel self obj th Hth Hlw).
  rewrite (MonitorEnter_times_recursive kThinLockMaxCount Hrange self obj th fuel j _ 0).
  - cbv beta iota. rewrite with_lock_word_twice, Z.add_0_l.
    rewrite (MonitorExit_times_thin self obj th j
               (with_lock_word rt obj (ThinLocked (thread_id_ th) (Z.of_nat j)))).
    + rewrite with_lock_word_twice, with_lock_word_same by exact Hlw. reflexivity.
    + exact Hth.
    + simpl. apply lookup_insert_eq.
  - exact Hth.
  - simpl. apply lookup_insert_eq.
  - lia.
  - lia.
Qed.

Lemma thin_enters_and_exits_balance_witness :
  (MonitorEnter_times 3 4 1 1 1;;; MonitorExit_times 4 1 1) (a_runtime Unlocked ∅)
    = Done true (a_runtime Unlocked ∅).
Proof.
  apply (thin_enters_and_exits_balance 3 (a_runtime Unlocked ∅) 0 1 1 (a_thread 7) 4);
    try reflexivity; lia.
Defined.

Lemma with_monitor_twice (rt : Runtime) (m : MonitorPtr) (a b : Monitor) :
  with_monitor (with_monitor rt m a) m b = with_monitor rt m b.
Proof.
  unfold with_monitor, set_monitors. simpl. rewrite insert_insert_eq. reflexivity.
Qed.

Lemma MonitorEnter_fat_owned (kThinLockMaxCount : Z) (rt : Runtime) (fuel : nat)
    (self : ThreadPtr) (obj : ObjPtr) (th : Thread) (m : MonitorPtr) (mon : Monitor) :
  threads rt !! self = Some th ->
  lock_words rt !! obj = Some (FatLocked m) ->
  monitors rt !! m = Some mon ->
  owner_ mon = Some self ->
  MonitorEnter kThinLockMaxCount (S fuel) self obj rt =
    Done tt (with_monitor rt m (set_lock_count (lock_count_ mon + 1) mon)).
Proof.
  intros Hth Hlw Hm Ho. unfold MonitorEnter. run. rewrite Hth. run. rewrite Hlw. run.
  rewrite Hm. run. rewrite Ho. rewrite bool_decide_eq_true_2 by reflexivity.
  run. rewrite Hm. reflexivity.
Qed.

Lemma MonitorExit_fat_decrement (rt : Runtime) (self : ThreadPtr) (obj : ObjPtr)
    (m : MonitorPtr) (mon : Monitor) :
  lock_words rt !! obj = Some (FatLocked m) ->
  monitors rt !! m = Some mon ->
  owner_ mon = Some self ->
  lock_count_ mon <> 0 ->
  MonitorExit self obj rt =
    Done true (with_monitor rt m (set_lock_count (lock_count_ mon - 1) mon)).
Proof.
  intros Hlw Hm Ho Hc. unfold MonitorExit, Monitor_Unlock. run. rewrite Hlw. run.
  rewrite Hm. run. rewrite Ho. rewrite bool_decide_eq_true_2 by reflexivity.
  rewrite bool_decide_eq_false_2 by exact Hc. run. rewrite Hm. reflexivity.
Qed.

Lemma MonitorExit_fat_release (rt : Runtime) (self : ThreadPtr) (obj : ObjPtr)
    (m : MonitorPtr) (mon : Monitor) :
  lock_words rt !! obj = Some (FatLocked m) ->
  monitors rt !! m = Some mon ->
  owner_ mon = Some self ->
  lock_count_ mon = 0 ->
  MonitorExit self obj rt =
    Done true (set_trace (trace rt ++ [ContendersSignal m])
                 (with_monitor rt m (set_locking None 0 (set_owner None mon)))).
Proof.
  intros Hlw Hm Ho Hc. unfold MonitorExit, Monitor_Unlock. run. rewrite Hlw. run.
  rewrite Hm. run. rewrite Ho. rewrite bool_decide_eq_true_2 by reflexivity.
  rewrite bool_decide_eq_true_2 by exact Hc. run. rewrite Hm. reflexivity.
Qed.

Lemma MonitorEnter_times_fat (kThinLockMaxCount : Z) (fuel : nat) (self : ThreadPtr)
    (obj : ObjPtr) (th : Thread) (m : MonitorPtr) (j : nat) :
  forall (rt : Runtime) (mon : Monitor),
    threads rt !! self = Some th ->
    lock_words rt !! obj = Some (FatLocked m) ->
    monitors rt !! m = Some mon ->
    owner_ mon = Some self ->
    MonitorEnter_times kThinLockMaxCount j (S fuel) self obj rt =
      Done tt (with_monitor rt m (set_lock_count (lock_count_ mon + Z.of_nat j) mon)).
Proof.
  induction j as [|j IH]; intros rt mon Hth Hlw Hm Ho.
  - simpl. rewrite Z.add_0_r. unfold ret, with_monitor.
    replace (set_lock_count (lock_count_ mon) mon) with mon by (destruct mon; reflexivity).
    rewrite insert_id by exact Hm. f_equal. destruct rt. reflexivity.
  - cbn [MonitorEnter_times]. unfold bind at 1.
    rewrite (MonitorEnter_fat_owned _ rt fuel self obj th m mon Hth Hlw Hm Ho).
    cbv beta iota.
    rewrite (IH (with_monitor rt m (set_lock_count (lock_count_ mon + 1) mon))
                (set_lock_count (lock_count_ mon + 1) mon) Hth Hlw).
    + rewrite with_monitor_twice. unfold set_lock_count.
      cbn [lock_count_ owner_ obj_ wait_set_ locking_method_ locking_dex_pc_].
      replace (lock_count_ mon + 1 + Z.of_nat j) with (lock_count_ mon + Z.of_nat (S j))
        by lia.
      reflexivity.
    + simpl. apply lookup_insert_eq.
    + exact Ho.
Qed.

Lemma MonitorExit_times_fat (self : ThreadPtr) (obj : ObjPtr) (m : MonitorPtr) (j : nat) :
  forall (rt : Runtime) (mon : Monitor),
    lock_words rt !! obj = Some (FatLocked m) ->
    monitors rt !! m = Some mon ->
    owner_ mon = Some self ->
    lock_count_ mon = Z.of_nat j ->
    MonitorExit_times (S j) self obj rt =
      Done true (set_trace (trace rt ++ [ContendersSignal m])
                   (with_monitor rt m
                      (set_locking None 0 (set_owner None (set_lock_count 0 mon))))).
Proof.
  induction j as [|j IH]; intros rt mon Hlw Hm Ho Hc.
  - cbn [MonitorExit_times]. unfold bind at 1.
    rewrite (MonitorExit_fat_release rt self obj m mon Hlw Hm Ho Hc).
    destruct mon; simpl in *; subst. reflexivity.
  - change (MonitorExit_times (S (S j)) self obj)
      with (ok <- MonitorExit self obj;;
            rest <- MonitorExit_times (S j) self obj;; ret (ok && rest)).
    unfold bind at 1.
    rewrite (MonitorExit_fat_decrement rt self obj m mon Hlw Hm Ho) by lia.
    cbv beta iota. unfold bind at 1.
    rewrite (IH (with_monitor rt m (set_lock_count (lock_count_ mon - 1) mon))
                (set_lock_count (lock_count_ mon - 1) mon) Hlw).
    + rewrite with_monitor_twice. reflexivity.
    + simpl. apply lookup_insert_eq.
    + exact Ho.
    + simpl. lia.
Qed.

Lemma MonitorEnter_times_app (kThinLockMaxCount : Z) (fuel : nat) (self : ThreadPtr)
    (obj : ObjPtr) (a b : nat) :
  forall rt rt1 : Runtime,
    MonitorEnter_times kThinLockMaxCount a fuel self obj rt = Done tt rt1 ->
    MonitorEnter_times kThinLockMaxCount (a + b) fuel self obj rt =
      MonitorEnter_times kThinLockMaxCount b fuel self obj rt1.
Proof.
  induction a as [|a IH]; intros rt rt1 H.
  - simpl in H. injection H as <-. reflexivity.
  - cbn [MonitorEnter_times Nat.add] in *. unfold bind in *.
    destruct (MonitorEnter kThinLockMaxCount fuel self obj rt) as [[] r| | |];
      try discriminate.
    apply IH, H.
Qed.

(** The enter that overflows the thin count, with the state it leaves. *)
Lemma MonitorEnter_overflow_state (kThinLockMaxCount : Z) (rt : Runtime) (fuel : nat)
    (self : ThreadPtr) (obj : ObjPtr) (th : Thread) :
  0 <= kThinLockMaxCount < 2^32 - 1 ->
  threads rt !! self = Some th ->
  lock_words rt !! obj = Some (ThinLocked (thread_id_ th) kThinLockMaxCount) ->
  allow_new_monitors_ rt = true ->
  exists meth pc,
    MonitorEnter kThinLockMaxCount (S (S fuel)) self obj rt =
      Done tt
        (mkRuntime (threads rt)
           (<[fresh (dom (monitors rt) : gset positive) :=
                mkMonitor (Some self) (kThinLockMaxCount + 1) obj None meth pc]>
              (monitors rt))
           (<[obj := FatLocked (fresh (dom (monitors rt) : gset positive))]> (lock_words rt))
           (thread_list rt)
           (fresh (dom (monitors rt) : gset positive) :: monitor_list rt)
           (allow_new_monitors_ rt) (lock_profiling_threshold_ rt)
           (max_spins_before_thin_lock_inflation rt) (milli_time rt) (trace rt)).
Proof.
  intros Hrange Hth Hlw Hallow.
  unfold MonitorEnter. run. rewrite Hth. run. rewrite Hlw. run.
  rewrite Z.eqb_refl. rewrite (Z.mod_small (kThinLockMaxCount + 1)) by lia.
  destruct (Z.leb_spec (kThinLockMaxCount + 1) kThinLockMaxCount) as [|_]; [lia|].
  unfold Inflate, Monitor_new, Monitor_Install. run.
  destruct (bool_decide (lock_profiling_threshold_ rt <> 0)) eqn:Hprof;
    repeat first [ rewrite Hth | rewrite Hlw | rewrite Hallow | rewrite Hprof
                 | rewrite lookup_insert_eq
                 | rewrite bool_decide_eq_true_2 by reflexivity
                 | progress simpl ];
    unfold set_monitors, set_monitor_list, set_lock_words; simpl;
    rewrite !insert_insert_eq, ?Hallow; do 2 eexists; reflexivity.
Qed.

(** X3: on an unlocked object, more enters of one thread than the thin count
    holds, followed by as many exits.  The enter that overflows inflates the
    lock and carries the count over, so every exit succeeds, and only the
    last one frees the monitor and signals a contender: the lock word points
    at the new, registered monitor, which has no owner and the count 0. *)
Theorem enters_and_exits_balance_across_inflation (kThinLockMaxCount : Z)
    (rt : Runtime) (fuel : nat) (self : ThreadPtr) (obj : ObjPtr) (th : Thread)
    (j : nat) :
  0 <= kThinLockMaxCount < 2^32 - 1 ->
  threads rt !! self = Some th ->
  lock_words rt !! obj = Some Unlocked ->
  allow_new_monitors_ rt = true ->
  (MonitorEnter_times kThinLockMaxCount (Z.to_nat kThinLockMaxCount + 2 + j)
                      (S (S fuel)) self obj;;;
   MonitorExit_times (Z.to_nat kThinLockMaxCount + 2 + j) self obj) rt =
    Done true (inflated_and_released rt obj (fresh (dom (monitors rt) : gset positive))).
Proof.
  intros Hrange Hth Hlw Hallow.
  set (m := fresh (dom (monitors rt) : gset positive)).
  set (rt1 := with_lock_word rt obj (ThinLocked (thread_id_ th) kThinLockMaxCount)).
  assert (H1 : MonitorEnter_times kThinLockMaxCount (S (Z.to_nat kThinLockMaxCount))
                 (S (S fuel)) self obj rt = Done tt rt1).
  { cbn [MonitorEnter_times]. unfold bind at 1.
    rewrite (MonitorEnter_unlocked kThinLockMaxCount rt (S fuel) self obj th Hth Hlw).
    cbv beta iota.
    rewrite (MonitorEnter_times_recursive kThinLockMaxCount Hrange self obj th (S fuel)
               (Z.to_nat kThinLockMaxCount)
               (with_lock_word rt obj (ThinLocked (thread_id_ th) 0)) 0).
    - rewrite with_lock_word_twice. unfold rt1. do 3 f_equal. lia.
    - exact Hth.
    - simpl. apply lookup_insert_eq.
    - lia.
    - lia. }
  destruct (MonitorEnter_overflow_state kThinLockMaxCount rt1 fuel self obj th Hrange)
    as (meth & pc & H2).
  { exact Hth. }
  { unfold rt1. simpl. apply lookup_insert_eq. }
  { exact Hallow. }
  unfold rt1 in H2 at 2. simpl in H2. fold m in H2.
  rewrite insert_insert_eq in H2.
  set (mon2 := mkMonitor (Some self) (kThinLockMaxCount + 1) obj None meth pc) in *.
  match type of H2 with _ = Done tt ?r => set (rt2 := r) in * end.
  assert (H3 : MonitorEnter_times kThinLockMaxCount (Z.to_nat kThinLockMaxCount + 2 + j)
                 (S (S fuel)) self obj rt =
               Done tt (with_monitor rt2 m
                          (set_lock_count (kThinLockMaxCount + 1 + Z.of_nat j) mon2))).
  { replace (Z.to_nat kThinLockMaxCount + 2 + j)%nat
      with (S (Z.to_nat kThinLockMaxCount) + S j)%nat by lia.
    rewrite (MonitorEnter_times_app _ _ _ _ _ _ _ _ H1).
    cbn [MonitorEnter_times]. unfold bind at 1. rewrite H2. cbv beta iota.
    apply (MonitorEnter_times_fat kThinLockMaxCount (S fuel) self obj th m j rt2 mon2).
    - exact Hth.
    - unfold rt2. simpl. apply lookup_insert_eq.
    - unfold rt2. simpl. apply lookup_insert_eq.
    - reflexivity. }
  unfold bind at 1. rewrite H3. cbv beta iota.
  replace (Z.to_nat kThinLockMaxCount + 2 + j)%nat
    with (S (Z.to_nat kThinLockMaxCount + 1 + j))%nat by lia.
  rewrite (MonitorExit_times_fat self obj m (Z.to_nat kThinLockMaxCount + 1 + j)
             (with_monitor rt2 m (set_lock_count (kThinLockMaxCount + 1 + Z.of_nat j) mon2))
             (set_lock_count (kThinLockMaxCount + 1 + Z.of_nat j) mon2)).
  - unfold inflated_and_released, with_monitor, set_monitors, set_trace, rt2. simpl.
    rewrite !insert_insert_eq. rewrite Hallow. reflexivity.
  - unfold rt2. simpl. apply lookup_insert_eq.
  - simpl. apply lookup_insert_eq.
  - reflexivity.
  - simpl. lia.
Qed.

Lemma enters_and_exits_balance_across_inflation_witness :
  (MonitorEnter_times 3 6 2 1 1;;; MonitorExit_times 6 1 1) (a_runtime Unlocked ∅)
    = Done true (inflated_and_released (a_runtime Unlocked ∅) 1
                   (fresh (dom (monitors (a_runtime Unlocked ∅)) : gset positive))).
Proof.
  apply (enters_and_exits_balance_across_inflation 3 (a_runtime Unlocked ∅) 0 1 1
           (a_thread 7) 1); try reflexivity; lia.
Defined.

(** ** The wait set: notifyAll, snapshot, append *)

Lemma Monitor_NotifyAll_loop_drains (self : ThreadPtr) (m : MonitorPtr) (l : list ThreadPtr) :
  forall (rt : Runtime) (mon : Monitor) (fuel : nat),
    monitors rt !! m = Some mon ->
    is_wait_set (threads rt) (wait_set_ mon) l = true ->
    (length l < fuel)%nat ->
    Monitor_NotifyAll_loop fuel self m rt = Done tt (notified_all rt m mon l).
Proof.
  induction l as [|t l IH]; intros rt mon fuel Hm Hchain Hfuel.
  - apply is_wait_set_nil in Hchain.
    destruct fuel as [|fuel]; [simpl in Hfuel; lia|].
    simpl. run. rewrite Hm. run. rewrite Hchain. f_equal.
    unfold notified_all. simpl. rewrite app_nil_r, <- Hchain, set_wait_set_same.
    rewrite insert_id by exact Hm. symmetry. apply runtime_eta.
  - pose proof (is_wait_set_NoDup _ _ _ Hchain) as Hnodup.
    apply NoDup_cons in Hnodup as [Hfresh _].
    apply is_wait_set_cons in Hchain as [Hhead (th & Ht & Hchain)].
    destruct fuel as [|fuel]; [simpl in Hfuel; lia|]. simpl in Hfuel.
    assert (Hsame : forall t', t' ∈ l ->
              <[t := set_wait_next None th]> (threads rt) !! t' = threads rt !! t').
    { intros t' Hin. apply lookup_insert_ne. intros ->. contradiction. }
    cbn [Monitor_NotifyAll_loop]. run. rewrite Hm. run. rewrite Hhead. rewrite Ht. run.
    rewrite Hm. run. rewrite Ht. run.
    match goal with
    | |- Monitor_NotifyAll_loop fuel self m ?r = _ => set (rt1 := r)
    end.
    rewrite (IH rt1 (set_wait_set (wait_next_ th) mon) fuel).
    + unfold notified_all, rt1. simpl.
      rewrite (alter_as_insert _ _ _ _ Ht), insert_insert_eq, <- app_assoc. reflexivity.
    + unfold rt1. simpl. apply lookup_insert_eq.
    + unfold rt1. simpl. rewrite (is_wait_set_frame _ _ _ _ Hsame). exact Hchain.
    + lia.
Qed.

(** X4: run by the owner on a monitor whose wait set is the chain [l],
    notifyAll unlinks every waiter and signals the condition variable of
    each, in the order of the wait set; the wait set is empty afterwards,
    and nothing else changes.  With an empty wait set it changes nothing. *)
Theorem Monitor_NotifyAll_drains (rt : Runtime) (fuel : nat) (self : ThreadPtr)
    (m : MonitorPtr) (mon : Monitor) (l : list ThreadPtr) :
  monitors rt !! m = Some mon ->
  owner_ mon = Some self ->
  is_wait_set (threads rt) (wait_set_ mon) l = true ->
  (length l < fuel)%nat ->
  Monitor_NotifyAll fuel self m rt = Done tt (notified_all rt m mon l)
  /\ (forall t, t ∈ l -> wait_next_ <$> threads (notified_all rt m mon l) !! t = Some None)
  /\ (forall t, t ∉ l -> threads (notified_all rt m mon l) !! t = threads rt !! t)
  /\ (l = [] -> notified_all rt m mon l = rt).
Proof.
  intros Hm Ho Hchain Hfuel. split; [|split; [|split]].
  - unfold Monitor_NotifyAll. run. rewrite Hm. run.
    rewrite bool_decide_eq_false_2 by (intros H; apply H; exact Ho).
    apply Monitor_NotifyAll_loop_drains; assumption.
  - intros t Hin. unfold notified_all. simpl.
    assert (Hex : forall t', t' ∈ l -> is_Some (threads rt !! t')).
    { clear -Hchain. revert Hchain. generalize (wait_set_ mon) as h.
      induction l as [|x l IH]; intros h Hchain t' Hin; [inversion Hin|].
      apply is_wait_set_cons in Hchain as [_ (th & Hx & Hchain)].
      apply elem_of_cons in Hin as [->|Hin]; [eauto | eapply IH; eassumption]. }
    clear -Hin Hex. revert Hin Hex. generalize (threads rt) as ts.
    induction l as [|x l IH]; intros ts Hin Hex; [inversion Hin|].
    unfold unlinked in *. simpl.
    destruct (decide (t ∈ l)) as [Hl|Hl].
    + apply IH; [exact Hl|]. intros t' Hin'.
      destruct (decide (x = t')) as [<-|Hne].
      * rewrite lookup_alter_eq. destruct (Hex x) as [th Hth]; [left|].
        rewrite Hth. eauto.
      * rewrite lookup_alter_ne by done. apply Hex. right. exact Hin'.
    + apply elem_of_cons in Hin as [->|Hin]; [|contradiction].
      fold (unlinked l (alter (set_wait_next None) x ts)).
      rewrite unlinked_lookup_other by exact Hl.
      rewrite lookup_alter_eq. destruct (Hex x) as [th Hth]; [left|].
      rewrite Hth. reflexivity.
  - intros t Hnotin. unfold notified_all. simpl.
    apply unlinked_lookup_other, Hnotin.
  - intros ->. apply is_wait_set_nil in Hchain.
    unfold notified_all. simpl. rewrite app_nil_r, <- Hchain, set_wait_set_same.
    rewrite insert_id by exact Hm. apply runtime_eta.
Qed.

Lemma Monitor_NotifyAll_drains_witness :
  let mon := mkMonitor (Some 1%positive) 0 1%positive (Some 2%positive) None 0 in
  Monitor_NotifyAll 4 1 5 waiting_runtime
    = Done tt (notified_all waiting_runtime 5 mon [2; 3; 4]%positive)
  /\ trace (notified_all waiting_runtime 5 mon [2; 3; 4]%positive)
     = [WaitCondSignal 2; WaitCondSignal 3; WaitCondSignal 4].
Proof.
  intros mon. split; [|reflexivity].
  apply (Monitor_NotifyAll_drains waiting_runtime 4 1 5 mon [2; 3; 4]%positive);
    try reflexivity; simpl; lia.
Defined.

Lemma MonitorInfo_waiters_lists (rt : Runtime) (l : list ThreadPtr) :
  forall (h : option ThreadPtr) (fuel : nat),
    is_wait_set (threads rt) h l = true ->
    (length l <= fuel)%nat ->
    MonitorInfo_waiters fuel h rt = Done l rt.
Proof.
  induction l as [|t l IH]; intros h fuel Hchain Hfuel.
  - apply is_wait_set_nil in Hchain. subst h. destruct fuel; reflexivity.
  - apply is_wait_set_cons in Hchain as [-> (th & Ht & Hchain)].
    destruct fuel as [|fuel]; [simpl in Hfuel; lia|].
    cbn [MonitorInfo_waiters]. run. rewrite Ht. run.
    rewrite (IH _ fuel Hchain) by (simpl in Hfuel; lia). reflexivity.
Qed.

(** X5: the snapshot of an object with a monitor lists the threads of the
    wait set in their order, with the monitor's owner, and leaves the
    runtime as it is. *)
Theorem MonitorInfo_lists_waiters (rt : Runtime) (fuel : nat) (obj : ObjPtr)
    (m : MonitorPtr) (mon : Monitor) (l : list ThreadPtr) :
  lock_words rt !! obj = Some (FatLocked m) ->
  monitors rt !! m = Some mon ->
  is_wait_set (threads rt) (wait_set_ mon) l = true ->
  (length l <= fuel)%nat ->
  exists info,
    MonitorInfo_new fuel obj rt = Done info rt
    /\ MonitorInfo.waiters_ info = l
    /\ MonitorInfo.owner_ info = owner_ mon.
Proof.
  intros Hlw Hm Hchain Hfuel. unfold MonitorInfo_new. run. rewrite Hlw. run.
  rewrite Hm. run. rewrite (MonitorInfo_waiters_lists rt l _ fuel Hchain Hfuel).
  eexists. split; [reflexivity|]. auto.
Qed.

Lemma MonitorInfo_lists_waiters_witness :
  exists info,
    MonitorInfo_new 3 1 waiting_runtime = Done info waiting_runtime
    /\ MonitorInfo.waiters_ info = [2; 3; 4]%positive
    /\ MonitorInfo.owner_ info = Some 1%positive.
Proof.
  apply (MonitorInfo_lists_waiters waiting_runtime 3 1 5
           (mkMonitor (Some 1%positive) 0 1%positive (Some 2%positive) None 0)
           [2; 3; 4]%positive); try reflexivity; simpl; lia.
Defined.

(** ** The wait set: remove *)

Lemma is_wait_set_threads ts h l t :
  is_wait_set ts h l = true -> t ∈ l -> is_Some (ts !! t).
Proof.
  revert h. induction l as [|x l IH]; intros h Hchain Hin; [inversion Hin|].
  apply is_wait_set_cons in Hchain as [_ (th & Hx & Hchain)].
  apply elem_of_cons in Hin as [->|Hin]; [eauto | eapply IH; eassumption].
Qed.

Lemma RemoveFromWaitSet_loop_absent (rt : Runtime) (thread : ThreadPtr)
    (l : list ThreadPtr) :
  forall (t0 : ThreadPtr) (fuel : nat),
    is_wait_set (threads rt) (Some t0) (t0 :: l) = true ->
    thread ∉ l ->
    (length l < fuel)%nat ->
    RemoveFromWaitSet_loop fuel t0 thread rt = Done tt rt.
Proof.
  induction l as [|t1 l IH]; intros t0 fuel Hchain Hnotin Hfuel;
    (destruct fuel as [|fuel]; [simpl in Hfuel; lia|]);
    apply is_wait_set_cons in Hchain as [_ (th & Ht & Hchain)].
  - apply is_wait_set_nil in Hchain. simpl. run. rewrite Ht. run. rewrite Hchain.
    reflexivity.
  - pose proof Hchain as Hrest. apply is_wait_set_cons in Hchain as [Hnext _].
    cbn [RemoveFromWaitSet_loop]. run. rewrite Ht. run. rewrite Hnext.
    rewrite bool_decide_eq_false_2 by (intros ->; apply Hnotin; left).
    rewrite Hnext in Hrest. apply (IH t1 fuel Hrest).
    + intros Hin. apply Hnotin. right. exact Hin.
    + simpl in Hfuel. lia.
Qed.

Lemma RemoveFromWaitSet_loop_unlinks (rt : Runtime) (thread : ThreadPtr) (thr : Thread)
    (b : list ThreadPtr) (a : list ThreadPtr) :
  forall (t0 : ThreadPtr) (fuel : nat),
    is_wait_set (threads rt) (Some t0) (t0 :: a ++ thread :: b) = true ->
    threads rt !! thread = Some thr ->
    (length a < fuel)%nat ->
    RemoveFromWaitSet_loop fuel t0 thread rt =
      Done tt (set_threads
                 (alter (set_wait_next None) thread
                    (alter (set_wait_next (wait_next_ thr)) (List.last a t0) (threads rt)))
                 rt).
Proof.
  induction a as [|t1 a IH]; intros t0 fuel Hchain Hthr Hfuel;
    (destruct fuel as [|fuel]; [simpl in Hfuel; lia|]);
    pose proof (is_wait_set_NoDup _ _ _ Hchain) as Hnodup;
    apply is_wait_set_cons in Hchain as [_ (th & Ht & Hchain)].
  - simpl app in *. apply is_wait_set_cons in Hchain as [Hnext _].
    assert (t0 <> thread).
    { apply NoDup_cons in Hnodup as [Hn _]. intros ->. apply Hn. left. }
    cbn [RemoveFromWaitSet_loop List.last]. run. rewrite Ht. run. rewrite Hnext.
    rewrite bool_decide_eq_true_2 by reflexivity. rewrite Hthr. run. rewrite Ht. run.
    rewrite lookup_insert_ne by done. rewrite Hthr. run.
    rewrite (alter_as_insert _ _ _ _ Ht).
    rewrite (alter_as_insert (<[t0:=set_wait_next (wait_next_ thr) th]> (threads rt))
               thread thr) by (rewrite lookup_insert_ne by done; exact Hthr).
    reflexivity.
  - pose proof Hchain as Hrest. simpl app in Hchain.
    apply is_wait_set_cons in Hchain as [Hnext _].
    assert (t1 <> thread).
    { apply NoDup_cons in Hnodup as [_ Hn]. simpl in Hn.
      apply NoDup_cons in Hn as [Hn _]. intros ->. apply Hn.
      apply elem_of_app. right. left. }
    rewrite last_cons_default.
    cbn [RemoveFromWaitSet_loop]. run. rewrite Ht. run. rewrite Hnext.
    rewrite bool_decide_eq_false_2 by done.
    rewrite Hnext in Hrest. apply (IH t1 fuel Hrest Hthr). simpl in Hfuel. lia.
Qed.

Lemma is_wait_set_unlink ts (thread : ThreadPtr) (thr : Thread) (b a : list ThreadPtr) :
  forall t0 : ThreadPtr,
    is_wait_set ts (Some t0) (t0 :: a ++ thread :: b) = true ->
    ts !! thread = Some thr ->
    is_wait_set
      (alter (set_wait_next None) thread
         (alter (set_wait_next (wait_next_ thr)) (List.last a t0) ts))
      (Some t0) (t0 :: a ++ b) = true.
Proof.
  induction a as [|t1 a IH]; intros t0 Hchain Hthr;
    pose proof (is_wait_set_NoDup _ _ _ Hchain) as Hnodup;
    apply is_wait_set_cons in Hchain as [_ (th & Ht & Hchain)];
    apply NoDup_cons in Hnodup as [Hn0 Hnodup].
  - simpl app in *. apply is_wait_set_cons in Hchain as [Hnext (thr' & Hthr' & Hchain)].
    rewrite Hthr in Hthr'. injection Hthr' as <-.
    apply NoDup_cons in Hnodup as [Hn1 _].
    assert (t0 <> thread) by (intros ->; apply Hn0; left).
    apply is_wait_set_cons. split; [reflexivity|].
    exists (set_wait_next (wait_next_ thr) th). split.
    + simpl. rewrite lookup_alter_ne by done. rewrite lookup_alter_eq, Ht. reflexivity.
    + simpl. rewrite <- Hchain. apply is_wait_set_frame. intros t Hin.
      rewrite !lookup_alter_ne; [reflexivity | |].
      * intros ->. apply Hn0. right. exact Hin.
      * intros ->. contradiction.
  - pose proof Hchain as Hrest. simpl app in Hchain.
    apply is_wait_set_cons in Hchain as [Hnext _].
    rewrite Hnext in Hrest. rewrite last_cons_default.
    assert (t0 <> thread).
    { intros ->. apply Hn0. simpl. right. apply elem_of_app. right. left. }
    assert (t0 <> List.last a t1).
    { intros ->. apply Hn0. simpl.
      pose proof (last_cons_elem t1 a) as Hin.
      apply elem_of_cons in Hin as [->|Hin]; [left|].
      right. apply elem_of_app. left. exact Hin. }
    change ((t0 :: (t1 :: a) ++ b)) with (t0 :: t1 :: a ++ b).
    apply is_wait_set_cons. split; [reflexivity|].
    exists th. split.
    + rewrite !lookup_alter_ne by done. exact Ht.
    + rewrite Hnext. apply (IH t1 Hrest Hthr).
Qed.

Lemma same_but_wait_next_alter (ts : gmap positive Thread) k x t :
  set_wait_next None <$> alter (set_wait_next x) k ts !! t
  = set_wait_next None <$> ts !! t.
Proof.
  destruct (decide (k = t)) as [->|Hne].
  - rewrite lookup_alter_eq. destruct (ts !! t); reflexivity.
  - rewrite lookup_alter_ne by done. reflexivity.
Qed.

Lemma same_but_wait_next_insert (ts : gmap positive Thread) k th x t :
  ts !! k = Some th ->
  set_wait_next None <$> <[k := set_wait_next x th]> ts !! t
  = set_wait_next None <$> ts !! t.
Proof.
  intros Hk. rewrite <- (alter_as_insert _ _ _ _ Hk). apply same_but_wait_next_alter.
Qed.

(** What [RemoveFromWaitSet] does, with all it leaves alone. *)
Lemma RemoveFromWaitSet_spec (rt : Runtime) (fuel : nat) (m : MonitorPtr)
    (mon : Monitor) (l : list ThreadPtr) (thread : ThreadPtr) :
  monitors rt !! m = Some mon ->
  is_wait_set (threads rt) (wait_set_ mon) l = true ->
  (length l <= fuel)%nat ->
  (thread ∉ l -> RemoveFromWaitSet fuel m thread rt = Done tt rt)
  /\ (forall a b, l = a ++ thread :: b ->
        exists rt' mon',
          RemoveFromWaitSet fuel m thread rt = Done tt rt'
          /\ monitors rt' !! m = Some mon'
          /\ is_wait_set (threads rt') (wait_set_ mon') (a ++ b) = true
          /\ wait_next_ <$> threads rt' !! thread = Some None
          /\ mon' = set_wait_set (wait_set_ mon') mon
          /\ (forall t, set_wait_next None <$> threads rt' !! t
                        = set_wait_next None <$> threads rt !! t)
          /\ lock_words rt' = lock_words rt
          /\ trace rt' = trace rt).
Proof.
  intros Hm Hchain Hfuel. split.
  - intros Hnotin. unfold RemoveFromWaitSet. run. rewrite Hm. run.
    destruct l as [|t0 l].
    + apply is_wait_set_nil in Hchain. rewrite Hchain. reflexivity.
    + pose proof Hchain as Hc. apply is_wait_set_cons in Hc as [Hhead _].
      rewrite Hhead. rewrite Hhead in Hchain.
      rewrite bool_decide_eq_false_2 by (intros ->; apply Hnotin; left).
      apply (RemoveFromWaitSet_loop_absent rt thread l t0 fuel Hchain).
      * intros Hin. apply Hnotin. right. exact Hin.
      * simpl in Hfuel. lia.
  - intros a b ->.
    pose proof (is_wait_set_NoDup _ _ _ Hchain) as Hnodup.
    destruct (is_wait_set_threads _ _ _ thread Hchain) as [thr Hthr].
    { apply elem_of_app. right. left. }
    unfold RemoveFromWaitSet. run. rewrite Hm. run.
    destruct a as [|t0 a].
    + simpl app in *. pose proof Hchain as Hc.
      apply is_wait_set_cons in Hc as [Hhead (thr' & Hthr' & Hrest)].
      rewrite Hthr in Hthr'. injection Hthr' as <-.
      apply NoDup_cons in Hnodup as [Hn _].
      rewrite Hhead. rewrite bool_decide_eq_true_2 by reflexivity.
      rewrite Hthr. run. rewrite Hm. run. rewrite Hthr. run.
      eexists _, _. split; [reflexivity|]. simpl.
      rewrite !lookup_insert_eq. split; [reflexivity|]. simpl.
      split; [|split; [reflexivity|split; [reflexivity|split; [|auto]]]].
      * rewrite <- Hrest. apply is_wait_set_frame. intros t Hin.
        apply lookup_insert_ne. intros ->. contradiction.
      * intros t. apply same_but_wait_next_insert, Hthr.
    + pose proof Hchain as Hc. apply is_wait_set_cons in Hc as [Hhead _].
      rewrite Hhead. rewrite Hhead in Hchain.
      assert (t0 <> thread).
      { apply NoDup_cons in Hnodup as [Hn _]. intros ->. apply Hn.
        apply elem_of_app. right. left. }
      rewrite bool_decide_eq_false_2 by done.
      change ((t0 :: a) ++ thread :: b) with (t0 :: a ++ thread :: b) in *.
      rewrite (RemoveFromWaitSet_loop_unlinks rt thread thr b a t0 fuel Hchain Hthr)
        by (simpl in Hfuel; rewrite length_app in Hfuel; simpl in Hfuel; lia).
      eexists _, mon. split; [reflexivity|]. simpl.
      split; [exact Hm|]. rewrite Hhead.
      split; [apply (is_wait_set_unlink _ _ _ _ _ _ Hchain Hthr)|].
      split; [|split; [destruct mon; simpl in *; subst; reflexivity
                      |split; [|auto]]].
      * rewrite lookup_alter_eq.
        destruct (decide (List.last a t0 = thread)) as [Heq|Hne].
        -- rewrite Heq, lookup_alter_eq, Hthr. reflexivity.
        -- rewrite lookup_alter_ne by done. rewrite Hthr. reflexivity.
      * intros t. rewrite !same_but_wait_next_alter. reflexivity.
Qed.

(** X6: [RemoveFromWaitSet] takes the thread out of the wait set and clears
    its link; the other threads stay chained in their order, and the owner
    and the count of the monitor, the lock words and the trace are as
    before.  For a thread that is not in the wait set it changes nothing. *)
Theorem RemoveFromWaitSet_unlinks (rt : Runtime) (fuel : nat) (m : MonitorPtr)
    (mon : Monitor) (l : list ThreadPtr) (thread : ThreadPtr) :
  monitors rt !! m = Some mon ->
  is_wait_set (threads rt) (wait_set_ mon) l = true ->
  (length l <= fuel)%nat ->
  (thread ∉ l -> RemoveFromWaitSet fuel m thread rt = Done tt rt)
  /\ (forall a b, l = a ++ thread :: b ->
        exists rt' mon',
          RemoveFromWaitSet fuel m thread rt = Done tt rt'
          /\ monitors rt' !! m = Some mon'
          /\ is_wait_set (threads rt') (wait_set_ mon') (a ++ b) = true
          /\ wait_next_ <$> threads rt' !! thread = Some None
          /\ owner_ mon' = owner_ mon
          /\ lock_count_ mon' = lock_count_ mon
          /\ lock_words rt' = lock_words rt
          /\ trace rt' = trace rt).
Proof.
  intros Hm Hchain Hfuel.
  destruct (RemoveFromWaitSet_spec rt fuel m mon l thread Hm Hchain Hfuel)
    as [Habsent Hpresent].
  split; [exact Habsent|].
  intros a b Hl.
  destruct (Hpresent a b Hl) as (rt' & mon' & H1 & H2 & H3 & H4 & H5 & _ & H7 & H8).
  assert (owner_ mon' = owner_ mon) by (rewrite H5; reflexivity).
  assert (lock_count_ mon' = lock_count_ mon) by (rewrite H5; reflexivity).
  exists rt', mon'. auto 10.
Qed.

Lemma RemoveFromWaitSet_unlinks_witness :
  RemoveFromWaitSet 3 5 1 waiting_runtime = Done tt waiting_runtime
  /\ exists rt' mon',
       RemoveFromWaitSet 3 5 3 waiting_runtime = Done tt rt'
       /\ monitors rt' !! 5%positive = Some mon'
       /\ is_wait_set (threads rt') (wait_set_ mon') [2; 4]%positive = true
       /\ wait_next_ <$> threads rt' !! 3%positive = Some None.
Proof.
  destruct (RemoveFromWaitSet_unlinks waiting_runtime 3 5
              (mkMonitor (Some 1%positive) 0 1%positive (Some 2%positive) None 0)
              [2; 3; 4]%positive 1 eq_refl eq_refl) as [Habsent _]; [simpl; lia|].
  destruct (RemoveFromWaitSet_unlinks waiting_runtime 3 5
              (mkMonitor (Some 1%positive) 0 1%positive (Some 2%positive) None 0)
              [2; 3; 4]%positive 3 eq_refl eq_refl) as [_ Hpresent]; [simpl; lia|].
  split.
  - apply Habsent. vm_compute. intros H.
    repeat (apply elem_of_cons in H as [H|H]; [discriminate|]). inversion H.
  - destruct (Hpresent [2%positive] [4%positive] eq_refl)
      as (rt' & mon' & H1 & H2 & H3 & H4 & _).
    exists rt', mon'. auto.
Defined.

(** ** The wait set: append, and append then remove *)

(** X7: [AppendToWaitSet] puts the thread behind the last thread of the wait
    set: the threads that were waiting keep their order and the new one
    comes last.  The owner and the count of the monitor, the lock words and
    the trace are as before. *)
Theorem AppendToWaitSet_appends_last (rt : Runtime) (fuel : nat) (m : MonitorPtr)
    (mon : Monitor) (l : list ThreadPtr) (thread : ThreadPtr) (thr : Thread) :
  monitors rt !! m = Some mon ->
  is_wait_set (threads rt) (wait_set_ mon) l = true ->
  thread ∉ l ->
  threads rt !! thread = Some thr ->
  wait_next_ thr = None ->
  (length l <= fuel)%nat ->
  exists rt' mon',
    AppendToWaitSet fuel m thread rt = Done tt rt'
    /\ monitors rt' !! m = Some mon'
    /\ is_wait_set (threads rt') (wait_set_ mon') (l ++ [thread]) = true
    /\ owner_ mon' = owner_ mon
    /\ lock_count_ mon' = lock_count_ mon
    /\ lock_words rt' = lock_words rt
    /\ trace rt' = trace rt.
Proof.
  intros Hm Hchain Hnotin Hthr Hnext Hfuel.
  destruct (AppendToWaitSet_push_back rt fuel m mon l thread thr
              Hm Hchain Hnotin Hthr Hnext Hfuel)
    as [Hrun (mon' & Hm' & Hchain' & Ho & Hc & _)].
  exists (appended rt m mon l thread), mon'.
  repeat (split; [assumption|]).
  destruct l; split; reflexivity.
Qed.

Lemma AppendToWaitSet_appends_last_witness :
  exists rt' mon',
    AppendToWaitSet 3 5 1 waiting_runtime = Done tt rt'
    /\ monitors rt' !! 5%positive = Some mon'
    /\ is_wait_set (threads rt') (wait_set_ mon') [2; 3; 4; 1]%positive = true.
Proof.
  destruct (AppendToWaitSet_appends_last waiting_runtime 3 5
              (mkMonitor (Some 1%positive) 0 1%positive (Some 2%positive) None 0)
              [2; 3; 4]%positive 1 (a_thread 7) eq_refl eq_refl)
    as (rt' & mon' & H1 & H2 & H3 & _); try reflexivity; try (simpl; lia).
  - vm_compute. intros H.
    repeat (apply elem_of_cons in H as [H|H]; [discriminate|]). inversion H.
  - exists rt', mon'. auto.
Defined.

Lemma alter_id_at (ts : gmap positive Thread) t th f :
  ts !! t = Some th -> f th = th -> alter f t ts = ts.
Proof.
  intros Ht Hf. rewrite (alter_as_insert _ _ _ _ Ht), Hf. apply insert_id, Ht.
Qed.

Lemma set_wait_next_same (th : Thread) : set_wait_next (wait_next_ th) th = th.
Proof. destruct th. reflexivity. Qed.

Lemma is_wait_set_last_link ts (l : list ThreadPtr) :
  forall t0 : ThreadPtr,
    is_wait_set ts (Some t0) (t0 :: l) = true ->
    exists thl, ts !! List.last l t0 = Some thl /\ wait_next_ thl = None.
Proof.
  induction l as [|t1 l IH]; intros t0 Hchain;
    apply is_wait_set_cons in Hchain as [_ (th & Ht & Hchain)].
  - apply is_wait_set_nil in Hchain. simpl. eauto.
  - rewrite last_cons_default. pose proof Hchain as Hrest.
    apply is_wait_set_cons in Hchain as [Hnext _]. rewrite Hnext in Hrest.
    apply (IH t1 Hrest).
Qed.

Lemma AppendToWaitSet_then_remove (rt : Runtime) (fuel fuel' : nat) (m : MonitorPtr)
    (mon : Monitor) (l : list ThreadPtr) (thread : ThreadPtr) (thr : Thread) :
  monitors rt !! m = Some mon ->
  is_wait_set (threads rt) (wait_set_ mon) l = true ->
  thread ∉ l ->
  threads rt !! thread = Some thr ->
  wait_next_ thr = None ->
  (length l <= fuel)%nat ->
  (length l <= fuel')%nat ->
  RemoveFromWaitSet fuel' m thread (appended rt m mon l thread) = Done tt rt.
Proof.
  intros Hm Hchain Hnotin Hthr Hnext Hfuel Hfuel'.
  destruct l as [|t0 l].
  - apply is_wait_set_nil in Hchain.
    unfold RemoveFromWaitSet, appended. crank. rewrite Hnext.
    rewrite insert_insert_eq.
    replace (set_wait_set None (set_wait_set (Some thread) mon)) with mon
      by (destruct mon; simpl in *; subst; reflexivity).
    replace (set_wait_next None thr) with thr
      by (destruct thr; simpl in *; subst; reflexivity).
    rewrite !insert_id by assumption. f_equal. destruct rt. reflexivity.
  - pose proof Hchain as Hc. apply is_wait_set_cons in Hc as [Hhead _].
    rewrite Hhead in Hchain.
    destruct (is_wait_set_last_link _ _ _ Hchain) as (thl & Hl & Hlnext).
    assert (Hne : List.last l t0 <> thread).
    { intros Heq. apply Hnotin. rewrite <- Heq. apply last_cons_elem. }
    assert (t0 <> thread) by (intros ->; apply Hnotin; left).
    pose proof (is_wait_set_snoc _ _ _ thread thr Hchain Hnotin Hthr Hnext) as Hsnoc.
    cbn iota in Hsnoc.
    unfold RemoveFromWaitSet, appended. run. rewrite Hm. run. rewrite Hhead.
    rewrite bool_decide_eq_false_2 by done.
    change ((t0 :: l) ++ [thread]) with (t0 :: l ++ thread :: []) in Hsnoc.
    match goal with
    | |- RemoveFromWaitSet_loop _ _ _ ?r = _ =>
        rewrite (RemoveFromWaitSet_loop_unlinks r thread thr [] l t0 fuel' Hsnoc)
    end.
    + simpl. rewrite Hnext.
      rewrite (alter_as_insert _ _ _ _ Hl).
      rewrite (alter_as_insert (<[List.last l t0 := _]> (threads rt)) (List.last l t0)
                 (set_wait_next (Some thread) thl)) by apply lookup_insert_eq.
      rewrite insert_insert_eq.
      replace (set_wait_next None (set_wait_next (Some thread) thl)) with thl
        by (destruct thl; simpl in *; subst; reflexivity).
      rewrite (insert_id _ _ _ Hl).
      rewrite (alter_id_at _ _ thr) by (try assumption; destruct thr; simpl in *; subst; reflexivity).
      destruct rt. reflexivity.
    + simpl. rewrite lookup_alter_ne by done. exact Hthr.
    + simpl in Hfuel'. lia.
Qed.

(** X8: a thread appended to the wait set and removed again leaves the
    runtime exactly as it was. *)
Theorem AppendToWaitSet_RemoveFromWaitSet (rt : Runtime) (fuel fuel' : nat)
    (m : MonitorPtr) (mon : Monitor) (l : list ThreadPtr) (thread : ThreadPtr)
    (thr : Thread) :
  monitors rt !! m = Some mon ->
  is_wait_set (threads rt) (wait_set_ mon) l = true ->
  thread ∉ l ->
  threads rt !! thread = Some thr ->
  wait_next_ thr = None ->
  (length l <= fuel)%nat ->
  (length l <= fuel')%nat ->
  (AppendToWaitSet fuel m thread;;; RemoveFromWaitSet fuel' m thread) rt = Done tt rt.
Proof.
  intros Hm Hchain Hnotin Hthr Hnext Hfuel Hfuel'.
  unfold bind.
  rewrite (proj1 (AppendToWaitSet_push_back rt fuel m mon l thread thr
                    Hm Hchain Hnotin Hthr Hnext Hfuel)).
  eapply AppendToWaitSet_then_remove; eassumption.
Qed.

Lemma AppendToWaitSet_RemoveFromWaitSet_witness :
  (AppendToWaitSet 3 5 1;;; RemoveFromWaitSet 3 5 1) waiting_runtime
    = Done tt waiting_runtime.
Proof.
  apply (AppendToWaitSet_RemoveFromWaitSet waiting_runtime 3 3 5
           (mkMonitor (Some 1%positive) 0 1%positive (Some 2%positive) None 0)
           [2; 3; 4]%positive 1 (a_thread 7)); try reflexivity; try (simpl; lia).
  vm_compute. intros H.
  repeat (apply elem_of_cons in H as [H|H]; [discriminate|]). inversion H.
Defined.

(** ** Wait: release, park, come back *)

Lemma is_wait_set_links ts ts' h l :
  (forall t, t ∈ l -> wait_next_ <$> ts' !! t = wait_next_ <$> ts !! t) ->
  is_wait_set ts' h l = is_wait_set ts h l.
Proof.
  revert h. induction l as [|t l IH]; intros h Hsame; [reflexivity|].
  simpl. f_equal. specialize (Hsame t (list_elem_of_here _ _)) as Ht.
  destruct (ts' !! t) as [th'|], (ts !! t) as [th|]; simpl in Ht; try discriminate;
    [|reflexivity].
  injection Ht as ->. apply IH. intros t' Hin. apply Hsame. right. exact Hin.
Qed.

Lemma Monitor_Wait_finish_spec (rt : Runtime) (fuel : nat) (self : ThreadPtr)
    (m : MonitorPtr) (mon : Monitor) (th : Thread) (l l' : list ThreadPtr)
    (c : Z) (meth : option MethodPtr) (pc : Z) (b wi : bool) :
  threads rt !! self = Some th ->
  monitors rt !! m = Some mon ->
  owner_ mon = None ->
  lock_count_ mon = 0 ->
  is_wait_set (threads rt) (wait_set_ mon) l = true ->
  (length l <= S fuel)%nat ->
  ((self ∉ l) /\ l' = l) \/ (exists a b', l = a ++ self :: b' /\ l' = a ++ b') ->
  exists rt' th',
    Monitor_Wait_finish (S fuel) self m c meth pc b wi rt = Done tt rt'
    /\ monitors rt' !! m = Some (mkMonitor (Some self) c (obj_ mon) (head l') meth pc)
    /\ is_wait_set (threads rt') (head l') l' = true
    /\ threads rt' !! self = Some th'
    /\ state_ th' = kRunnable
    /\ wait_monitor_ th' = None
    /\ interrupted_ th' = (if wi then false else interrupted_ th)
    /\ exception_ th' = (if wi && b then Some InterruptedException else exception_ th)
    /\ (self ∈ l -> wait_next_ th' = None)
    /\ lock_words rt' = lock_words rt
    /\ trace rt' = trace rt.
Proof.
  intros Hth Hm Ho Hc Hchain Hfuel Hl.
  unfold Monitor_Wait_finish. cbn [Monitor_Lock].
  run. rewrite Hth. run. rewrite lookup_insert_eq. run. rewrite Hm. run.
  rewrite Ho. run. rewrite Hm. run.
  rewrite (bool_decide_eq_true_2 _ Hc). run.
  set (th1 := set_wait_monitor None (set_state kRunnable th)).
  set (monR := mkMonitor (Some self) c (obj_ mon) (wait_set_ mon) meth pc).
  destruct (bool_decide (lock_profiling_threshold_ rt <> 0)); crank;
    rewrite ?insert_insert_eq.
  all: match goal with |- context [RemoveFromWaitSet _ _ _ ?r] => set (rt2 := r) end.
  all: assert (Hm2 : monitors rt2 !! m = Some monR)
         by (unfold rt2; simpl; rewrite lookup_insert_eq; reflexivity).
  all: assert (Hth2 : threads rt2 !! self = Some th1)
         by (unfold rt2; simpl; apply lookup_insert_eq).
  all: assert (Hlinks : forall t, wait_next_ <$> threads rt2 !! t
                                  = wait_next_ <$> threads rt !! t)
         by (intros t; unfold rt2; simpl; destruct (decide (self = t)) as [<-|Hd];
             [rewrite lookup_insert_eq, Hth; reflexivity
             |rewrite lookup_insert_ne by done; reflexivity]).
  all: assert (Hchain2 : is_wait_set (threads rt2) (wait_set_ monR) l = true)
         by (rewrite (is_wait_set_links (threads rt)); [exact Hchain | auto]).
  all: assert (Hrem : exists rt3 th3,
           RemoveFromWaitSet (S fuel) m self rt2 = Done tt rt3
           /\ monitors rt3 !! m
              = Some (mkMonitor (Some self) c (obj_ mon) (head l') meth pc)
           /\ is_wait_set (threads rt3) (head l') l' = true
           /\ threads rt3 !! self = Some th3
           /\ set_wait_next None th3 = set_wait_next None th1
           /\ (self ∈ l -> wait_next_ th3 = None)
           /\ lock_words rt3 = lock_words rt
           /\ trace rt3 = trace rt).
  1, 3: destruct (RemoveFromWaitSet_spec rt2 (S fuel) m monR l self Hm2 Hchain2 Hfuel)
      as [Habsent Hpresent];
    destruct Hl as [[Hnotin ->]|(a & b' & -> & ->)];
    [ exists rt2, th1; rewrite (Habsent Hnotin);
      rewrite <- (is_wait_set_head _ _ _ Hchain2);
      split; [reflexivity|]; split; [exact Hm2|]; split; [exact Hchain2|];
      split; [exact Hth2|]; split; [reflexivity|];
      split; [intros; contradiction|]; split; reflexivity
    | destruct (Hpresent a b' eq_refl)
        as (rt3 & mon3 & H1 & H2 & H3 & H4 & H5 & H6 & H7 & H8);
      destruct (threads rt3 !! self) as [th3|] eqn:Hth3; [|discriminate];
      exists rt3, th3; rewrite H1;
      pose proof (is_wait_set_head _ _ _ H3) as Hhd;
      split; [reflexivity|];
      split; [rewrite H2, H5, Hhd; reflexivity|];
      split; [rewrite <- Hhd; exact H3|];
      split; [exact Hth3|];
      split; [specialize (H6 self); rewrite Hth3, Hth2 in H6;
              apply (inj Some (set_wait_next None th3) (set_wait_next None th1)), H6|];
      split; [intros _; apply (inj Some (wait_next_ th3) None), H4|];
      split; [exact H7 | exact H8] ].
  all: destruct Hrem as (rt3 & th3 & Hr & Hm3 & Hchain3 & Hth3 & Hsame & Hnext3 & Hlw3 & Htr3).
  all: rewrite Hr.
  all: assert (Hst : state_ th3 = kRunnable)
         by (apply (f_equal state_) in Hsame; exact Hsame).
  all: assert (Hwm : wait_monitor_ th3 = None)
         by (apply (f_equal wait_monitor_) in Hsame; exact Hsame).
  all: assert (Hin : interrupted_ th3 = interrupted_ th)
         by (apply (f_equal interrupted_) in Hsame; exact Hsame).
  all: assert (Hex : exception_ th3 = exception_ th)
         by (apply (f_equal exception_) in Hsame; exact Hsame).
  all: assert (Hkeep : forall f : Thread -> Thread,
           (forall x, wait_next_ (f x) = wait_next_ x) ->
           is_wait_set (<[self := f th3]> (threads rt3)) (head l') l' = true)
         by (intros f Hf; rewrite (is_wait_set_links (threads rt3)); [exact Hchain3|];
             intros t _; destruct (decide (self = t)) as [<-|Hd];
             [rewrite lookup_insert_eq, Hth3; simpl; rewrite Hf; reflexivity
             |rewrite lookup_insert_ne by done; reflexivity]).
  all: destruct wi, b; crank; rewrite ?insert_insert_eq;
       eexists _, _; (split; [reflexivity|]); simpl; rewrite ?lookup_insert_eq;
       (split; [exact Hm3|]);
       (split; [first [exact Hchain3 | apply (Hkeep (fun x => _)); intros []; reflexivity]|]);
       (split; [first [exact Hth3 | reflexivity]|]); simpl; auto 10.
Qed.

Lemma Monitor_Wait_parks_spec (rt : Runtime) (fuel : nat) (self : ThreadPtr)
    (m : MonitorPtr) (mon : Monitor) (th : Thread) (l : list ThreadPtr)
    (ms ns : Z) (b : bool) (why : ThreadState) :
  threads rt !! self = Some th ->
  monitors rt !! m = Some mon ->
  owner_ mon = Some self ->
  is_wait_set (threads rt) (wait_set_ mon) l = true ->
  self ∉ l ->
  wait_next_ th = None ->
  interrupted_ th = false ->
  0 <= ms ->
  0 <= ns <= 999999 ->
  (length l <= fuel)%nat ->
  let why' := if bool_decide (why = kTimedWaiting) && ((ms =? 0) && (ns =? 0))
              then kWaiting else why in
  exists rt',
    Monitor_Wait fuel self m ms ns b why rt =
      Parked (WaitFrame m (lock_count_ mon) (locking_method_ mon) (locking_dex_pc_ mon) b)
             rt'
    /\ monitors rt' !! m = Some (mkMonitor None 0 (obj_ mon) (head (l ++ [self])) None 0)
    /\ is_wait_set (threads rt') (head (l ++ [self])) (l ++ [self]) = true
    /\ threads rt' !! self = Some (set_wait_monitor (Some m) (set_state why' th))
    /\ trace rt' = trace rt ++ [ContendersSignal m;
                                if bool_decide (why' = kWaiting) then WaitCondWait self
                                else WaitCondTimedWait self ms ns]
    /\ lock_words rt' = lock_words rt
    /\ (forall t, t <> self ->
          set_wait_next None <$> threads rt' !! t = set_wait_next None <$> threads rt !! t).
Proof.
  intros Hth Hm Ho Hchain Hnotin Hnext Hint Hms Hns Hfuel why'.
  destruct (AppendToWaitSet_push_back rt fuel m mon l self th Hm Hchain Hnotin Hth Hnext Hfuel)
    as [Happ (mon' & Hm' & Hchain' & _ & Hc & Hmeth & Hpc)].
  destruct (appended_frame rt m mon l self Hnotin) as [Hself Htrace].
  rewrite Hth in Hself.
  assert (Hobj : obj_ mon' = obj_ mon /\ lock_words (appended rt m mon l self) = lock_words rt).
  { destruct l; simpl in Hm'.
    - rewrite lookup_insert_eq in Hm'. injection Hm' as <-. auto.
    - rewrite Hm in Hm'. injection Hm' as <-. auto. }
  destruct Hobj as [Hobj Hlw].
  assert (Hothers : forall t, t <> self ->
            set_wait_next None <$> threads (appended rt m mon l self) !! t
            = set_wait_next None <$> threads rt !! t).
  { intros t _. destruct l; simpl; [reflexivity|]. apply same_but_wait_next_alter. }
  pose proof (is_wait_set_head _ _ _ Hchain') as Hhd.
  unfold Monitor_Wait. run. rewrite Hm. run.
  rewrite bool_decide_eq_false_2 by (intros H; apply H; exact Ho).
  fold why'.
  assert (Hb : (ms <? 0) || (ns <? 0) || (ns >? 999999) = false).
  { destruct (Z.ltb_spec ms 0), (Z.ltb_spec ns 0), (Z.gtb_spec ns 999999);
      try reflexivity; lia. }
  rewrite Hb. rewrite Happ.
  remember (appended rt m mon l self) as rt1 eqn:Hrt1. clear Hrt1 Happ.
  run. rewrite Hm'. run. rewrite Hm'. run. rewrite Hself. run.
  rewrite !lookup_insert_eq. run. rewrite !lookup_insert_eq. run.
  rewrite Hint.
  assert (Hlinks : forall x t,
            wait_next_ <$> <[self := set_wait_monitor (Some m) (set_state x th)]>
                             (<[self := set_state x th]> (threads rt1)) !! t
            = wait_next_ <$> threads rt1 !! t).
  { intros x t. destruct (decide (self = t)) as [<-|Hd].
    - rewrite lookup_insert_eq, Hself. reflexivity.
    - rewrite !lookup_insert_ne by done. reflexivity. }
  assert (Hfin : forall e,
    exists rt',
      @Parked unit
        (WaitFrame m (lock_count_ mon') (locking_method_ mon') (locking_dex_pc_ mon') b)
        (set_trace
           ((trace rt1 ++ [ContendersSignal m]) ++ [e])
           (set_trace (trace rt1 ++ [ContendersSignal m])
              (set_threads
                 (<[self := set_wait_monitor (Some m) (set_state why' th)]>
                    (<[self := set_state why' th]> (threads rt1)))
                 (set_threads (<[self := set_state why' th]> (threads rt1))
                    (set_monitors
                       (<[m := set_locking None 0 (set_owner None (set_lock_count 0 mon'))]>
                          (monitors rt1)) rt1))))) =
      Parked (WaitFrame m (lock_count_ mon) (locking_method_ mon) (locking_dex_pc_ mon) b)
             rt'
      /\ monitors rt' !! m = Some (mkMonitor None 0 (obj_ mon) (head (l ++ [self])) None 0)
      /\ is_wait_set (threads rt') (head (l ++ [self])) (l ++ [self]) = true
      /\ threads rt' !! self = Some (set_wait_monitor (Some m) (set_state why' th))
      /\ trace rt' = trace rt ++ [ContendersSignal m; e]
      /\ lock_words rt' = lock_words rt
      /\ (forall t, t <> self ->
            set_wait_next None <$> threads rt' !! t = set_wait_next None <$> threads rt !! t)).
  { intros e. eexists. split; [rewrite Hc, Hmeth, Hpc; reflexivity|]. simpl.
    rewrite !lookup_insert_eq, Htrace, <- app_assoc, <- Hhd, <- Hobj.
    split; [reflexivity|].
    split; [rewrite (is_wait_set_links (threads rt1)); [exact Hchain' | intros; apply Hlinks]|].
    split; [reflexivity|]. split; [reflexivity|]. split; [exact Hlw|].
    intros t Hne. rewrite !lookup_insert_ne by done. apply Hothers, Hne. }
  destruct (bool_decide (why' = kWaiting)); simpl; apply Hfin.
Qed.

(** X9: wait by the owner of a monitor, with timeout arguments in range and
    no interrupt pending, releases the monitor whatever the recursion count:
    the thread is appended at the tail of the wait set, the monitor has no
    owner and the count 0, a contender is signalled, and the thread parks on
    its own condition variable with [wait_monitor_] pointing at the monitor.
    The count and the locking method are kept in the frame of the call. *)
Theorem Monitor_Wait_releases_and_parks (rt : Runtime) (fuel : nat) (self : ThreadPtr)
    (m : MonitorPtr) (mon : Monitor) (th : Thread) (l : list ThreadPtr)
    (ms ns : Z) (b : bool) (why : ThreadState) :
  threads rt !! self = Some th ->
  monitors rt !! m = Some mon ->
  owner_ mon = Some self ->
  is_wait_set (threads rt) (wait_set_ mon) l = true ->
  self ∉ l ->
  wait_next_ th = None ->
  interrupted_ th = false ->
  0 <= ms ->
  0 <= ns <= 999999 ->
  (length l <= fuel)%nat ->
  exists rt' mon' th',
    Monitor_Wait fuel self m ms ns b why rt =
      Parked (WaitFrame m (lock_count_ mon) (locking_method_ mon) (locking_dex_pc_ mon) b)
             rt'
    /\ monitors rt' !! m = Some mon'
    /\ owner_ mon' = None
    /\ lock_count_ mon' = 0
    /\ is_wait_set (threads rt') (wait_set_ mon') (l ++ [self]) = true
    /\ threads rt' !! self = Some th'
    /\ wait_monitor_ th' = Some m
    /\ trace rt' = trace rt ++ [ContendersSignal m;
                                if bool_decide (state_ th' = kWaiting) then WaitCondWait self
                                else WaitCondTimedWait self ms ns]
    /\ lock_words rt' = lock_words rt.
Proof.
  intros Hth Hm Ho Hchain Hnotin Hnext Hint Hms Hns Hfuel.
  destruct (Monitor_Wait_parks_spec rt fuel self m mon th l ms ns b why
              Hth Hm Ho Hchain Hnotin Hnext Hint Hms Hns Hfuel)
    as (rt' & Hrun & Hm' & Hchain' & Hth' & Htrace & Hlw & _).
  eexists rt', _, _. split; [exact Hrun|]. split; [exact Hm'|].
  split; [reflexivity|]. split; [reflexivity|]. split; [exact Hchain'|].
  split; [exact Hth'|]. split; [reflexivity|]. split; [exact Htrace | exact Hlw].
Qed.

Lemma Monitor_Wait_releases_and_parks_witness :
  exists rt' mon' th',
    Monitor_Wait 3 1 5 100 0 true kTimedWaiting
        (a_runtime (FatLocked 5) (a_monitor (Some 1%positive) 3 None)) =
      Parked (WaitFrame 5 3 None 0 true) rt'
    /\ monitors rt' !! 5%positive = Some mon'
    /\ owner_ mon' = None
    /\ lock_count_ mon' = 0
    /\ is_wait_set (threads rt') (wait_set_ mon') [1%positive] = true
    /\ threads rt' !! 1%positive = Some th'
    /\ wait_monitor_ th' = Some 5%positive.
Proof.
  destruct (Monitor_Wait_releases_and_parks
              (a_runtime (FatLocked 5) (a_monitor (Some 1%positive) 3 None)) 3 1 5
              (mkMonitor (Some 1%positive) 3 1%positive None None 0) (a_thread 7) []
              100 0 true kTimedWaiting)
    as (rt' & mon' & th' & H1 & H2 & H3 & H4 & H5 & H6 & H7 & _);
    try reflexivity; try lia; try (simpl; lia).
  - apply not_elem_of_nil.
  - exists rt', mon', th'. auto 10.
Defined.

Lemma Monitor_Wait_woken_spec (rt : Runtime) (fuel : nat) (self : ThreadPtr)
    (m : MonitorPtr) (mon : Monitor) (th : Thread) (l l' : list ThreadPtr)
    (c : Z) (meth : option MethodPtr) (pc : Z) (b : bool) :
  threads rt !! self = Some th ->
  monitors rt !! m = Some mon ->
  owner_ mon = None ->
  lock_count_ mon = 0 ->
  is_wait_set (threads rt) (wait_set_ mon) l = true ->
  (length l <= S fuel)%nat ->
  ((self ∉ l) /\ l' = l) \/ (exists a b', l = a ++ self :: b' /\ l' = a ++ b') ->
  exists rt' th',
    Monitor_Wait_woken (S fuel) self (WaitFrame m c meth pc b) rt = Done tt rt'
    /\ monitors rt' !! m = Some (mkMonitor (Some self) c (obj_ mon) (head l') meth pc)
    /\ is_wait_set (threads rt') (head l') l' = true
    /\ threads rt' !! self = Some th'
    /\ state_ th' = kRunnable
    /\ wait_monitor_ th' = None
    /\ interrupted_ th' = false
    /\ exception_ th' = (if interrupted_ th && b then Some InterruptedException
                         else exception_ th)
    /\ lock_words rt' = lock_words rt
    /\ trace rt' = trace rt.
Proof.
  intros Hth Hm Ho Hc Hchain Hfuel Hl.
  unfold Monitor_Wait_woken. unfold bind at 1. unfold Thread_at at 1. rewrite Hth.
  cbn [deref ret]. unfold bind at 1. unfold upd_thread at 1. unfold bind at 1.
  unfold Thread_at at 1. rewrite Hth. cbn [deref ret modify].
  set (rt1 := set_threads (<[self := set_interrupted false th]> (threads rt)) rt).
  destruct (Monitor_Wait_finish_spec rt1 fuel self m mon (set_interrupted false th) l l'
              c meth pc b (interrupted_ th))
    as (rt' & th' & Hrun & Hm' & Hchain' & Hth' & Hst & Hwm & Hint & Hex & _ & Hlw & Htr);
    try assumption.
  - unfold rt1. simpl. apply lookup_insert_eq.
  - unfold rt1. simpl. rewrite (is_wait_set_links (threads rt)); [exact Hchain|].
    intros t _. destruct (decide (self = t)) as [<-|Hd].
    + rewrite lookup_insert_eq, Hth. reflexivity.
    + rewrite lookup_insert_ne by done. reflexivity.
  - exists rt', th'. split; [exact Hrun|]. split; [exact Hm'|]. split; [exact Hchain'|].
    split; [exact Hth'|]. split; [exact Hst|]. split; [exact Hwm|].
    split; [destruct (interrupted_ th); exact Hint|].
    split; [exact Hex|]. split; [exact Hlw | exact Htr].
Qed.

(** X10: a thread woken from its wait, at a time when the monitor is free,
    takes the monitor again and gets back the recursion count and the
    locking method that the wait saved; it is taken out of the wait set if
    notify has not done so, its [wait_monitor_] is cleared and it is
    runnable.  If it was interrupted while it waited, the flag is cleared,
    and InterruptedException is pending if the caller asked for it. *)
Theorem Monitor_Wait_woken_restores (rt : Runtime) (fuel : nat) (self : ThreadPtr)
    (m : MonitorPtr) (mon : Monitor) (th : Thread) (l l' : list ThreadPtr)
    (c : Z) (meth : option MethodPtr) (pc : Z) (b : bool) :
  threads rt !! self = Some th ->
  monitors rt !! m = Some mon ->
  owner_ mon = None ->
  lock_count_ mon = 0 ->
  is_wait_set (threads rt) (wait_set_ mon) l = true ->
  (length l <= S fuel)%nat ->
  ((self ∉ l) /\ l' = l) \/ (exists a b', l = a ++ self :: b' /\ l' = a ++ b') ->
  exists rt' mon' th',
    Monitor_Wait_woken (S fuel) self (WaitFrame m c meth pc b) rt = Done tt rt'
    /\ monitors rt' !! m = Some mon'
    /\ owner_ mon' = Some self
    /\ lock_count_ mon' = c
    /\ locking_method_ mon' = meth
    /\ locking_dex_pc_ mon' = pc
    /\ is_wait_set (threads rt') (wait_set_ mon') l' = true
    /\ threads rt' !! self = Some th'
    /\ state_ th' = kRunnable
    /\ wait_monitor_ th' = None
    /\ interrupted_ th' = false
    /\ exception_ th' = (if interrupted_ th && b then Some InterruptedException
                         else exception_ th)
    /\ lock_words rt' = lock_words rt
    /\ trace rt' = trace rt.
Proof.
  intros Hth Hm Ho Hc Hchain Hfuel Hl.
  destruct (Monitor_Wait_woken_spec rt fuel self m mon th l l' c meth pc b
              Hth Hm Ho Hc Hchain Hfuel Hl)
    as (rt' & th' & Hrun & Hm' & Hchain' & Hrest).
  eexists rt', _, th'. split; [exact Hrun|]. split; [exact Hm'|].
  do 4 (split; [reflexivity|]). split; [exact Hchain'|]. exact Hrest.
Qed.

Lemma Monitor_Wait_woken_restores_witness :
  let rt := set_threads
              (<[4%positive := mkThread 13 kWaiting false None (Some 5%positive)
                                        true None None 0]> (threads waiting_runtime))
              (set_monitors (a_monitor None 0 (Some 2%positive)) waiting_runtime) in
  exists rt' mon' th',
    Monitor_Wait_woken 3 4 (WaitFrame 5 2 None 0 true) rt = Done tt rt'
    /\ monitors rt' !! 5%positive = Some mon'
    /\ owner_ mon' = Some 4%positive
    /\ lock_count_ mon' = 2
    /\ is_wait_set (threads rt') (wait_set_ mon') [2; 3]%positive = true
    /\ threads rt' !! 4%positive = Some th'
    /\ interrupted_ th' = false
    /\ exception_ th' = Some InterruptedException.
Proof.
  intros rt.
  destruct (Monitor_Wait_woken_restores rt 2 4 5
              (mkMonitor None 0 1%positive (Some 2%positive) None 0)
              (mkThread 13 kWaiting false None (Some 5%positive) true None None 0)
              [2; 3; 4]%positive [2; 3]%positive 2 None 0 true)
    as (rt' & mon' & th' & H1 & H2 & H3 & H4 & _ & _ & H7 & H8 & _ & _ & H11 & H12 & _);
    try reflexivity; try (simpl; lia).
  - right. exists [2; 3]%positive, []. split; reflexivity.
  - exists rt', mon', th'. auto 10.
Defined.

(** X11: wait by the owner of a monitor while an interrupt is pending does
    not park.  The call returns with the monitor as before (the same owner,
    recursion count, locking method and wait set); the interrupted flag is
    cleared, and InterruptedException is pending if the caller asked for it.
    One contender was signalled. *)
Theorem Monitor_Wait_interrupt_pending (rt : Runtime) (fuel : nat) (self : ThreadPtr)
    (m : MonitorPtr) (mon : Monitor) (th : Thread) (l : list ThreadPtr)
    (ms ns : Z) (b : bool) (why : ThreadState) :
  threads rt !! self = Some th ->
  monitors rt !! m = Some mon ->
  owner_ mon = Some self ->
  is_wait_set (threads rt) (wait_set_ mon) l = true ->
  self ∉ l ->
  wait_next_ th = None ->
  interrupted_ th = true ->
  0 <= ms ->
  0 <= ns <= 999999 ->
  (length l < fuel)%nat ->
  exists rt' th',
    Monitor_Wait fuel self m ms ns b why rt = Done tt rt'
    /\ monitors rt' !! m = Some mon
    /\ is_wait_set (threads rt') (wait_set_ mon) l = true
    /\ threads rt' !! self = Some th'
    /\ state_ th' = kRunnable
    /\ wait_monitor_ th' = None
    /\ interrupted_ th' = false
    /\ exception_ th' = (if b then Some InterruptedException else exception_ th)
    /\ trace rt' = trace rt ++ [ContendersSignal m]
    /\ lock_words rt' = lock_words rt.
Proof.
  intros Hth Hm Ho Hchain Hnotin Hnext Hint Hms Hns Hfuel.
  assert (Hfuel0 : (length l <= fuel)%nat) by lia.
  destruct (AppendToWaitSet_push_back rt fuel m mon l self th Hm Hchain Hnotin Hth Hnext Hfuel0)
    as [Happ (mon' & Hm' & Hchain' & _ & Hc & Hmeth & Hpc)].
  destruct (appended_frame rt m mon l self Hnotin) as [Hself Htrace].
  rewrite Hth in Hself.
  assert (Hobj : obj_ mon' = obj_ mon /\ lock_words (appended rt m mon l self) = lock_words rt).
  { destruct l; simpl in Hm'.
    - rewrite lookup_insert_eq in Hm'. injection Hm' as <-. auto.
    - rewrite Hm in Hm'. injection Hm' as <-. auto. }
  destruct Hobj as [Hobj Hlw].
  unfold Monitor_Wait. run. rewrite Hm. run.
  rewrite bool_decide_eq_false_2 by (intros H; apply H; exact Ho).
  assert (Hb : (ms <? 0) || (ns <? 0) || (ns >? 999999) = false).
  { destruct (Z.ltb_spec ms 0), (Z.ltb_spec ns 0), (Z.gtb_spec ns 999999);
      try reflexivity; lia. }
  rewrite Hb. rewrite Happ.
  remember (appended rt m mon l self) as rt1 eqn:Hrt1. clear Hrt1 Happ.
  set (why' := if bool_decide (why = kTimedWaiting) && ((ms =? 0) && (ns =? 0))
               then kWaiting else why).
  run. rewrite Hm'. run. rewrite Hm'. run. rewrite Hself. run.
  rewrite !lookup_insert_eq. run. rewrite !lookup_insert_eq. run.
  rewrite Hint.
  destruct fuel as [|fuel]; [lia|].
  match goal with
  | |- context [Monitor_Wait_finish _ _ _ _ _ _ _ _ ?r] => set (rtP := r)
  end.
  destruct (Monitor_Wait_finish_spec rtP fuel self m
              (set_locking None 0 (set_owner None (set_lock_count 0 mon')))
              (set_wait_monitor (Some m) (set_state why' th))
              (l ++ [self]) (l ++ [])
              (lock_count_ mon') (locking_method_ mon') (locking_dex_pc_ mon') b true)
    as (rt' & th' & Hrun & HmF & HchainF & HthF & Hst & Hwm & HintF & Hex & _ & HlwF & HtrF).
  - unfold rtP. simpl. apply lookup_insert_eq.
  - unfold rtP. simpl. apply lookup_insert_eq.
  - reflexivity.
  - reflexivity.
  - unfold rtP. simpl. rewrite (is_wait_set_links (threads rt1)); [exact Hchain'|].
    intros t _. destruct (decide (self = t)) as [<-|Hd].
    + rewrite lookup_insert_eq, Hself. reflexivity.
    + rewrite !lookup_insert_ne by done. reflexivity.
  - rewrite length_app. simpl. lia.
  - right. exists l, []. split; reflexivity.
  - rewrite app_nil_r in *. exists rt', th'. split; [exact Hrun|].
    pose proof (is_wait_set_head _ _ _ Hchain) as Hhd.
    split.
    { rewrite HmF. simpl. rewrite Hc, Hmeth, Hpc, Hobj, <- Hhd.
      destruct mon; simpl in *; subst; reflexivity. }
    split; [rewrite Hhd; exact HchainF|].
    split; [exact HthF|]. split; [exact Hst|]. split; [exact Hwm|].
    split; [exact HintF|]. split; [exact Hex|].
    split; [rewrite HtrF; unfold rtP; simpl; rewrite Htrace; reflexivity|].
    rewrite HlwF. unfold rtP. simpl. exact Hlw.
Qed.

Lemma Monitor_Wait_interrupt_pending_witness :
  let rt := set_threads (<[1%positive := set_interrupted true (a_thread 7)]>
                           (threads (a_runtime (FatLocked 5) (a_monitor (Some 1%positive) 3 None))))
                        (a_runtime (FatLocked 5) (a_monitor (Some 1%positive) 3 None)) in
  exists rt' th',
    Monitor_Wait 1 1 5 100 0 true kTimedWaiting rt = Done tt rt'
    /\ monitors rt' !! 5%positive = Some (mkMonitor (Some 1%positive) 3 1%positive None None 0)
    /\ threads rt' !! 1%positive = Some th'
    /\ interrupted_ th' = false
    /\ exception_ th' = Some InterruptedException.
Proof.
  intros rt.
  destruct (Monitor_Wait_interrupt_pending rt 1 1 5
              (mkMonitor (Some 1%positive) 3 1%positive None None 0)
              (set_interrupted true (a_thread 7)) [] 100 0 true kTimedWaiting)
    as (rt' & th' & H1 & H2 & _ & H4 & _ & _ & H7 & H8 & _);
    try reflexivity; try lia; try (simpl; lia).
  - apply not_elem_of_nil.
  - exists rt', th'. auto 10.
Defined.

(** X12: a wait and notify cycle on a monitor with an empty wait set.  The
    owner waits and parks; a second thread takes the monitor, notifies and
    leaves it; the waiter is woken.  Every call returns, the notify signals
    the waiter, and at the end the monitor is exactly as before the wait:
    the waiter owns it with its recursion count and locking method, and the
    wait set is empty.  The waiter is runnable with no new exception. *)
Theorem wait_notify_cycle_restores (rt : Runtime) (fuel : nat)
    (waiter notifier : ThreadPtr) (m : MonitorPtr) (mon : Monitor)
    (thw thn : Thread) (ms ns : Z) (b : bool) (why : ThreadState) :
  threads rt !! waiter = Some thw ->
  threads rt !! notifier = Some thn ->
  waiter <> notifier ->
  monitors rt !! m = Some mon ->
  owner_ mon = Some waiter ->
  wait_set_ mon = None ->
  wait_next_ thw = None ->
  interrupted_ thw = false ->
  0 <= ms ->
  0 <= ns <= 999999 ->
  exists rt' thw' e,
    wait_notify_cycle (S (S fuel)) waiter notifier m ms ns b why rt = Done tt rt'
    /\ monitors rt' !! m = Some mon
    /\ threads rt' !! waiter = Some thw'
    /\ state_ thw' = kRunnable
    /\ wait_monitor_ thw' = None
    /\ interrupted_ thw' = false
    /\ exception_ thw' = exception_ thw
    /\ (e = WaitCondWait waiter \/ e = WaitCondTimedWait waiter ms ns)
    /\ trace rt' = trace rt ++ [ContendersSignal m; e; WaitCondSignal waiter;
                                ContendersSignal m]
    /\ lock_words rt' = lock_words rt.
Proof.
  intros Hthw Hthn Hne Hm Ho Hws Hnext Hint Hms Hns.
  destruct (Monitor_Wait_parks_spec rt (S (S fuel)) waiter m mon thw [] ms ns b why)
    as (rt1 & Hrun1 & Hm1 & _ & Hthw1 & Htrace1 & Hlw1 & Hothers); try assumption.
  { rewrite Hws. reflexivity. }
  { apply not_elem_of_nil. }
  { simpl. lia. }
  cbv zeta in Hthw1, Htrace1.
  set (why' := if bool_decide (why = kTimedWaiting) && ((ms =? 0) && (ns =? 0))
               then kWaiting else why) in *.
  set (e := if bool_decide (why' = kWaiting) then WaitCondWait waiter
            else WaitCondTimedWait waiter ms ns) in *.
  assert (He : e = WaitCondWait waiter \/ e = WaitCondTimedWait waiter ms ns)
    by (unfold e; destruct (bool_decide (why' = kWaiting)); auto).
  clearbody e.
  specialize (Hothers notifier (not_eq_sym Hne)). rewrite Hthn in Hothers.
  destruct (threads rt1 !! notifier) as [thn1|] eqn:Hthn1; [|discriminate]. clear Hothers.
  simpl app in Hm1. simpl head in Hm1.
  unfold wait_notify_cycle. rewrite Hrun1.
  set (frame := WaitFrame m (lock_count_ mon) (locking_method_ mon) (locking_dex_pc_ mon) b).
  remember (Monitor_Wait_woken (S (S fuel)) waiter frame) as K eqn:HK.
  set (thw1 := set_wait_monitor (Some m) (set_state why' thw)) in *.
  assert (Hn1 : wait_next_ thw1 = None) by exact Hnext.
  assert (Hw1 : wait_monitor_ thw1 = Some m) by reflexivity.
  assert (Hi1 : interrupted_ thw1 = false) by exact Hint.
  assert (He1 : exception_ thw1 = exception_ thw) by reflexivity.
  clearbody thw1.
  unfold Monitor_Notify, Monitor_Unlock.
  assert (Hnn : bool_decide (Some notifier <> Some notifier) = false)
    by (apply bool_decide_eq_false_2; intros H; apply H; reflexivity).
  destruct (bool_decide (lock_profiling_threshold_ rt1 <> 0)) eqn:Hprof;
    repeat (crank; rewrite ?Hprof, ?Hnn, ?Hn1, ?Hw1).
  all: match goal with
       | HK : ?k = Monitor_Wait_woken _ _ _ |- context [?k ?r] => set (rt4 := r)
       end.
  all: destruct (Monitor_Wait_woken_spec rt4 (S fuel) waiter m
                   (mkMonitor None 0 (obj_ mon) None None 0)
                   (set_wait_next None thw1) [] []
                   (lock_count_ mon) (locking_method_ mon) (locking_dex_pc_ mon) b)
         as (rt' & thw' & Hrun & HmF & _ & HthF & Hst & Hwm & HintF & Hex & HlwF & HtrF);
       [ unfold rt4; simpl; apply lookup_insert_eq
       | unfold rt4; simpl; rewrite lookup_insert_eq; reflexivity
       | reflexivity | reflexivity | reflexivity | simpl; lia
       | left; split; [apply not_elem_of_nil | reflexivity]
       | ].
  all: exists rt', thw', e; rewrite HK; unfold frame; split; [exact Hrun|].
  all: split; [rewrite HmF; destruct mon; simpl in *; subst; reflexivity|].
  all: split; [exact HthF|]; split; [exact Hst|]; split; [exact Hwm|].
  all: split; [exact HintF|].
  all: split; [rewrite Hex; simpl; rewrite Hi1; exact He1|].
  all: split; [exact He|].
  all: split; [rewrite HtrF; unfold rt4; simpl; rewrite Htrace1, <- !app_assoc; reflexivity|].
  all: rewrite HlwF; unfold rt4; simpl; exact Hlw1.
Qed.

Lemma wait_notify_cycle_restores_witness :
  let rt := a_runtime (FatLocked 5) (a_monitor (Some 1%positive) 3 None) in
  exists rt' thw' e,
    wait_notify_cycle 2 1 2 5 0 0 true kWaiting rt = Done tt rt'
    /\ monitors rt' !! 5%positive = Some (mkMonitor (Some 1%positive) 3 1%positive None None 0)
    /\ threads rt' !! 1%positive = Some thw'
    /\ state_ thw' = kRunnable
    /\ trace rt' = [ContendersSignal 5; e; WaitCondSignal 1; ContendersSignal 5].
Proof.
  intros rt.
  destruct (wait_notify_cycle_restores rt 0 1 2 5
              (mkMonitor (Some 1%positive) 3 1%positive None None 0)
              (a_thread 7) (a_thread 9) 0 0 true kWaiting)
    as (rt' & thw' & e & H1 & H2 & H3 & H4 & _ & _ & _ & _ & H9 & _);
    try reflexivity; try lia.
  exists rt', thw', e. auto 10.
Defined.

(** ** Inflation *)

Lemma Inflate_thin_spec (rt : Runtime) (self owner : ThreadPtr) (obj : ObjPtr)
    (tho : Thread) (n : Z) :
  threads rt !! owner = Some tho ->
  owner = self \/ suspended_ tho = true ->
  lock_words rt !! obj = Some (ThinLocked (thread_id_ tho) n) ->
  allow_new_monitors_ rt = true ->
  Inflate self owner obj rt =
    Done tt (inflated rt obj (fresh (dom (monitors rt) : gset positive))
               (if bool_decide (lock_profiling_threshold_ rt <> 0)
                then mkMonitor (Some owner) n obj None
                               (current_method_ tho) (current_dex_pc_ tho)
                else mkMonitor (Some owner) n obj None None 0)).
Proof.
  intros Hth Hown Hlw Hallow.
  assert (Hchk : bool_decide (owner = self) || suspended_ tho = true).
  { destruct Hown as [-> | ->]; [rewrite bool_decide_eq_true_2 by reflexivity; reflexivity|].
    apply orb_true_r. }
  unfold Inflate, Monitor_new, Monitor_Install. run. rewrite Hth. run.
  rewrite Hchk. simpl.
  destruct (bool_decide (lock_profiling_threshold_ rt <> 0)) eqn:Hprof;
    repeat first [ rewrite Hth | rewrite Hlw | rewrite Hallow | rewrite Hprof
                 | rewrite Hchk
                 | rewrite lookup_insert_eq
                 | rewrite bool_decide_eq_true_2 by reflexivity
                 | progress simpl ];
    unfold inflated, set_monitors, set_monitor_list, set_lock_words; simpl;
    rewrite !insert_insert_eq, ?Hallow; reflexivity.
Qed.

(** X13: inflation of a thin lock, by its owner or by a thread that has
    suspended the owner, keeps the lock state: the lock word points at a
    monitor at a new address, the monitor has the thin lock's owner and
    recursion count and an empty wait set, and it is the first of the
    monitor list, so that the lock word is valid.  Threads, other lock
    words and the trace are unchanged. *)
Theorem Inflate_keeps_lock_state (rt : Runtime) (self owner : ThreadPtr) (obj : ObjPtr)
    (tho : Thread) (n : Z) :
  threads rt !! owner = Some tho ->
  owner = self \/ suspended_ tho = true ->
  lock_words rt !! obj = Some (ThinLocked (thread_id_ tho) n) ->
  allow_new_monitors_ rt = true ->
  exists rt' mon,
    Inflate self owner obj rt = Done tt rt'
    /\ monitors rt !! (fresh (dom (monitors rt) : gset positive)) = None
    /\ lock_words rt' = <[obj := FatLocked (fresh (dom (monitors rt) : gset positive))]>
                          (lock_words rt)
    /\ monitors rt' = <[fresh (dom (monitors rt) : gset positive) := mon]> (monitors rt)
    /\ owner_ mon = Some owner
    /\ lock_count_ mon = n
    /\ obj_ mon = obj
    /\ wait_set_ mon = None
    /\ monitor_list rt' = fresh (dom (monitors rt) : gset positive) :: monitor_list rt
    /\ IsValidLockWord (FatLocked (fresh (dom (monitors rt) : gset positive))) rt'
       = Done true rt'
    /\ threads rt' = threads rt
    /\ trace rt' = trace rt.
Proof.
  intros Hth Hown Hlw Hallow.
  eexists _, _. split; [apply (Inflate_thin_spec rt self owner obj tho n); assumption|].
  split; [apply not_elem_of_dom, is_fresh|].
  split; [reflexivity|]. split; [reflexivity|].
  destruct (bool_decide (lock_profiling_threshold_ rt <> 0)); simpl;
    unfold IsValidLockWord; simpl; unfold bind, reads, ret; simpl;
    rewrite Pos.eqb_refl; simpl; auto 12.
Qed.

Lemma Inflate_keeps_lock_state_witness :
  exists rt' mon,
    Inflate 2 1 1 (set_threads (<[1%positive := set_suspended true (a_thread 7)]>
                                  (threads (a_runtime (ThinLocked 7 2) ∅)))
                               (a_runtime (ThinLocked 7 2) ∅)) = Done tt rt'
    /\ lock_words rt' !! 1%positive = Some (FatLocked 1)
    /\ monitors rt' !! 1%positive = Some mon
    /\ owner_ mon = Some 1%positive
    /\ lock_count_ mon = 2.
Proof.
  destruct (Inflate_keeps_lock_state
              (set_threads (<[1%positive := set_suspended true (a_thread 7)]>
                              (threads (a_runtime (ThinLocked 7 2) ∅)))
                           (a_runtime (ThinLocked 7 2) ∅))
              2 1 1 (set_suspended true (a_thread 7)) 2)
    as (rt' & mon & H1 & _ & H3 & H4 & H5 & H6 & _);
    [reflexivity | right; reflexivity | reflexivity | reflexivity |].
  exists rt', mon. rewrite H3, H4. split; [exact H1|].
  split; [reflexivity|]. split; [reflexivity|]. auto.
Defined.

(** X14: what [Inflate] does when there is no thin lock to inflate, or when
    its caller may not inflate.  If the lock word points at a monitor
    already (another thread inflated first), the new monitor is discarded
    and the runtime is exactly as before.  If the designated owner is
    neither the caller nor suspended, or if the object is unlocked, the call
    dies on a failed CHECK. *)
Theorem Inflate_without_thin_lock (rt : Runtime) (self owner : ThreadPtr) (obj : ObjPtr)
    (tho : Thread) (lw : LockWord) :
  threads rt !! owner = Some tho ->
  lock_words rt !! obj = Some lw ->
  (forall m0, lw = FatLocked m0 -> owner = self \/ suspended_ tho = true ->
     Inflate self owner obj rt = Done tt rt)
  /\ (owner <> self -> suspended_ tho = false -> Inflate self owner obj rt = Fatal)
  /\ (lw = Unlocked -> Inflate self owner obj rt = Fatal).
Proof.
  intros Hth Hlw.
  assert (Hfresh : monitors rt !! (fresh (dom (monitors rt) : gset positive)) = None)
    by apply not_elem_of_dom, is_fresh.
  split; [|split].
  - intros m0 -> Hown.
    assert (Hchk : bool_decide (owner = self) || suspended_ tho = true).
    { destruct Hown as [-> | ->]; [rewrite bool_decide_eq_true_2 by reflexivity; reflexivity|].
      apply orb_true_r. }
    unfold Inflate, Monitor_new, Monitor_Install, Monitor_delete. run. rewrite Hth. run.
    rewrite Hchk. simpl.
    repeat first [ rewrite Hth | rewrite Hlw | rewrite Hchk
                 | rewrite lookup_insert_eq | progress simpl ].
    rewrite delete_insert_id by exact Hfresh. destruct rt. reflexivity.
  - intros Hne Hs. unfold Inflate, Monitor_new. run. rewrite Hth. run.
    rewrite bool_decide_eq_false_2 by exact Hne. rewrite Hs. reflexivity.
  - intros ->. unfold Inflate, Monitor_new, Monitor_Install. run. rewrite Hth. run.
    destruct (bool_decide (owner = self) || suspended_ tho) eqn:Hchk; [|reflexivity].
    simpl.
    repeat first [ rewrite Hth | rewrite Hlw | rewrite Hchk
                 | rewrite lookup_insert_eq | progress simpl ].
    reflexivity.
Qed.

Lemma Inflate_without_thin_lock_witness :
  Inflate 1 1 1 (a_runtime (FatLocked 5) (a_monitor (Some 2%positive) 0 None))
    = Done tt (a_runtime (FatLocked 5) (a_monitor (Some 2%positive) 0 None))
  /\ Inflate 2 1 1 (a_runtime (ThinLocked 7 0) ∅) = Fatal
  /\ Inflate 1 1 1 (a_runtime Unlocked ∅) = Fatal.
Proof.
  split; [|split].
  - apply (proj1 (Inflate_without_thin_lock
                    (a_runtime (FatLocked 5) (a_monitor (Some 2%positive) 0 None))
                    1 1 1 (a_thread 7) (FatLocked 5) eq_refl eq_refl) 5%positive eq_refl).
    left. reflexivity.
  - apply (proj1 (proj2 (Inflate_without_thin_lock (a_runtime (ThinLocked 7 0) ∅)
                           2 1 1 (a_thread 7) (ThinLocked 7 0) eq_refl eq_refl)));
      [discriminate | reflexivity].
  - apply (proj2 (proj2 (Inflate_without_thin_lock (a_runtime Unlocked ∅)
                           1 1 1 (a_thread 7) Unlocked eq_refl eq_refl))).
    reflexivity.
Defined.

(** X15: wait on an object whose lock is still thin and held by the caller.
    The lock is inflated first and the recursion count goes into the new
    monitor; then the wait releases the monitor and parks the thread.  The
    frame of the wait keeps the thin recursion count, the lock word points
    at the new monitor, and the wait set holds just the caller. *)
Theorem Wait_on_thin_lock_inflates (rt : Runtime) (fuel : nat) (self : ThreadPtr)
    (obj : ObjPtr) (th : Thread) (n ms ns : Z) (b : bool) (why : ThreadState) :
  threads rt !! self = Some th ->
  lock_words rt !! obj = Some (ThinLocked (thread_id_ th) n) ->
  allow_new_monitors_ rt = true ->
  wait_next_ th = None ->
  interrupted_ th = false ->
  0 <= ms ->
  0 <= ns <= 999999 ->
  exists rt' mon' meth pc,
    Wait fuel self obj ms ns b why rt =
      Parked (WaitFrame (fresh (dom (monitors rt) : gset positive)) n meth pc b) rt'
    /\ lock_words rt' !! obj = Some (FatLocked (fresh (dom (monitors rt) : gset positive)))
    /\ monitors rt !! (fresh (dom (monitors rt) : gset positive)) = None
    /\ monitors rt' !! (fresh (dom (monitors rt) : gset positive)) = Some mon'
    /\ owner_ mon' = None
    /\ lock_count_ mon' = 0
    /\ obj_ mon' = obj
    /\ is_wait_set (threads rt') (wait_set_ mon') [self] = true.
Proof.
  intros Hth Hlw Hallow Hnext Hint Hms Hns.
  set (m := fresh (dom (monitors rt) : gset positive)).
  pose proof (Inflate_thin_spec rt self self obj th n Hth (or_introl eq_refl) Hlw Hallow)
    as Hinf. fold m in Hinf.
  match type of Hinf with _ = Done tt (inflated _ _ _ ?x) => set (mon := x) in * end.
  assert (Hmon : owner_ mon = Some self /\ lock_count_ mon = n /\ obj_ mon = obj
                 /\ wait_set_ mon = None).
  { unfold mon. destruct (bool_decide (lock_profiling_threshold_ rt <> 0)); auto. }
  destruct Hmon as (Ho & Hc & Hobj & Hws).
  destruct (Monitor_Wait_parks_spec (inflated rt obj m mon) fuel self m mon th []
              ms ns b why)
    as (rt' & Hrun & Hm' & Hchain' & _); try assumption.
  { simpl. apply lookup_insert_eq. }
  { rewrite Hws. reflexivity. }
  { apply not_elem_of_nil. }
  { simpl. lia. }
  exists rt', (mkMonitor None 0 (obj_ mon) (head ([] ++ [self])) None 0),
         (locking_method_ mon), (locking_dex_pc_ mon).
  split.
  { unfold Wait. run. rewrite Hlw. run. rewrite Hth. run. rewrite Z.eqb_refl. simpl.
    rewrite Hinf. simpl. rewrite lookup_insert_eq. simpl.
    rewrite Hrun, Hc. reflexivity. }
  split.
  { pose proof (keeps_at _ (inflated rt obj m mon) rt'
                  (keeps_Monitor_Wait fuel self m ms ns b why)) as Hk.
    rewrite Hrun in Hk. rewrite (Hk eq_refl). simpl. apply lookup_insert_eq. }
  split; [apply not_elem_of_dom, is_fresh|].
  split; [exact Hm'|]. simpl. rewrite Hobj. auto.
Qed.

Lemma Wait_on_thin_lock_inflates_witness :
  exists rt' mon' meth pc,
    Wait 0 1 1 0 0 true kWaiting (a_runtime (ThinLocked 7 2) ∅) =
      Parked (WaitFrame (fresh (dom (monitors (a_runtime (ThinLocked 7 2) ∅)) : gset positive))
                        2 meth pc true) rt'
    /\ lock_words rt' !! 1%positive
       = Some (FatLocked (fresh (dom (monitors (a_runtime (ThinLocked 7 2) ∅)) : gset positive)))
    /\ monitors rt' !! (fresh (dom (monitors (a_runtime (ThinLocked 7 2) ∅)) : gset positive))
       = Some mon'
    /\ owner_ mon' = None
    /\ is_wait_set (threads rt') (wait_set_ mon') [1%positive] = true.
Proof.
  destruct (Wait_on_thin_lock_inflates (a_runtime (ThinLocked 7 2) ∅) 0 1 1 (a_thread 7)
              2 0 0 true kWaiting)
    as (rt' & mon' & meth & pc & H1 & H2 & _ & H4 & H5 & _ & _ & H8);
    try reflexivity; try lia.
  exists rt', mon', meth, pc. auto 10.
Defined.

(** What [Inflate] leaves when the gate of the monitor list is closed: the
    lock word is published, the thread is parked in [MonitorList::Add]. *)
Lemma Inflate_gated_spec (rt : Runtime) (self owner : ThreadPtr) (obj : ObjPtr)
    (tho : Thread) (n : Z) :
  threads rt !! owner = Some tho ->
  owner = self \/ suspended_ tho = true ->
  lock_words rt !! obj = Some (ThinLocked (thread_id_ tho) n) ->
  allow_new_monitors_ rt = false ->
  exists mon,
    Inflate self owner obj rt =
      Parked (AddFrame (fresh (dom (monitors rt) : gset positive)))
             (set_lock_words (<[obj := FatLocked (fresh (dom (monitors rt) : gset positive))]>
                                (lock_words rt))
                (set_monitors (<[fresh (dom (monitors rt) : gset positive) := mon]>
                                 (monitors rt)) rt))
    /\ owner_ mon = Some owner /\ lock_count_ mon = n.
Proof.
  intros Hth Hown Hlw Hallow.
  assert (Hchk : bool_decide (owner = self) || suspended_ tho = true).
  { destruct Hown as [-> | ->]; [rewrite bool_decide_eq_true_2 by reflexivity; reflexivity|].
    apply orb_true_r. }
  exists (if bool_decide (lock_profiling_threshold_ rt <> 0)
          then mkMonitor (Some owner) n obj None (current_method_ tho) (current_dex_pc_ tho)
          else mkMonitor (Some owner) n obj None None 0).
  split; [|destruct (bool_decide (lock_profiling_threshold_ rt <> 0)); auto].
  unfold Inflate, Monitor_new, Monitor_Install. run. rewrite Hth. run.
  rewrite Hchk. simpl.
  destruct (bool_decide (lock_profiling_threshold_ rt <> 0)) eqn:Hprof;
    repeat first [ rewrite Hth | rewrite Hlw | rewrite Hallow | rewrite Hprof
                 | rewrite Hchk
                 | rewrite lookup_insert_eq
                 | rewrite bool_decide_eq_true_2 by reflexivity
                 | progress simpl ];
    unfold set_monitors, set_monitor_list, set_lock_words; simpl;
    rewrite !insert_insert_eq, ?Hallow; reflexivity.
Qed.

Lemma existsb_eqb_elem_of (m : MonitorPtr) (l : list MonitorPtr) :
  existsb (Pos.eqb m) l = true <-> m ∈ l.
Proof.
  rewrite existsb_exists. split.
  - intros (x & Hin & Heq). apply Pos.eqb_eq in Heq. subst. apply list_elem_of_In, Hin.
  - intros Hin. exists m. split; [apply list_elem_of_In, Hin | apply Pos.eqb_refl].
Qed.

(** X16: the gate of the monitor list.  While new monitors are disallowed,
    the inflation of a thin lock publishes the fat lock word and then parks
    in the add to the monitor list: the new monitor is not registered, and
    the object's lock word is not valid.  Once new monitors are allowed and
    the parked add runs again, the monitor is the first of the list and the
    lock word is valid. *)
Theorem Inflate_parks_while_disallowed (rt : Runtime) (self : ThreadPtr) (obj : ObjPtr)
    (th : Thread) (n : Z) :
  threads rt !! self = Some th ->
  lock_words rt !! obj = Some (ThinLocked (thread_id_ th) n) ->
  (forall m, m ∈ monitor_list rt -> is_Some (monitors rt !! m)) ->
  exists rt1 rt2,
    (DisallowNewMonitors;;; Inflate self self obj) rt
      = Parked (AddFrame (fresh (dom (monitors rt) : gset positive))) rt1
    /\ lock_words rt1 !! obj = Some (FatLocked (fresh (dom (monitors rt) : gset positive)))
    /\ monitor_list rt1 = monitor_list rt
    /\ IsValidLockWord (FatLocked (fresh (dom (monitors rt) : gset positive))) rt1
       = Done false rt1
    /\ (AllowNewMonitors;;; MonitorList_Add (fresh (dom (monitors rt) : gset positive))) rt1
       = Done tt rt2
    /\ monitor_list rt2 = fresh (dom (monitors rt) : gset positive) :: monitor_list rt
    /\ lock_words rt2 = lock_words rt1
    /\ IsValidLockWord (FatLocked (fresh (dom (monitors rt) : gset positive))) rt2
       = Done true rt2.
Proof.
  intros Hth Hlw Hlist.
  set (m := fresh (dom (monitors rt) : gset positive)).
  assert (Hfresh : m ∉ monitor_list rt).
  { intros Hin. destruct (Hlist m Hin) as [mon Hmon].
    pose proof (is_fresh (dom (monitors rt) : gset positive)) as Hf.
    apply not_elem_of_dom in Hf. fold m in Hf. congruence. }
  destruct (Inflate_gated_spec (set_allow_new_monitors false rt) self self obj th n
              Hth (or_introl eq_refl) Hlw eq_refl) as (mon & Hrun & _).
  simpl in Hrun. fold m in Hrun.
  eexists _, _. split.
  { unfold DisallowNewMonitors. unfold bind at 1, modify. simpl. exact Hrun. }
  split; [simpl; apply lookup_insert_eq|].
  split; [reflexivity|].
  split.
  { unfold IsValidLockWord. run. f_equal.
    destruct (existsb (Pos.eqb m) (monitor_list rt)) eqn:He; [|reflexivity].
    apply existsb_eqb_elem_of in He. contradiction. }
  split; [unfold AllowNewMonitors, MonitorList_Add; run; reflexivity|].
  split; [reflexivity|]. split; [reflexivity|].
  unfold IsValidLockWord. run. rewrite Pos.eqb_refl. reflexivity.
Qed.

Lemma Inflate_parks_while_disallowed_witness :
  exists rt1 rt2,
    (DisallowNewMonitors;;; Inflate 1 1 1) (a_runtime (ThinLocked 7 2) ∅)
      = Parked (AddFrame (fresh (dom (monitors (a_runtime (ThinLocked 7 2) ∅))
                                   : gset positive))) rt1
    /\ IsValidLockWord (FatLocked (fresh (dom (monitors (a_runtime (ThinLocked 7 2) ∅))
                                            : gset positive))) rt1
       = Done false rt1
    /\ IsValidLockWord (FatLocked (fresh (dom (monitors (a_runtime (ThinLocked 7 2) ∅))
                                            : gset positive))) rt2
       = Done true rt2.
Proof.
  destruct (Inflate_parks_while_disallowed (a_runtime (ThinLocked 7 2) ∅) 1 1 (a_thread 7) 2)
    as (rt1 & rt2 & H1 & _ & _ & H4 & _ & _ & _ & H8).
  - reflexivity.
  - reflexivity.
  - intros m Hin. simpl in Hin. apply elem_of_nil in Hin. contradiction.
  - exists rt1, rt2. auto.
Defined.

(** The loop of the sweep over a list without repetition, each monitor of
    which is allocated and, where its object is unmarked, installed in a fat
    lock word. *)
Lemma SweepMonitorList_loop_spec (visitor : ObjPtr -> option ObjPtr)
    (l : list MonitorPtr) :
  forall rt,
    NoDup l ->
    (forall m, m ∈ l ->
       exists mon, monitors rt !! m = Some mon
         /\ (visitor (obj_ mon) = None ->
             exists m', lock_words rt !! obj_ mon = Some (FatLocked m'))) ->
    exists mons',
      SweepMonitorList_loop visitor l rt
        = Done (List.filter (survives visitor (monitors rt)) l) (set_monitors mons' rt)
      /\ (forall m mon, m ∈ l -> monitors rt !! m = Some mon ->
            mons' !! m = sweep_monitor visitor mon)
      /\ (forall m, m ∉ l -> mons' !! m = monitors rt !! m).
Proof.
  induction l as [|m rest IH]; intros rt Hnd Hall.
  - exists (monitors rt). split; [|split].
    + simpl. unfold ret. f_equal. symmetry. apply runtime_eta.
    + intros m mon Hin. apply elem_of_nil in Hin. contradiction.
    + reflexivity.
  - apply NoDup_cons in Hnd as [Hm Hnd].
    destruct (Hall m (list_elem_of_here _ _)) as (mon & Hmon & Hfat).
    assert (Hrest : forall mons1,
              (forall m', m' <> m -> mons1 !! m' = monitors rt !! m') ->
              forall m', m' ∈ rest ->
                exists mon', (set_monitors mons1 rt).(monitors) !! m' = Some mon'
                  /\ (visitor (obj_ mon') = None ->
                      exists m'', lock_words (set_monitors mons1 rt) !! obj_ mon'
                                  = Some (FatLocked m''))).
    { intros mons1 Hsame m' Hin.
      destruct (Hall m' (list_elem_of_further _ _ _ Hin)) as (mon' & Hmon' & Hfat').
      exists mon'. split; [|exact Hfat'].
      simpl. rewrite Hsame; [exact Hmon'|]. intros ->. contradiction. }
    assert (Hfilter : forall mons1,
              (forall m', m' <> m -> mons1 !! m' = monitors rt !! m') ->
              List.filter (survives visitor mons1) rest
              = List.filter (survives visitor (monitors rt)) rest).
    { intros mons1 Hsame. apply List.filter_ext_in. intros m' Hin.
      unfold survives. rewrite Hsame; [reflexivity|].
      intros ->. apply list_elem_of_In in Hin. contradiction. }
    simpl. unfold survives at 1. rewrite Hmon.
    destruct (visitor (obj_ mon)) as [new_obj|] eqn:Hv.
    + (* marked: the monitor follows its object *)
      set (mons1 := <[m := set_obj new_obj mon]> (monitors rt)).
      assert (Hsame : forall m', m' <> m -> mons1 !! m' = monitors rt !! m').
      { intros m' Hne. unfold mons1. apply lookup_insert_ne. congruence. }
      destruct (IH (set_monitors mons1 rt) Hnd (Hrest mons1 Hsame))
        as (mons' & Hrun & Hin' & Hout').
      exists mons'. split; [|split].
      * rewrite bool_decide_eq_true_2 by eauto.
        unfold Monitor_SetObject. crank. fold mons1.
        unfold bind in Hrun |- *. rewrite Hrun. simpl.
        rewrite (Hfilter mons1 Hsame). reflexivity.
      * intros m' mon' Hel Hm'. apply elem_of_cons in Hel as [-> | Hel].
        -- rewrite Hout' by exact Hm. simpl. unfold mons1. rewrite lookup_insert_eq.
           unfold sweep_monitor. replace mon' with mon by congruence.
           rewrite Hv. reflexivity.
        -- apply Hin'; [exact Hel|]. simpl. rewrite Hsame; [exact Hm'|].
           intros ->. contradiction.
      * intros m' Hnot. apply not_elem_of_cons in Hnot as [Hne Hnot].
        rewrite (Hout' m' Hnot). simpl. apply Hsame, Hne.
    + (* unmarked: the monitor is freed *)
      destruct (Hfat eq_refl) as (m'' & Hlw).
      set (mons1 := delete m (monitors rt)).
      assert (Hsame : forall m', m' <> m -> mons1 !! m' = monitors rt !! m').
      { intros m' Hne. unfold mons1. apply lookup_delete_ne. congruence. }
      destruct (IH (set_monitors mons1 rt) Hnd (Hrest mons1 Hsame))
        as (mons' & Hrun & Hin' & Hout').
      exists mons'. split; [|split].
      * rewrite bool_decide_eq_false_2 by (intros [x Hx]; discriminate).
        unfold Monitor_delete. crank. fold mons1.
        unfold bind in Hrun |- *. rewrite Hrun. simpl.
        rewrite (Hfilter mons1 Hsame). reflexivity.
      * intros m' mon' Hel Hm'. apply elem_of_cons in Hel as [-> | Hel].
        -- rewrite Hout' by exact Hm. simpl. unfold mons1. rewrite lookup_delete_eq.
           unfold sweep_monitor. replace mon' with mon by congruence.
           rewrite Hv. reflexivity.
        -- apply Hin'; [exact Hel|]. simpl. rewrite Hsame; [exact Hm'|].
           intros ->. contradiction.
      * intros m' Hnot. apply not_elem_of_cons in Hnot as [Hne Hnot].
        rewrite (Hout' m' Hnot). simpl. apply Hsame, Hne.
Qed.

(** X17: the sweep of the monitor list.  Over a list without repetition
    whose monitors are allocated, and installed in a fat lock word where the
    object is unmarked, the sweep returns; it keeps the monitors of the
    marked objects, in the order of the list, and points each at the object
    the visitor returned; it frees the monitors of the unmarked objects; and
    it leaves the monitors outside the list, the lock words and the threads
    as they are. *)
Theorem SweepMonitorList_keeps_marked (visitor : ObjPtr -> option ObjPtr) (rt : Runtime) :
  NoDup (monitor_list rt) ->
  (forall m, m ∈ monitor_list rt ->
     exists mon, monitors rt !! m = Some mon
       /\ (visitor (obj_ mon) = None ->
           exists m', lock_words rt !! obj_ mon = Some (FatLocked m'))) ->
  exists rt',
    SweepMonitorList visitor rt = Done tt rt'
    /\ monitor_list rt' = List.filter (survives visitor (monitors rt)) (monitor_list rt)
    /\ (forall m mon, m ∈ monitor_list rt -> monitors rt !! m = Some mon ->
          monitors rt' !! m = sweep_monitor visitor mon)
    /\ (forall m, m ∉ monitor_list rt -> monitors rt' !! m = monitors rt !! m)
    /\ lock_words rt' = lock_words rt
    /\ threads rt' = threads rt
    /\ trace rt' = trace rt.
Proof.
  intros Hnd Hall.
  destruct (SweepMonitorList_loop_spec visitor (monitor_list rt) rt Hnd Hall)
    as (mons' & Hrun & Hin & Hout).
  eexists. split.
  { unfold SweepMonitorList. unfold bind, reads, modify in *. rewrite Hrun. reflexivity. }
  simpl. auto 10.
Qed.

Lemma SweepMonitorList_keeps_marked_witness :
  exists rt',
    SweepMonitorList only_object_1 two_monitors = Done tt rt'
    /\ monitor_list rt' = [5%positive]
    /\ monitors rt' !! 5%positive = Some (mkMonitor None 0 3%positive None None 0)
    /\ monitors rt' !! 6%positive = None.
Proof.
  destruct (SweepMonitorList_keeps_marked only_object_1 two_monitors)
    as (rt' & Hrun & Hlist & Hin & _).
  - simpl. apply NoDup_cons. split; [|apply NoDup_singleton].
    intros H. apply list_elem_of_singleton in H. discriminate.
  - intros m Hm. simpl in Hm.
    apply elem_of_cons in Hm as [-> | Hm];
      [|apply list_elem_of_singleton in Hm; subst m].
    + eexists. split; [reflexivity|]. intros _. eexists. reflexivity.
    + eexists. split; [reflexivity|]. intros H. discriminate.
  - exists rt'. split; [exact Hrun|]. split; [rewrite Hlist; reflexivity|]. split.
    + apply (Hin 5%positive (mkMonitor None 0 1%positive None None 0));
        [right; left | reflexivity].
    + apply (Hin 6%positive (mkMonitor None 0 2%positive None None 0));
        [left | reflexivity].
Defined.

Lemma set_state_back (th : Thread) (s : ThreadState) :
  set_state (state_ th) (set_state s th) = th.
Proof. destruct th. reflexivity. Qed.

(** X18: the hand-over of a contended monitor, without lock profiling.  A
    thread that locks a monitor another thread owns becomes blocked and parks
    on the monitor's contenders, and the monitor is as it was.  When the
    owner then unlocks at count zero, one contender is signalled; the thread
    woken from the park owns the monitor with count zero, and its state and
    all other threads are as before the call. *)
Theorem Monitor_Lock_hand_over (rt : Runtime) (fuel : nat) (self owner : ThreadPtr)
    (m : MonitorPtr) (mon : Monitor) (th : Thread) (rnd : Z) :
  threads rt !! self = Some th ->
  monitors rt !! m = Some mon ->
  owner_ mon = Some owner ->
  owner <> self ->
  lock_count_ mon = 0 ->
  lock_profiling_threshold_ rt = 0 ->
  exists f rt1 rt2 rt3,
    Monitor_Lock (S fuel) self m rt = Parked f rt1
    /\ monitors rt1 = monitors rt
    /\ threads rt1 = <[self := set_state kBlocked th]> (threads rt)
    /\ trace rt1 = trace rt ++ [ContendersWait m self]
    /\ Monitor_Unlock owner m rt1 = Done true rt2
    /\ trace rt2 = trace rt1 ++ [ContendersSignal m]
    /\ Monitor_Lock_woken (S fuel) self f rnd rt2 = Done tt rt3
    /\ monitors rt3 = <[m := mkMonitor (Some self) 0 (obj_ mon) (wait_set_ mon) None 0]>
                        (monitors rt)
    /\ threads rt3 = threads rt
    /\ lock_words rt3 = lock_words rt
    /\ trace rt3 = trace rt2.
Proof.
  intros Hth Hmon Hown Hne Hcount Hprof.
  assert (Hne' : bool_decide (owner = self) = false) by (apply bool_decide_eq_false_2, Hne).
  assert (Hp : bool_decide (lock_profiling_threshold_ rt <> 0) = false).
  { apply bool_decide_eq_false_2. rewrite Hprof. intros H. apply H. reflexivity. }
  assert (Hc : bool_decide (lock_count_ mon = 0) = true) by (apply bool_decide_eq_true_2, Hcount).
  eexists _, _, _, _.
  split.
  { simpl. repeat (crank; rewrite ?Hown, ?Hne', ?Hp). reflexivity. }
  split; [reflexivity|]. split; [reflexivity|]. split; [reflexivity|].
  split.
  { unfold Monitor_Unlock. repeat (crank; rewrite ?Hown, ?Hc). reflexivity. }
  split; [reflexivity|].
  split.
  { unfold Monitor_Lock_woken. repeat (crank; rewrite ?Hp, ?Hprof, ?Hc). reflexivity. }
  split.
  { simpl. rewrite !insert_insert_eq. destruct mon; simpl in *. subst. reflexivity. }
  split.
  { simpl. rewrite !insert_insert_eq, set_state_back. apply insert_id, Hth. }
  split; reflexivity.
Qed.

Lemma Monitor_Lock_hand_over_witness :
  exists f rt1 rt2 rt3,
    Monitor_Lock 1 1 5 (a_runtime (FatLocked 5) (a_monitor (Some 2%positive) 0 None))
      = Parked f rt1
    /\ Monitor_Unlock 2 5 rt1 = Done true rt2
    /\ Monitor_Lock_woken 1 1 f 0 rt2 = Done tt rt3
    /\ monitors rt3 = a_monitor (Some 1%positive) 0 None.
Proof.
  destruct (Monitor_Lock_hand_over
              (a_runtime (FatLocked 5) (a_monitor (Some 2%positive) 0 None))
              0 1 2 5 (mkMonitor (Some 2%positive) 0 1%positive None None 0)
              (a_thread 7) 0)
    as (f & rt1 & rt2 & rt3 & H1 & _ & _ & _ & H5 & _ & H7 & H8 & _);
    [reflexivity | reflexivity | reflexivity | discriminate | reflexivity | reflexivity |].
  exists f, rt1, rt2, rt3. split; [exact H1|]. split; [exact H5|]. split; [exact H7|].
  rewrite H8. simpl. unfold a_monitor. apply insert_insert_eq.
Defined.

(** ** No monitor operation changes a thread id *)

Lemma ids_ret {A} (a : A) : keeps_thread_ids (ret a).
Proof. intros rt t. reflexivity. Qed.

Lemma ids_bind {A B} (c : Call A) (k : A -> Call B) :
  keeps_thread_ids c -> (forall a, keeps_thread_ids (k a)) ->
  keeps_thread_ids (bind c k).
Proof.
  intros Hc Hk rt. unfold bind. specialize (Hc rt).
  destruct (c rt) as [a rt'| |  |]; try exact I; try exact Hc.
  specialize (Hk a rt'). destruct (k a rt'); try exact I;
    intros t; rewrite Hk; apply Hc.
Qed.

Lemma ids_fatal {A} : keeps_thread_ids (@fatal A).
Proof. intros rt. exact I. Qed.

Lemma ids_out_of_fuel {A} : keeps_thread_ids (@out_of_fuel A).
Proof. intros rt. exact I. Qed.

Lemma ids_park {A} f : keeps_thread_ids (@park A f).
Proof. intros rt t. reflexivity. Qed.

Lemma ids_reads {A} (f : Runtime -> A) : keeps_thread_ids (reads f).
Proof. intros rt t. reflexivity. Qed.

Lemma ids_get : keeps_thread_ids get.
Proof. intros rt t. reflexivity. Qed.

Lemma ids_deref {A} (o : option A) : keeps_thread_ids (deref o).
Proof. intros rt. destruct o; [intros t; reflexivity | exact I]. Qed.

Lemma ids_CHECK b : keeps_thread_ids (CHECK b).
Proof. intros rt. destruct b; [intros t; reflexivity | exact I]. Qed.

Lemma ids_Thread_at t : keeps_thread_ids (Thread_at t).
Proof.
  intros rt. unfold Thread_at. destruct (threads rt !! t); [intros t'; reflexivity | exact I].
Qed.

Lemma ids_Monitor_at m : keeps_thread_ids (Monitor_at m).
Proof.
  intros rt. unfold Monitor_at. destruct (monitors rt !! m); [intros t'; reflexivity | exact I].
Qed.

Lemma ids_GetLockWord obj : keeps_thread_ids (GetLockWord obj).
Proof.
  intros rt. unfold GetLockWord.
  destruct (lock_words rt !! obj); [intros t'; reflexivity | exact I].
Qed.

Lemma ids_modify (f : Runtime -> Runtime) :
  (forall rt, threads (f rt) = threads rt) -> keeps_thread_ids (modify f).
Proof. intros Hf rt t. simpl. rewrite Hf. reflexivity. Qed.

Lemma ids_upd_thread t (f : Thread -> Thread) :
  (forall th, thread_id_ (f th) = thread_id_ th) -> keeps_thread_ids (upd_thread t f).
Proof.
  intros Hf rt. unfold upd_thread, bind, Thread_at.
  destruct (threads rt !! t) as [th|] eqn:Hth; [|exact I].
  intros t'. simpl. destruct (decide (t' = t)) as [->|Hne].
  - rewrite lookup_insert_eq, Hth. simpl. rewrite Hf. reflexivity.
  - rewrite lookup_insert_ne by congruence. reflexivity.
Qed.

Lemma ids_upd_monitor m f : keeps_thread_ids (upd_monitor m f).
Proof.
  intros rt. unfold upd_monitor, bind, Monitor_at.
  destruct (monitors rt !! m); [intros t; reflexivity | exact I].
Qed.

Lemma ids_if {A} (b : bool) (c1 c2 : Call A) :
  keeps_thread_ids c1 -> keeps_thread_ids c2 ->
  keeps_thread_ids (if b then c1 else c2).
Proof. destruct b; auto. Qed.

Create HintDb ids.
#[local] Hint Resolve ids_ret ids_fatal ids_out_of_fuel ids_park ids_reads ids_get
  ids_deref ids_CHECK ids_Thread_at ids_Monitor_at ids_GetLockWord ids_upd_monitor : ids.

(** Takes a call apart along its binds and branches. *)
Ltac ids :=
  repeat first
    [ solve [auto with ids]
    | solve [apply ids_modify; reflexivity]
    | solve [apply ids_upd_thread; reflexivity]
    | match goal with |- forall _, _ => intro end
    | apply ids_bind
    | apply ids_if
    | match goal with
      | |- keeps_thread_ids (match ?x with _ => _ end) => destruct x
      end ].

Lemma ids_emit e : keeps_thread_ids (emit e).
Proof. unfold emit. ids. Qed.

Lemma ids_SetLockWord obj lw : keeps_thread_ids (SetLockWord obj lw).
Proof. unfold SetLockWord. ids. Qed.

Lemma ids_CasLockWord obj old new : keeps_thread_ids (CasLockWord obj old new).
Proof. unfold CasLockWord. pose proof ids_SetLockWord. ids. Qed.

Lemma ids_GetCurrentMethod t : keeps_thread_ids (GetCurrentMethod t).
Proof. unfold GetCurrentMethod. ids. Qed.

Lemma ids_ScopedThreadStateChange {A} self st (body : Call A) :
  keeps_thread_ids body -> keeps_thread_ids (ScopedThreadStateChange self st body).
Proof. intros H. unfold ScopedThreadStateChange. ids. Qed.

Lemma ids_SuspendThreadByThreadId id : keeps_thread_ids (SuspendThreadByThreadId id).
Proof. unfold SuspendThreadByThreadId, FindThreadByThreadId. ids. Qed.

Lemma ids_Resume t : keeps_thread_ids (Resume t).
Proof. unfold Resume. ids. Qed.

#[local] Hint Resolve ids_emit ids_SetLockWord ids_CasLockWord ids_GetCurrentMethod
  ids_ScopedThreadStateChange ids_SuspendThreadByThreadId ids_Resume : ids.

Lemma ids_Monitor_delete m : keeps_thread_ids (Monitor_delete m).
Proof. unfold Monitor_delete. ids. Qed.

Lemma ids_Inflate self owner obj : keeps_thread_ids (Inflate self owner obj).
Proof.
  pose proof ids_Monitor_delete.
  unfold Inflate, Monitor_new, Monitor_Install, MonitorList_Add, put.
  ids.
Qed.

Lemma ids_Monitor_Lock fuel self m : keeps_thread_ids (Monitor_Lock fuel self m).
Proof.
  induction fuel as [|fuel IH]; simpl; [auto with ids|]. ids.
Qed.

Lemma ids_at {A} (c : Call A) (rt rt' : Runtime) (a : A) (t : ThreadPtr) :
  keeps_thread_ids c -> c rt = Done a rt' ->
  thread_id_ <$> threads rt' !! t = thread_id_ <$> threads rt !! t.
Proof. intros Hc Hrun. specialize (Hc rt). rewrite Hrun in Hc. apply Hc. Qed.

Lemma bind_Done {A B} (c : Call A) (k : A -> Call B) (rt rt' : Runtime) (b : B) :
  bind c k rt = Done b rt' ->
  exists a rt1, c rt = Done a rt1 /\ k a rt1 = Done b rt'.
Proof.
  unfold bind. destruct (c rt) as [a rt1| | |]; try discriminate. eauto.
Qed.

(** [Monitor::Lock] returns only to the owner of the monitor. *)
Lemma Monitor_Lock_returns_to_owner (fuel : nat) (self : ThreadPtr) (m : MonitorPtr)
    (rt rt' : Runtime) :
  Monitor_Lock fuel self m rt = Done tt rt' ->
  exists mon', monitors rt' !! m = Some mon' /\ owner_ mon' = Some self.
Proof.
  destruct fuel as [|fuel]; [discriminate|].
  cbn [Monitor_Lock]. unfold bind at 1, Monitor_at.
  destruct (monitors rt !! m) as [mon|] eqn:Hmon; [|discriminate].
  cbn [deref ret]. destruct (owner_ mon) as [owner|] eqn:Hown.
  - destruct (bool_decide (owner = self)) eqn:Hself.
    + apply bool_decide_eq_true_1 in Hself. subst owner.
      crank. intros H. injection H as <-. simpl. rewrite lookup_insert_eq.
      eexists. split; [reflexivity|]. exact Hown.
    + destruct (threads rt !! self) as [th|] eqn:Hth; crank; try discriminate.
  - crank.
    destruct (bool_decide (lock_count_ mon = 0)); simpl; [|discriminate].
    destruct (bool_decide (lock_profiling_threshold_ rt <> 0)); simpl.
    + destruct (threads rt !! self) as [th|]; crank; [|discriminate].
      intros H. injection H as <-. simpl. rewrite lookup_insert_eq.
      eexists. split; reflexivity.
    + intros H. injection H as <-. simpl. rewrite lookup_insert_eq.
      eexists. split; reflexivity.
Qed.

Lemma MonitorEnter_loop_returns_to_owner (kThinLockMaxCount : Z) (self : ThreadPtr)
    (obj : ObjPtr) (tid : Z) (rt' : Runtime) :
  forall (fuel : nat) (count : Z) (rt : Runtime),
    thread_id_ <$> threads rt !! self = Some tid ->
    MonitorEnter_loop kThinLockMaxCount fuel self obj tid count rt = Done tt rt' ->
    GetLockOwnerThreadId obj rt' = Done tid rt'.
Proof.
  induction fuel as [|fuel IH]; intros count rt Hid H; [discriminate|].
  cbn [MonitorEnter_loop] in H. unfold bind at 1 in H. unfold GetLockWord at 1 in H.
  destruct (lock_words rt !! obj) as [lw|] eqn:Hlw; [|discriminate].
  cbn [deref ret] in H.
  destruct lw as [|owner n|m]; cbn [GetState ThinLockOwner ThinLockCount FatLockMonitor] in H.
  - (* unlocked: the compare-and-swap installs the thin lock *)
    revert H. unfold CasLockWord, FromThinLockId. crank.
    intros H. injection H as <-. unfold GetLockOwnerThreadId. crank. reflexivity.
  - destruct (owner =? tid) eqn:Heq.
    + apply Z.eqb_eq in Heq. subst owner.
      destruct ((n + 1) mod 2 ^ 32 <=? kThinLockMaxCount).
      * (* recursion *)
        revert H. unfold FromThinLockId. crank.
        intros H. injection H as <-. unfold GetLockOwnerThreadId. crank. reflexivity.
      * (* overflow: inflate and go round again *)
        apply bind_Done in H as (a & rt1 & Hinf & Hloop).
        eapply (IH _ rt1); [|exact Hloop].
        rewrite (ids_at _ _ _ _ self (ids_Inflate self self obj) Hinf). exact Hid.
    + (* contention *)
      unfold bind at 1, reads in H.
      destruct (count + 1 <=? max_spins_before_thin_lock_inflation rt).
      * apply bind_Done in H as (a & rt1 & Hsleep & Hloop).
        eapply (IH _ rt1); [|exact Hloop].
        rewrite (ids_at _ _ _ _ self (ids_emit _) Hsleep). exact Hid.
      * apply bind_Done in H as (a & rt1 & Hblock & Hloop).
        eapply (IH _ rt1); [|exact Hloop].
        rewrite <- Hid. eapply ids_at; [|exact Hblock].
        pose proof ids_Inflate. ids.
  - (* fat: the monitor is locked *)
    unfold bind at 1 in H. cbn [deref ret] in H.
    destruct (Monitor_Lock_returns_to_owner _ _ _ _ _ H) as (mon' & Hmon' & Hown').
    pose proof (keeps_at _ rt rt' (keeps_Monitor_Lock (S fuel) self m)) as Hk.
    rewrite H in Hk. specialize (Hk eq_refl).
    pose proof (ids_at _ _ _ _ self (ids_Monitor_Lock (S fuel) self m) H) as Hi.
    rewrite Hid in Hi.
    destruct (threads rt' !! self) as [th'|] eqn:Hth'; [|discriminate].
    injection Hi as Hi.
    unfold GetLockOwnerThreadId, Monitor_GetOwnerThreadId. run.
    rewrite Hk, Hlw. simpl. rewrite Hmon'. simpl. rewrite Hown'. simpl.
    rewrite Hth'. simpl. rewrite Hi. reflexivity.
Qed.



(** The lookup of a thread by its id depends on the ids of the registered
    threads only. *)
Lemma FindThreadByThreadId_ids (id : Z) (rt rt1 : Runtime) :
  (forall t, thread_id_ <$> threads rt1 !! t = thread_id_ <$> threads rt !! t) ->
  thread_list rt1 = thread_list rt ->
  result_value (FindThreadByThreadId id rt1) = result_value (FindThreadByThreadId id rt).
Proof.
  intros Hids Hlist. unfold FindThreadByThreadId, reads. simpl. f_equal.
  rewrite Hlist. clear Hlist. induction (thread_list rt) as [|t l IH]; [reflexivity|].
  simpl. rewrite IH. specialize (Hids t).
  destruct (threads rt1 !! t) as [th1|], (threads rt !! t) as [th0|];
    simpl in Hids; try discriminate; [|reflexivity].
  injection Hids as Hids. rewrite Hids. reflexivity.
Qed.

(** The spinning of [MonitorEnter] on a thin lock that another thread
    holds: one sleep for each round up to [max_spins]. *)
Lemma MonitorEnter_loop_spins (kThinLockMaxCount : Z) (self : ThreadPtr) (obj : ObjPtr)
    (tid otid n : Z) (fuel : nat) :
  otid <> tid ->
  forall (k : nat) (count : Z) (rt : Runtime),
    lock_words rt !! obj = Some (ThinLocked otid n) ->
    count + Z.of_nat k <= max_spins_before_thin_lock_inflation rt ->
    MonitorEnter_loop kThinLockMaxCount (k + fuel) self obj tid count rt
    = MonitorEnter_loop kThinLockMaxCount fuel self obj tid (count + Z.of_nat k)
        (set_trace (trace rt ++ repeat (NanoSleep 1000) k) rt).
Proof.
  intros Hne. induction k as [|k IH]; intros count rt Hlw Hmax.
  - simpl. rewrite Z.add_0_r, app_nil_r. f_equal. symmetry. apply runtime_eta.
  - cbn [Nat.add MonitorEnter_loop]. unfold bind at 1. unfold GetLockWord at 1.
    rewrite Hlw. cbn [deref ret GetState ThinLockOwner].
    replace (otid =? tid) with false by (symmetry; apply Z.eqb_neq, Hne).
    unfold bind at 1, reads.
    replace (count + 1 <=? max_spins_before_thin_lock_inflation rt) with true
      by (symmetry; apply Z.leb_le; lia).
    unfold bind at 1, emit, modify.
    rewrite IH; [|exact Hlw|simpl; lia].
    f_equal; [lia|]. unfold set_trace. simpl. rewrite <- app_assoc. reflexivity.
Qed.

Lemma bind_run {A B} (c : Call A) (k : A -> Call B) (rt rt1 : Runtime) (a : A) :
  c rt = Done a rt1 -> bind c k rt = k a rt1.
Proof. intros H. unfold bind. rewrite H. reflexivity. Qed.

Lemma bind_bind {A B C} (c : Call A) (k1 : A -> Call B) (k2 : B -> Call C) (rt : Runtime) :
  bind (bind c k1) k2 rt = bind c (fun a => bind (k1 a) k2) rt.
Proof. unfold bind. destruct (c rt); reflexivity. Qed.

Lemma ScopedThreadStateChange_run {A} (rt : Runtime) (self : ThreadPtr) (th : Thread)
    (st : ThreadState) (body : Call A) :
  threads rt !! self = Some th ->
  ScopedThreadStateChange self st body rt
  = bind body (fun a => upd_thread self (set_state (state_ th));;; ret a)
      (set_threads (<[self := set_state st th]> (threads rt)) rt).
Proof. intros Hth. unfold ScopedThreadStateChange. crank. reflexivity. Qed.

(** The round of [MonitorEnter] after the last spin, on a thin lock that
    another thread holds. *)
Lemma MonitorEnter_loop_inflates_contended (kThinLockMaxCount : Z) (rt : Runtime)
    (fuel : nat) (self owner : ThreadPtr) (obj : ObjPtr) (th tho : Thread)
    (tid n count : Z) :
  threads rt !! self = Some th ->
  threads rt !! owner = Some tho ->
  owner <> self ->
  thread_id_ tho <> tid ->
  result_value (FindThreadByThreadId (thread_id_ tho) rt) = Some (Some owner) ->
  lock_words rt !! obj = Some (ThinLocked (thread_id_ tho) n) ->
  allow_new_monitors_ rt = true ->
  max_spins_before_thin_lock_inflation rt < count + 1 ->
  exists f mon,
    MonitorEnter_loop kThinLockMaxCount (S (S fuel)) self obj tid count rt =
      Parked f
        (mkRuntime (<[self := set_state kBlocked th]>
                      (<[owner := set_suspended false tho]> (threads rt)))
                   (<[fresh (dom (monitors rt) : gset positive) := mon]> (monitors rt))
                   (<[obj := FatLocked (fresh (dom (monitors rt) : gset positive))]>
                      (lock_words rt))
                   (thread_list rt)
                   (fresh (dom (monitors rt) : gset positive) :: monitor_list rt)
                   (allow_new_monitors_ rt) (lock_profiling_threshold_ rt)
                   (max_spins_before_thin_lock_inflation rt) (milli_time rt)
                   (trace rt ++ [ContendersWait (fresh (dom (monitors rt) : gset positive))
                                                self]))
    /\ owner_ mon = Some owner /\ lock_count_ mon = n /\ obj_ mon = obj
    /\ wait_set_ mon = None.
Proof.
  intros Hth Htho Hne Hid Hfind Hlw Hallow Hmax.
  set (m := fresh (dom (monitors rt) : gset positive)).
  set (rt1 := set_threads (<[self := set_state kBlocked th]> (threads rt)) rt).
  set (rt2 := set_threads (<[owner := set_suspended true tho]> (threads rt1)) rt1).
  assert (Hfind1 : FindThreadByThreadId (thread_id_ tho) rt1 = Done (Some owner) rt1).
  { pose proof (FindThreadByThreadId_ids (thread_id_ tho) rt rt1) as H.
    rewrite Hfind in H. unfold FindThreadByThreadId, reads in H |- *. simpl in H.
    f_equal. apply (inj Some). apply H; [|reflexivity].
    intros t. simpl. destruct (decide (t = self)) as [->|Hn].
    - rewrite lookup_insert_eq, Hth. reflexivity.
    - rewrite lookup_insert_ne by congruence. reflexivity. }
  assert (Htho1 : threads rt1 !! owner = Some tho).
  { simpl. rewrite lookup_insert_ne by congruence. exact Htho. }
  assert (Hsusp : SuspendThreadByThreadId (thread_id_ tho) rt1 = Done (Some owner) rt2).
  { unfold SuspendThreadByThreadId. unfold bind at 1. rewrite Hfind1.
    unfold upd_thread, Thread_at. unfold bind, modify, ret. rewrite Htho1. reflexivity. }
  pose proof (Inflate_thin_spec rt2 self owner obj (set_suspended true tho) n) as Hinf.
  simpl in Hinf. fold m in Hinf.
  match type of Hinf with _ -> _ -> _ -> _ -> _ = Done tt (inflated _ _ _ ?x) =>
    set (mon := x) in * end.
  specialize (Hinf (lookup_insert_eq _ _ _) (or_intror eq_refl) Hlw Hallow).
  exists (LockFrame m (if bool_decide (lock_profiling_threshold_ rt <> 0) then 0
                       else milli_time rt)
                    (locking_method_ mon) (locking_dex_pc_ mon) (state_ th)), mon.
  split; [|unfold mon; destruct (bool_decide (lock_profiling_threshold_ rt <> 0)); auto].
  assert (Hlw1 : GetLockWord obj rt1 = Done (ThinLocked (thread_id_ tho) n) rt1).
  { unfold GetLockWord. simpl. rewrite Hlw. reflexivity. }
  assert (Hlw2 : GetLockWord obj rt2 = Done (ThinLocked (thread_id_ tho) n) rt2).
  { unfold GetLockWord. simpl. rewrite Hlw. reflexivity. }
  remember (S fuel) as fuel1 eqn:Hfuel.
  cbn [MonitorEnter_loop]. unfold bind at 1. unfold GetLockWord at 1.
  rewrite Hlw. cbn [deref ret GetState ThinLockOwner].
  replace (thread_id_ tho =? tid) with false by (symmetry; apply Z.eqb_neq, Hid).
  unfold bind at 1. unfold reads at 1.
  replace (count + 1 <=? max_spins_before_thin_lock_inflation rt) with false
    by (symmetry; apply Z.leb_gt; lia).
  erewrite bind_run; cycle 1.
  { rewrite (ScopedThreadStateChange_run rt self th kBlocked _ Hth). fold rt1.
    rewrite bind_bind, (bind_run _ _ _ _ _ Hlw1).
    rewrite bool_decide_eq_true_2 by reflexivity.
    rewrite bind_bind, (bind_run _ _ _ _ _ Hsusp).
    rewrite !bind_bind, (bind_run _ _ _ _ _ Hlw2).
    cbn [GetState ThinLockOwner]. rewrite bool_decide_eq_true_2 by reflexivity.
    rewrite Z.eqb_refl. cbn [andb].
    rewrite !bind_bind, (bind_run _ _ _ _ _ Hinf).
    unfold Resume, upd_thread, Thread_at, bind, modify, ret, inflated. simpl.
    rewrite lookup_insert_eq. simpl.
    rewrite lookup_insert_ne by congruence.
    rewrite lookup_insert_ne by congruence.
    rewrite lookup_insert_eq. simpl. reflexivity. }
  assert (Hne' : bool_decide (owner = self) = false) by (apply bool_decide_eq_false_2, Hne).
  assert (Hmo : owner_ mon = Some owner).
  { unfold mon. destruct (bool_decide (lock_profiling_threshold_ rt <> 0)); reflexivity. }
  clearbody mon. subst fuel1.
  rewrite (MonitorEnter_loop_fat _ _ _ _ _ m) by (simpl; apply lookup_insert_eq).
  cbn [Monitor_Lock].
  repeat (crank; rewrite ?Hmo, ?Hne').
  unfold set_trace, set_threads. simpl. do 2 f_equal.
  rewrite !insert_insert_eq. rewrite (insert_insert_ne _ owner self) by congruence.
  rewrite insert_insert_eq. reflexivity.
Qed.

(** X20: entry on a thin lock that another thread holds.  The caller sleeps
    once for each of the [max_spins] rounds; then it suspends the owner,
    inflates the lock on the owner's behalf, resumes the owner, and parks,
    blocked, on the contenders of the new monitor.  The monitor has the
    owner and the recursion count of the thin lock, the owner is not
    suspended any more, and nothing else changed. *)
Theorem MonitorEnter_contended_thin (kThinLockMaxCount : Z) (rt : Runtime)
    (fuel : nat) (self owner : ThreadPtr) (obj : ObjPtr) (th tho : Thread) (n : Z) :
  threads rt !! self = Some th ->
  threads rt !! owner = Some tho ->
  owner <> self ->
  thread_id_ tho <> thread_id_ th ->
  result_value (FindThreadByThreadId (thread_id_ tho) rt) = Some (Some owner) ->
  lock_words rt !! obj = Some (ThinLocked (thread_id_ tho) n) ->
  allow_new_monitors_ rt = true ->
  0 <= max_spins_before_thin_lock_inflation rt ->
  exists f mon,
    MonitorEnter kThinLockMaxCount
      (Z.to_nat (max_spins_before_thin_lock_inflation rt) + S (S fuel)) self obj rt =
      Parked f
        (mkRuntime (<[self := set_state kBlocked th]>
                      (<[owner := set_suspended false tho]> (threads rt)))
                   (<[fresh (dom (monitors rt) : gset positive) := mon]> (monitors rt))
                   (<[obj := FatLocked (fresh (dom (monitors rt) : gset positive))]>
                      (lock_words rt))
                   (thread_list rt)
                   (fresh (dom (monitors rt) : gset positive) :: monitor_list rt)
                   (allow_new_monitors_ rt) (lock_profiling_threshold_ rt)
                   (max_spins_before_thin_lock_inflation rt) (milli_time rt)
                   (trace rt
                    ++ repeat (NanoSleep 1000)
                         (Z.to_nat (max_spins_before_thin_lock_inflation rt))
                    ++ [ContendersWait (fresh (dom (monitors rt) : gset positive)) self]))
    /\ owner_ mon = Some owner /\ lock_count_ mon = n /\ obj_ mon = obj
    /\ wait_set_ mon = None.
Proof.
  intros Hth Htho Hne Hid Hfind Hlw Hallow Hmax.
  set (k := Z.to_nat (max_spins_before_thin_lock_inflation rt)).
  destruct (MonitorEnter_loop_inflates_contended kThinLockMaxCount
              (set_trace (trace rt ++ repeat (NanoSleep 1000) k) rt)
              fuel self owner obj th tho (thread_id_ th) n (0 + Z.of_nat k))
    as (f & mon & Hrun & Hmon); try assumption.
  { simpl. unfold k. lia. }
  exists f, mon. split; [|exact Hmon].
  unfold MonitorEnter, GetThreadId. rewrite bind_bind.
  rewrite (bind_run (Thread_at self) _ rt rt th)
    by (unfold Thread_at; rewrite Hth; reflexivity).
  unfold bind at 1, ret.
  rewrite (MonitorEnter_loop_spins _ _ _ _ (thread_id_ tho) n) by
    (try assumption; unfold k; lia).
  fold k. rewrite Hrun. simpl. rewrite <- app_assoc. reflexivity.
Qed.

Lemma MonitorEnter_contended_thin_witness :
  exists f rt',
    MonitorEnter 3 (Z.to_nat 50 + 2) 2 1 (a_runtime (ThinLocked 7 2) ∅) = Parked f rt'
    /\ (suspended_ <$> threads rt' !! 1%positive) = Some false
    /\ (state_ <$> threads rt' !! 2%positive) = Some kBlocked
    /\ length (trace rt') = 51%nat.
Proof.
  destruct (MonitorEnter_contended_thin 3 (a_runtime (ThinLocked 7 2) ∅) 0 2 1 1
              (a_thread 9) (a_thread 7) 2)
    as (f & mon & Hrun & _);
    [reflexivity | reflexivity | discriminate | discriminate | reflexivity | reflexivity
    | reflexivity | simpl; lia |].
  eexists f, _. split; [exact Hrun|]. split; [reflexivity|]. split; reflexivity.
Defined.

Lemma contention_sample_percent_range (wait_ms threshold : Z) :
  0 < threshold < 2^32 -> 0 <= wait_ms < 2^64 ->
  0 <= contention_sample_percent wait_ms threshold <= 100
  /\ (threshold <= wait_ms -> contention_sample_percent wait_ms threshold = 100)
  /\ (wait_ms < threshold ->
      contention_sample_percent wait_ms threshold = 100 * wait_ms / threshold).
Proof.
  intros Ht Hw. unfold contention_sample_percent.
  destruct (Z.geb_spec wait_ms threshold) as [Hge|Hlt].
  - split; [lia|]. split; [reflexivity | lia].
  - assert (H100 : 0 <= 100 * wait_ms < 2^64) by lia.
    rewrite (Z.mod_small (100 * wait_ms)) by exact H100.
    assert (Hq : 0 <= 100 * wait_ms / threshold < 100).
    { split; [apply Z.div_pos; lia|]. apply Z.div_lt_upper_bound; lia. }
    rewrite Z.mod_small by lia.
    split; [lia|]. split; [lia | reflexivity].
Qed.


